(** * Lint-report aggregation and regex rewriters: a shallow embedding

    The development follows the five Python scripts of the repository:

    - [analyze_eslint.py] (text report aggregator),
    - [scripts/analyze_eslint.py] (JSON report aggregator),
    - [scripts/fix_any_types.py] and [scripts/fix_eslint_issues.py]
      (the "any"-type rewriters and the location-pattern rewriter),
    - [scripts/fix_all_unused_vars.py] (the declaration-pattern rewriter).

    Python strings are sequences of code points; here a string is a
    [list ascii], each [ascii] standing for a code point below 256, with
    the character classes of Python's [str] methods and of its [re] module
    on that range.  Dictionaries keep their insertion order and are
    association lists.  Regular expressions are syntax trees run by a
    backtracking matcher with the priorities of [re] (leftmost start,
    first alternative first, greedy before shorter, lazy before longer). *)

From Stdlib Require Import Ascii String List Bool Arith Lia ZArith QArith.
From Stdlib Require Import Sorting.Sorted Sorting.Permutation.
Import ListNotations.
Close Scope Q_scope.

Set Implicit Arguments.

(** ** Python strings *)

Module PyStr.

Definition pystr := list ascii.

(** A string literal of the source. *)
Definition s (x : string) : pystr := list_ascii_of_string x.

Definition code (c : ascii) : nat := nat_of_ascii c.

Definition in_range (lo hi : nat) (c : ascii) : bool :=
  (lo <=? code c) && (code c <=? hi).

(** [str.isalnum] on one character. *)
Definition isalnum (c : ascii) : bool :=
  in_range 48 57 c || in_range 65 90 c || in_range 97 122 c
  || in_range 170 170 c || in_range 178 179 c || in_range 181 181 c
  || in_range 185 186 c || in_range 188 190 c || in_range 192 214 c
  || in_range 216 246 c || in_range 248 255 c.

(** [str.isspace] on one character; also the class [\s]. *)
Definition isspace (c : ascii) : bool :=
  in_range 9 13 c || in_range 28 32 c || in_range 133 133 c
  || in_range 160 160 c.

(** The class [\d]. *)
Definition isdecimal (c : ascii) : bool := in_range 48 57 c.

(** The class [\w]: alphanumeric or underscore. *)
Definition is_word (c : ascii) : bool := isalnum c || Ascii.eqb c "_".

Fixpoint strip_prefix (p l : pystr) : option pystr :=
  match p with
  | [] => Some l
  | a :: p' =>
      match l with
      | b :: l' => if Ascii.eqb a b then strip_prefix p' l' else None
      | [] => None
      end
  end.

(** [l.startswith(p)] *)
Definition startswith (p l : pystr) : bool :=
  match strip_prefix p l with Some _ => true | None => false end.

(** [needle in hay] *)
Fixpoint contains (needle hay : pystr) : bool :=
  startswith needle hay ||
  match hay with
  | [] => false
  | _ :: hay' => contains needle hay'
  end.

(** [l[a:b]] for non-negative bounds. *)
Definition slice (l : pystr) (a b : nat) : pystr := firstn (b - a) (skipn a l).

Fixpoint lstrip (l : pystr) : pystr :=
  match l with
  | c :: l' => if isspace c then lstrip l' else l
  | [] => []
  end.

Definition rstrip (l : pystr) : pystr := rev (lstrip (rev l)).

(** [l.strip()] *)
Definition strip (l : pystr) : pystr := rstrip (lstrip l).

Definition pystr_eqb (a b : pystr) : bool :=
  if list_eq_dec ascii_dec a b then true else false.

Lemma pystr_eqb_eq a b : pystr_eqb a b = true <-> a = b.
Proof.
  unfold pystr_eqb. destruct (list_eq_dec ascii_dec a b); split; congruence.
Qed.

End PyStr.

Import PyStr.

(** ** Regular expressions of [re] *)

Module Re.

Inductive cclass : Type :=
| CChr (c : ascii)            (* a literal character *)
| CWord                       (* \w *)
| CSpace                      (* \s *)
| CDigit                      (* \d *)
| CDot                        (* .  (no DOTALL) *)
| CNotChr (c : ascii)         (* [^c] *)
| CSet (l : list ascii).      (* [abc] *)

Definition cmem (k : cclass) (c : ascii) : bool :=
  match k with
  | CChr a => Ascii.eqb a c
  | CWord => is_word c
  | CSpace => isspace c
  | CDigit => isdecimal c
  | CDot => negb (Ascii.eqb c "010")
  | CNotChr a => negb (Ascii.eqb a c)
  | CSet l => existsb (Ascii.eqb c) l
  end.

Inductive greed : Type := Greedy | Lazy.

(** Quantifiers of the repository's patterns only ever apply to one
    character class, so [Rep] and [Opt] take a class. *)
Inductive re : Type :=
| Lit (l : pystr)                          (* literal text *)
| Cls (k : cclass)                         (* one character of a class *)
| Cat (r1 r2 : re)                         (* r1 r2 *)
| Alt (r1 r2 : re)                         (* r1|r2 *)
| Grp (n : nat) (r : re)                   (* the n-th capturing group *)
| Rep (g : greed) (plus : bool) (k : cclass)  (* k*  k+  k*?  k+? *)
| Opt (k : cclass)                         (* k? *)
| Bol                                      (* ^ *)
| WordB.                                   (* \b *)

(** The matcher's position: the text before it (reversed), the text
    after it, and the groups captured so far. *)
Record mstate : Type := MS {
  seen : pystr;
  rest : pystr;
  caps : list (nat * pystr)
}.

Definition captured (st st' : mstate) : pystr :=
  rev (firstn (length (seen st') - length (seen st)) (seen st')).

Definition set_cap (n : nat) (v : pystr) (st : mstate) : mstate :=
  MS (seen st) (rest st) ((n, v) :: caps st).

Fixpoint get_cap (n : nat) (cs : list (nat * pystr)) : option pystr :=
  match cs with
  | [] => None
  | (m, v) :: cs' => if Nat.eqb n m then Some v else get_cap n cs'
  end.

Definition at_word (l : pystr) : bool :=
  match l with
  | c :: _ => is_word c
  | [] => false
  end.

(** [\b]: exactly one of the two neighbours is a word character. *)
Definition word_boundary (sn rs : pystr) : bool :=
  xorb (at_word sn) (at_word rs).

Section Matcher.

Variable A : Type.

Definition orelse (x y : option A) : option A :=
  match x with Some a => Some a | None => y end.

Fixpoint rep_greedy (k : cclass) (sn rs : pystr)
    (cont : pystr -> pystr -> option A) : option A :=
  match rs with
  | c :: rs' =>
      if cmem k c
      then orelse (rep_greedy k (c :: sn) rs' cont) (cont sn rs)
      else cont sn rs
  | [] => cont sn rs
  end.

Fixpoint rep_lazy (k : cclass) (sn rs : pystr)
    (cont : pystr -> pystr -> option A) : option A :=
  match rs with
  | c :: rs' =>
      orelse (cont sn rs)
             (if cmem k c then rep_lazy k (c :: sn) rs' cont else None)
  | [] => cont sn rs
  end.

Definition rep (g : greed) (k : cclass) (sn rs : pystr)
    (cont : pystr -> pystr -> option A) : option A :=
  match g with
  | Greedy => rep_greedy k sn rs cont
  | Lazy => rep_lazy k sn rs cont
  end.

Definition one (k : cclass) (sn rs : pystr)
    (cont : pystr -> pystr -> option A) : option A :=
  match rs with
  | c :: rs' => if cmem k c then cont (c :: sn) rs' else None
  | [] => None
  end.

(** Backtracking matcher in continuation-passing style: [rmatch r st k]
    is the first success, in the priority order of [re], of [k] on a
    position reached by matching [r] from [st]. *)
Fixpoint rmatch (r : re) (st : mstate) (k : mstate -> option A) : option A :=
  let back := fun sn rs => k (MS sn rs (caps st)) in
  match r with
  | Lit l =>
      match strip_prefix l (rest st) with
      | Some rs => k (MS (rev l ++ seen st) rs (caps st))
      | None => None
      end
  | Cls c => one c (seen st) (rest st) back
  | Cat r1 r2 => rmatch r1 st (fun st' => rmatch r2 st' k)
  | Alt r1 r2 => orelse (rmatch r1 st k) (rmatch r2 st k)
  | Grp n r1 => rmatch r1 st (fun st' => k (set_cap n (captured st st') st'))
  | Rep g false c => rep g c (seen st) (rest st) back
  | Rep g true c => one c (seen st) (rest st) (fun sn rs => rep g c sn rs back)
  | Opt c => orelse (one c (seen st) (rest st) back) (k st)
  | Bol => match seen st with [] => k st | _ :: _ => None end
  | WordB => if word_boundary (seen st) (rest st) then k st else None
  end.

End Matcher.

(** The match of [r] that starts at the position between [sn] and [rs]. *)
Definition match_at (r : re) (sn rs : pystr) : option mstate :=
  rmatch r (MS sn rs []) (fun st => Some st).

(** [pattern.match(text)]: a match at the beginning of the text. *)
Definition re_match (r : re) (text : pystr) : option mstate :=
  match_at r [] text.

(** [m.group(n)] *)
Definition group (n : nat) (m : mstate) : pystr :=
  match get_cap n (caps m) with Some v => v | None => [] end.

(** Replacement templates: literal text and group references [\n]. *)
Inductive titem : Type :=
| TLit (l : pystr)
| TGrp (n : nat).

Definition expand (tpl : list titem) (m : mstate) : pystr :=
  concat (map (fun it => match it with
                         | TLit l => l
                         | TGrp n => group n m
                         end) tpl).

(** Number of characters consumed by a match that started after [sn]. *)
Definition mlen (sn : pystr) (m : mstate) : nat :=
  length (seen m) - length sn.

(** [re.subn]: scan from the left; at a position where the pattern
    matches, emit the expanded template and resume after the match; an
    empty match emits the template and then copies one character.
    [skip] counts the characters of the current match still to pass. *)
Fixpoint subn_scan (r : re) (tpl : list titem) (sn rs : pystr) (skip : nat)
    : pystr * nat :=
  match rs with
  | [] =>
      match skip with
      | 0 =>
          match match_at r sn [] with
          | Some m => (expand tpl m, 1)
          | None => ([], 0)
          end
      | S _ => ([], 0)
      end
  | c :: rs' =>
      match skip with
      | S j => subn_scan r tpl (c :: sn) rs' j
      | 0 =>
          match match_at r sn rs with
          | Some m =>
              let (out, n) := subn_scan r tpl (c :: sn) rs' (mlen sn m - 1) in
              match mlen sn m with
              | 0 => (expand tpl m ++ c :: out, S n)
              | S _ => (expand tpl m ++ out, S n)
              end
          | None =>
              let (out, n) := subn_scan r tpl (c :: sn) rs' 0 in
              (c :: out, n)
          end
      end
  end.

Definition subn (r : re) (tpl : list titem) (text : pystr) : pystr * nat :=
  subn_scan r tpl [] text 0.

(** [pattern.sub(repl, text)] *)
Definition sub (r : re) (tpl : list titem) (text : pystr) : pystr :=
  fst (subn r tpl text).

(** [pattern.search(text)] as a truth value. *)
Fixpoint search_from (r : re) (sn rs : pystr) : bool :=
  match match_at r sn rs with
  | Some _ => true
  | None =>
      match rs with
      | [] => false
      | c :: rs' => search_from r (c :: sn) rs'
      end
  end.

Definition search (r : re) (text : pystr) : bool := search_from r [] text.

End Re.

Import Re.

(** *** What a match is

    [sem r st st']: matching [r] from the position [st] can end at the
    position [st'].  The matcher returns the first such end, in its
    priority order, that its continuation accepts. *)

Module ReSem.

Fixpoint sem (r : re) (st st' : mstate) : Prop :=
  match r with
  | Lit l =>
      exists rs, strip_prefix l (rest st) = Some rs
                 /\ st' = MS (rev l ++ seen st) rs (caps st)
  | Cls k =>
      exists c rs, rest st = c :: rs /\ cmem k c = true
                   /\ st' = MS (c :: seen st) rs (caps st)
  | Cat r1 r2 => exists mid, sem r1 st mid /\ sem r2 mid st'
  | Alt r1 r2 => sem r1 st st' \/ sem r2 st st'
  | Grp n r1 =>
      exists mid, sem r1 st mid /\ st' = set_cap n (captured st mid) mid
  | Rep _ plus k =>
      exists w rs, rest st = w ++ rs /\ forallb (cmem k) w = true
                   /\ (plus = true -> w <> [])
                   /\ st' = MS (rev w ++ seen st) rs (caps st)
  | Opt k =>
      st' = st
      \/ exists c rs, rest st = c :: rs /\ cmem k c = true
                      /\ st' = MS (c :: seen st) rs (caps st)
  | Bol => seen st = [] /\ st' = st
  | WordB => word_boundary (seen st) (rest st) = true /\ st' = st
  end.

(** The pattern has no match at any position of the text. *)
Definition no_match (r : re) (text : pystr) : Prop :=
  forall sn rs, text = rev sn ++ rs -> match_at r sn rs = None.

End ReSem.

Declare Scope re_scope.
Delimit Scope re_scope with re.
Bind Scope re_scope with re.
Infix ">>" := Cat (at level 61, right associativity) : re_scope.
Infix "<|>" := Alt (at level 62, right associativity) : re_scope.
Notation "'\w+'" := (Rep Greedy true CWord) : re_scope.
Notation "'\s*'" := (Rep Greedy false CSpace) : re_scope.
Notation "'\s+'" := (Rep Greedy true CSpace) : re_scope.
Notation "'\d+'" := (Rep Greedy true CDigit) : re_scope.
Notation "'\??'" := (Opt (CChr "?")) : re_scope.
Notation "'\b'" := WordB : re_scope.
Notation "` x" := (Lit (s x)) (at level 9, x at level 0, format "` x") : re_scope.

(** ** The declaration-pattern rewriter ([scripts/fix_all_unused_vars.py]) *)

Module FixAllUnusedVars.

Open Scope re_scope.

(** [re.escape(variable)] makes the pattern match the name literally. *)
Definition escaped (variable : pystr) : re := Lit variable.

Definition set (x : string) : re := Cls (CSet (s x)).

(** The template [\1_\2\3]. *)
Definition tpl_plain : list titem := [TGrp 1; TLit (s "_"); TGrp 2; TGrp 3].

(** The template [\1 _\2\3]. *)
Definition tpl_space : list titem := [TGrp 1; TLit (s " _"); TGrp 2; TGrp 3].

(** The list [patterns] built for one variable, in source order. *)
Definition patterns (variable : pystr) : list (re * list titem) :=
  let v := Grp 2 (escaped variable) in
  [ (* Regular variable declarations *)
    (Grp 1 (`"const" <|> `"let" <|> `"var") >> \s+ >> v >>
       Grp 3 (\s* >> set ":=" <|> \s+ >> `"in" >> \s+ <|> \s+ >> `"of" >> \s+),
     tpl_space);
    (* Function parameters *)
    (Grp 1 (`"(" <|> `"," >> \s*) >> v >> Grp 3 (\s* >> set ":),"),
     tpl_plain);
    (* Destructuring assignments *)
    (Grp 1 (`"{" >> Rep Lazy false (CNotChr "}")) >> v >> Grp 3 (\s* >> set ",}"),
     tpl_plain);
    (* Function declarations *)
    (Grp 1 (`"function" >> \s+) >> v >> Grp 3 (\s* >> `"("),
     tpl_plain);
    (* Import statements *)
    (Grp 1 (`"import" >> \s+ >> `"{" >> Rep Lazy false (CNotChr "}")) >> v >>
       Grp 3 (\s* >> set ",}"),
     tpl_plain);
    (Grp 1 (`"import" >> \s+) >> v >> Grp 3 (\s+ >> `"from"),
     tpl_plain);
    (* Class properties *)
    (Grp 1 (`"private" <|> `"protected" <|> `"public") >> \s+ >> v >>
       Grp 3 (\s* >> set ":="),
     tpl_space);
    (* Arrow function parameters *)
    (Grp 1 (`"(" >> \s*) >> v >> Grp 3 (\s* >> `")" >> \s* >> `"=>"),
     tpl_plain);
    (* Method parameters *)
    (Grp 1 (`"method(" >> Rep Lazy false (CNotChr ")")) >> v >>
       Grp 3 (\s* >> set ",)"),
     tpl_plain) ].

(** The inner loop: every pattern is substituted in turn. *)
Definition apply_patterns (ps : list (re * list titem)) (content : pystr) : pystr :=
  fold_left (fun c p => sub (fst p) (snd p) c) ps content.

(** One iteration of [for variable in variables]. *)
Definition fix_variable (modified_content variable : pystr) : pystr :=
  if contains (s "_" ++ variable) modified_content
  then modified_content
  else apply_patterns (patterns variable) modified_content.

(** The loop over the variables flagged in one file; the result is the
    content written back. *)
Definition fix_unused_vars (content : pystr) (variables : list pystr) : pystr :=
  fold_left fix_variable variables content.

End FixAllUnusedVars.

(** ** The "any"-type rewriter of [scripts/fix_any_types.py] *)

Module FixAnyTypes.

Open Scope re_scope.

(** The eight (pattern, replacement) steps of [fix_any_types], in source
    order.  The replacements have no group reference. *)
Definition steps : list (re * pystr) :=
  [ (`"Record<string," >> \s* >> `"any>",      s "Record<string, unknown>");
    (`"Record<string," >> \s* >> `"any[]>",    s "Record<string, unknown[]>");
    (`"any[]",                                 s "unknown[]");
    (`"Array<any>",                            s "Array<unknown>");
    (`"Promise<any>",                          s "Promise<unknown>");
    (`":" >> \s* >> `"any" >> \b,              s ": unknown");
    (`"<any>",                                 s "<unknown>");
    (`"as" >> \s+ >> `"any" >> \b,             s "as unknown") ].

(** One step: [if pattern.search(c): c = pattern.sub(repl, c);
    file_modified = True]. *)
Definition step (st : pystr * bool) (p : re * pystr) : pystr * bool :=
  let (content, modified) := st in
  if search (fst p) content
  then (sub (fst p) [TLit (snd p)] content, true)
  else (content, modified).

(** The body of the loop for one file: the content after the steps and
    the flag [file_modified] (the file is written back when it is set). *)
Definition fix_content (content : pystr) : pystr * bool :=
  fold_left step steps (content, false).

End FixAnyTypes.

(** ** [scripts/fix_eslint_issues.py] *)

Module FixEslintIssues.

Open Scope re_scope.

Definition keyword_any (kw : string) : re * list titem :=
  (Lit (s kw) >> \?? >> `":" >> \s* >> `"any",
   [TLit (s kw ++ s "?: Record<string, unknown>")]).

(** The list [replacements] of [fix_no_explicit_any], in source order. *)
Definition replacements : list (re * list titem) :=
  [ (* Function parameters and return types *)
    (`"(" >> Grp 1 \w+ >> \s* >> `":" >> \s* >> `"any)",
     [TLit (s "("); TGrp 1; TLit (s ": unknown)")]);
    (`"(" >> Grp 1 \w+ >> \s* >> `":" >> \s* >> `"any[])",
     [TLit (s "("); TGrp 1; TLit (s ": unknown[])")]);
    (`")" >> \s* >> `":" >> \s* >> `"any" >> \s* >> `"{",
     [TLit (s "): unknown {")]);
    (`")" >> \s* >> `":" >> \s* >> `"any[]" >> \s* >> `"{",
     [TLit (s "): unknown[] {")]);
    (* Variable declarations *)
    (Grp 1 (`"const" <|> `"let" <|> `"var") >> \s+ >> Grp 2 \w+ >> \s* >>
       `":" >> \s* >> `"any" >> \s* >> `"=",
     [TGrp 1; TLit (s " "); TGrp 2; TLit (s ": unknown =")]);
    (Grp 1 (`"const" <|> `"let" <|> `"var") >> \s+ >> Grp 2 \w+ >> \s* >>
       `":" >> \s* >> `"any[]" >> \s* >> `"=",
     [TGrp 1; TLit (s " "); TGrp 2; TLit (s ": unknown[] =")]);
    (* Interface and type properties *)
    (Grp 1 \w+ >> \?? >> `":" >> \s* >> `"any;",
     [TGrp 1; TLit (s "?: unknown;")]);
    (Grp 1 \w+ >> \?? >> `":" >> \s* >> `"any[];",
     [TGrp 1; TLit (s "?: unknown[];")]);
    (* Generic types *)
    (`"<any>", [TLit (s "<unknown>")]);
    (`"<any[]>", [TLit (s "<unknown[]>")]);
    (* Record types for objects *)
    (`"Record<string," >> \s* >> `"any>", [TLit (s "Record<string, unknown>")]);
    (`"Record<number," >> \s* >> `"any>", [TLit (s "Record<number, unknown>")]);
    (* Function parameters that accept multiple types *)
    (Grp 1 (\w+ >> \?? >> `":" >> \s*) >> `"any" >> Grp 2 (\s* >> `","),
     [TGrp 1; TLit (s "unknown"); TGrp 2]);
    (* Special case for context objects *)
    keyword_any "context";
    keyword_any "options";
    keyword_any "data";
    keyword_any "hash" ].

(** The loop [for pattern, replacement in replacements] with its counter. *)
Definition apply_replacements (rs : list (re * list titem))
    (st : pystr * nat) : pystr * nat :=
  fold_left (fun st p =>
               let (new_content, count) := subn (fst p) (snd p) (fst st) in
               (new_content, snd st + count))
            rs st.

(** [fix_no_explicit_any] on the content read from the file: the content
    after the replacements (written back when [fixes > 0]) and [fixes]. *)
Definition fix_no_explicit_any (content : pystr) : pystr * nat :=
  apply_replacements replacements (content, 0).

(** *** The location-pattern rewriter [fix_unused_vars] *)

(** [l[i]] with Python's negative indices; [None] is an [IndexError]. *)
Definition getitem (l : pystr) (i : Z) : option ascii :=
  let n := Z.of_nat (length l) in
  if (0 <=? i)%Z && (i <? n)%Z then nth_error l (Z.to_nat i)
  else if (- n <=? i)%Z && (i <? 0)%Z then nth_error l (Z.to_nat (n + i))
  else None.

(** [c.isalnum() or c == '_'] on an indexed character. *)
Definition ident_char (oc : option ascii) : bool :=
  match oc with
  | Some c => isalnum c || Ascii.eqb c "_"
  | None => false
  end.

Definition alnum_char (oc : option ascii) : bool :=
  match oc with Some c => isalnum c | None => false end.

Definition underscore_char (oc : option ascii) : bool :=
  match oc with Some c => Ascii.eqb c "_" | None => false end.

(** The two tests on the neighbours, as the source writes them:
    [prefix_pos > 0 and line[prefix_pos-1].isalnum() or
     line[prefix_pos-1] == '_'] groups as [(_ and _) or _]. *)
Definition is_standalone (line var_name : pystr) (prefix_pos : Z) : bool :=
  let after := (prefix_pos + Z.of_nat (length var_name))%Z in
  negb (((0 <? prefix_pos)%Z && alnum_char (getitem line (prefix_pos - 1)))
        || underscore_char (getitem line (prefix_pos - 1)))
  && negb ((after <? Z.of_nat (length line))%Z
           && ident_char (getitem line after)).

Fixpoint set_nth (n : nat) (x : pystr) (l : list pystr) : list pystr :=
  match l, n with
  | [], _ => []
  | _ :: l', 0 => x :: l'
  | y :: l', S n' => y :: set_nth n' x l'
  end.

(** One iteration of [for var_name, line_num, col_num in unused_vars]. *)
Definition fix_one (st : list pystr * nat) (v : pystr * Z * Z)
    : list pystr * nat :=
  let '(var_name, line_num, col_num) := v in
  let (lines, fixes) := st in
  if startswith (s "_") var_name then st
  else if (line_num <=? 0)%Z || (Z.of_nat (length lines) <? line_num)%Z then st
  else
    let idx := Z.to_nat (line_num - 1) in
    let line := nth idx lines [] in
    let prefix_pos := (col_num - 1)%Z in
    if (0 <=? prefix_pos)%Z && (prefix_pos <? Z.of_nat (length line))%Z then
      let p := Z.to_nat prefix_pos in
      if pystr_eqb (slice line p (p + length var_name)) var_name then
        if is_standalone line var_name prefix_pos then
          let new_line := firstn p line ++ s "_" ++ skipn p line in
          (set_nth idx new_line lines, S fixes)
        else st
      else st
    else st.

(** The loop over the flagged identifiers of one file, on the lines read
    by [readlines]; the lines are written back when [fixes > 0]. *)
Definition fix_unused_vars (lines : list pystr)
    (unused_vars : list (pystr * Z * Z)) : list pystr * nat :=
  fold_left fix_one unused_vars (lines, 0).

End FixEslintIssues.

(** ** Dictionaries, [sorted] and [os.path] *)

Module Py.

(** A [dict] in insertion order: an association list whose keys are
    pairwise distinct.  [defaultdict] access is [upd] with the default. *)
Section Dict.

Variables K V : Type.
Variable eqb : K -> K -> bool.

Definition dict := list (K * V).

Fixpoint get (k : K) (d : dict) : option V :=
  match d with
  | [] => None
  | (k', v) :: d' => if eqb k k' then Some v else get k d'
  end.

(** [d[k] = f(d[k])], with [d[k]] created as [dflt] at the end of the
    dictionary when the key is new. *)
Fixpoint upd (k : K) (f : V -> V) (dflt : V) (d : dict) : dict :=
  match d with
  | [] => [(k, f dflt)]
  | (k', v) :: d' =>
      if eqb k k' then (k', f v) :: d' else (k', v) :: upd k f dflt d'
  end.

(** [d[k] = v] *)
Definition set (k : K) (v : V) (d : dict) : dict := upd k (fun _ => v) v d.

Definition keys (d : dict) : list K := map fst d.
Definition values (d : dict) : list V := map snd d.

End Dict.

(** [sum] of naturals. *)
Definition sum (l : list nat) : nat := fold_right Nat.add 0 l.

Arguments sum l : simpl never.

(** [sorted(items, key=lambda x: x[1], reverse=True)]: a stable sort by
    decreasing count; items of equal count keep their order. *)
Section Sorted.

Variable X : Type.

Fixpoint insert_desc (x : X * nat) (l : list (X * nat)) : list (X * nat) :=
  match l with
  | [] => [x]
  | y :: l' => if snd x <? snd y then y :: insert_desc x l' else x :: l
  end.

Definition sorted_desc (l : list (X * nat)) : list (X * nat) :=
  fold_right insert_desc [] l.

End Sorted.

(** [posixpath]: the head up to the last slash, and the tail after it. *)
Fixpoint until_slash (l : pystr) : pystr :=
  match l with
  | [] => []
  | c :: l' => if Ascii.eqb c "/" then [] else c :: until_slash l'
  end.

Fixpoint from_slash (l : pystr) : pystr :=
  match l with
  | [] => []
  | c :: l' => if Ascii.eqb c "/" then l else from_slash l'
  end.

Fixpoint drop_slashes (l : pystr) : pystr :=
  match l with
  | [] => []
  | c :: l' => if Ascii.eqb c "/" then drop_slashes l' else l
  end.

(** [p[:i]] and [p[i:]] for [i = p.rfind('/') + 1]. *)
Definition head (p : pystr) : pystr := rev (from_slash (rev p)).
Definition tail (p : pystr) : pystr := rev (until_slash (rev p)).

(** [os.path.dirname]: the head, without its trailing slashes unless it
    consists of slashes only. *)
Definition dirname (p : pystr) : pystr :=
  match drop_slashes (rev (head p)) with
  | [] => head p
  | h => rev h
  end.

(** [os.path.basename] *)
Definition basename (p : pystr) : pystr := tail p.

(** Printing and exceptions: what a run has printed, and how it ended. *)
Inductive exn : Type :=
| ZeroDivisionError
| IndexError
| KeyError
| ValueError
| SystemExit (status : nat).

Inductive outcome (A : Type) : Type :=
| Ok (a : A)
| Raise (e : exn).

Arguments Ok {A} a.
Arguments Raise {A} e.

Section IO.

Variable L : Type.

Definition io (A : Type) : Type := list L * outcome A.

Definition ret {A} (a : A) : io A := ([], Ok a).

Definition bind {A B} (m : io A) (f : A -> io B) : io B :=
  match m with
  | (out, Ok a) => let (out', r) := f a in (out ++ out', r)
  | (out, Raise e) => (out, Raise e)
  end.

Definition print (l : L) : io unit := ([l], Ok tt).

Definition raise {A} (e : exn) : io A := ([], Raise e).

(** [for x in l: body x] *)
Fixpoint for_each {X} (l : list X) (body : X -> io unit) : io unit :=
  match l with
  | [] => ret tt
  | x :: l' => bind (body x) (fun _ => for_each l' body)
  end.

(** [for x in l: a = body a x], for a loop that carries a value. *)
Fixpoint for_fold {X A} (l : list X) (body : A -> X -> io A) (a : A) : io A :=
  match l with
  | [] => ret a
  | x :: l' => bind (body a x) (for_fold l' body)
  end.

(** The exit status of the process: 0 on a normal end, the argument of
    [sys.exit], and 1 for an uncaught exception. *)
Definition exit_status {A} (m : io A) : nat :=
  match snd m with
  | Ok _ => 0
  | Raise (SystemExit n) => n
  | Raise _ => 1
  end.

End IO.

Arguments ret {L A} a.
Arguments bind {L A B} m f.
Arguments print {L} l.
Arguments raise {L A} e.
Arguments for_each {L X} l body.
Arguments for_fold {L X A} l body a.
Arguments exit_status {L A} m.

End Py.

Notation "x <- m ;; k" := (Py.bind m (fun x => k))
  (at level 100, m at next level, right associativity).
Notation "m ;;; k" := (Py.bind m (fun _ => k))
  (at level 100, right associativity).

(** ** The text report aggregator ([analyze_eslint.py]) *)

Module AnalyzeText.

Open Scope re_scope.

(** [^(.+?):\s+line\s+\d+,\s+col\s+\d+,\s+(Error|Warning)\s+-] *)
Definition file_pattern : re :=
  Bol >> Grp 1 (Rep Lazy true CDot) >> `":" >> \s+ >> `"line" >> \s+ >> \d+ >>
  `"," >> \s+ >> `"col" >> \s+ >> \d+ >> `"," >> \s+ >>
  Grp 2 (`"Error" <|> `"Warning") >> \s+ >> `"-".

(** The line shape as the specification words it,
    [<path>: line <n>, col <n>, (Error|Warning) - <message>]: a blank
    stands for a run of whitespace, [<n>] for a decimal number, [<path>]
    for a non-empty text within the line and [<message>] for any text. *)
Definition all (p : ascii -> bool) (w : pystr) : Prop := forallb p w = true.

Definition report_line_shape (l path : pystr) : Prop :=
  exists ws1 ws2 n1 ws3 ws4 n2 ws5 sev ws6 message,
    l = path ++ s ":" ++ ws1 ++ s "line" ++ ws2 ++ n1 ++ s "," ++ ws3 ++
        s "col" ++ ws4 ++ n2 ++ s "," ++ ws5 ++ sev ++ ws6 ++ s "-" ++ message
    /\ path <> [] /\ all (fun c => negb (Ascii.eqb c "010")) path
    /\ ws1 <> [] /\ all isspace ws1 /\ ws2 <> [] /\ all isspace ws2
    /\ n1 <> [] /\ all isdecimal n1
    /\ ws3 <> [] /\ all isspace ws3 /\ ws4 <> [] /\ all isspace ws4
    /\ n2 <> [] /\ all isdecimal n2
    /\ ws5 <> [] /\ all isspace ws5
    /\ (sev = s "Error" \/ sev = s "Warning")
    /\ ws6 <> [] /\ all isspace ws6.

(** folder -> file -> count *)
Definition counts := Py.dict pystr (Py.dict pystr nat).

(** [folder_file_errors[folder_path][file_path] += 1] *)
Definition incr (folder_path file_path : pystr) (d : counts) : counts :=
  Py.upd pystr_eqb folder_path (Py.upd pystr_eqb file_path S 0) [] d.

(** The body of [for line in f]. *)
Definition count_line (d : counts) (line : pystr) : counts :=
  match re_match file_pattern (strip line) with
  | Some m =>
      let file_path := group 1 m in
      let folder_path := Py.dirname file_path in
      incr folder_path file_path d
  | None => d
  end.

(** The report file as the script finds it. *)
Inductive report_file : Type :=
| Missing
| Unreadable
| Lines (lines : list pystr).

Inductive line : Type :=
| T_analyzing
| T_not_found
| T_read_error
| T_no_issues
| T_heading
| T_rule80
| T_folder (short_folder : pystr) (error_count : nat)
| T_rule40
| T_file (filename : pystr) (file_error_count : nat)
| T_complete.

Definition io := Py.io line.

Definition parse_eslint_report (f : report_file) : io counts :=
  match f with
  | Missing => Py.print T_not_found ;;; Py.ret []
  | Unreadable => Py.print T_read_error ;;; Py.ret []
  | Lines lines => Py.ret (fold_left count_line lines [])
  end.

(** [folder_errors]: the total of each folder. *)
Definition folder_errors (d : counts) : list (pystr * nat) :=
  map (fun e => (fst e, Py.sum (Py.values (snd e)))) d.

(** The number of issues held by an aggregation. *)
Definition grand_total (d : counts) : nat := Py.sum (map snd (folder_errors d)).

Definition files_of (d : counts) (folder : pystr) : Py.dict pystr nat :=
  match Py.get pystr_eqb folder d with Some files => files | None => [] end.

Definition short_name (folder : pystr) : pystr :=
  match Py.basename folder with [] => folder | b => b end.

Definition show_folder (d : counts) (e : pystr * nat) : io unit :=
  Py.print (T_folder (short_name (fst e)) (snd e)) ;;;
  Py.print T_rule40 ;;;
  Py.for_each (Py.sorted_desc (files_of d (fst e)))
    (fun fe => Py.print (T_file (Py.basename (fst fe)) (snd fe))).

Definition display_sorted_results (d : counts) : io unit :=
  match d with
  | [] => Py.print T_no_issues
  | _ :: _ =>
      Py.print T_heading ;;;
      Py.print T_rule80 ;;;
      Py.for_each (Py.sorted_desc (folder_errors d)) (show_folder d)
  end.

Definition main (f : report_file) : io unit :=
  Py.print T_analyzing ;;;
  d <- parse_eslint_report f ;;
  display_sorted_results d ;;;
  Py.print T_complete.

(** Reading the printed lines back: each folder heading with its total
    and the counts of the file lines under it. *)
Definition tview_step (l : line) (acc : list (nat * list nat) * list nat)
    : list (nat * list nat) * list nat :=
  match l with
  | T_file _ c => (fst acc, c :: snd acc)
  | T_folder _ n => ((n, snd acc) :: fst acc, [])
  | _ => acc
  end.

Definition folder_blocks (out : list line) : list (nat * list nat) :=
  fst (fold_right tview_step ([], []) out).

(** Whether the aggregator counts the line. *)
Definition counted (l : pystr) : bool :=
  match re_match file_pattern (strip l) with Some _ => true | None => false end.

End AnalyzeText.

(** ** The JSON report aggregator ([scripts/analyze_eslint.py]) *)

Module AnalyzeJson.

(** The value of [message.get('ruleId', 'unknown')]: a string, or [None]
    for a JSON [null]. *)
Inductive rule_id : Type :=
| RNone
| RStr (x : pystr).

Definition rule_eqb (a b : rule_id) : bool :=
  match a, b with
  | RNone, RNone => true
  | RStr x, RStr y => pystr_eqb x y
  | _, _ => false
  end.

(** A message; [ruleId = None] when the key is absent. *)
Record message : Type := Message { ruleId : option rule_id }.

(** An entry of the report: [filePath = None] when the key is absent,
    and [messages] is empty when the key is absent or its list is
    empty. *)
Record file_report : Type := FileReport {
  filePath : option pystr;
  messages : list message
}.

Definition report := list file_report.

Definition rules := Py.dict rule_id nat.
Definition files := Py.dict pystr rules.
Definition issues := Py.dict pystr files.

(** What [parse_eslint_report] returns. *)
Record analysis : Type := Analysis {
  issues_by_dir : issues;
  rule_counts : rules;
  total_issues : nat
}.

Definition rule_of (m : message) : rule_id :=
  match ruleId m with Some r => r | None => RStr (s "unknown") end.

Definition bump (r : rule_id) (d : rules) : rules := Py.upd rule_eqb r S 0 d.

(** [issues_by_dir[directory][filename][rule_id] = count] *)
Definition store (directory filename : pystr) (d : issues) (e : rule_id * nat)
    : issues :=
  Py.upd pystr_eqb directory
    (Py.upd pystr_eqb filename (Py.set rule_eqb (fst e) (snd e)) []) [] d.

Inductive line : Type :=
| J_no_report
| J_generated
| J_not_found
| J_invalid_json
| J_title
| J_total (total : nat)
| J_dir (directory : pystr) (dir_total : nat) (dir_percent : Q)
| J_file (filename : pystr) (file_total : nat) (file_percent : Q)
| J_rule (r : rule_id) (count : nat)
| J_more (remaining : nat)
| J_blank
| J_top_title
| J_top_rule (r : rule_id) (count : nat) (rule_percent : Q)
| J_complete
| J_next (directory : pystr).

Definition io := Py.io line.

(** [(a / b) * 100]; the one-decimal rounding of the format is left out. *)
Definition percent (a b : nat) : io Q :=
  match b with
  | 0 => Py.raise Py.ZeroDivisionError
  | S _ => Py.ret (Qmult (Qmake (Z.of_nat a) (Pos.of_nat b)) (inject_Z 100))
  end.

Section Tool.

(** What [os.path.relpath] returns for a path that is not empty depends
    on the working directory, and [json.load] is the library's parser
    ([None]: [JSONDecodeError]). *)
Variable relpath : pystr -> pystr.
Variable json_load : pystr -> option report.

(** [file_report['filePath']]: a [KeyError] when the key is absent. *)
Definition get_filePath (fr : file_report) : io pystr :=
  match filePath fr with
  | None => Py.raise Py.KeyError
  | Some filepath => Py.ret filepath
  end.

(** [os.path.relpath(filepath)]: a [ValueError] for the empty path. *)
Definition os_relpath (filepath : pystr) : io pystr :=
  match filepath with
  | [] => Py.raise Py.ValueError
  | _ :: _ => Py.ret (relpath filepath)
  end.

(** The body of [for file_report in report] below the computation of
    [rel_path]. *)
Definition count_file (rel_path : pystr) (msgs : list message) (a : analysis)
    : analysis :=
  let directory := Py.dirname rel_path in
  let filename := Py.basename rel_path in
  let file_issues := fold_left (fun d m => bump (rule_of m) d) msgs [] in
  Analysis
    (fold_left (store directory filename) file_issues (issues_by_dir a))
    (fold_left (fun d m => bump (rule_of m) d) msgs (rule_counts a))
    (total_issues a + length msgs).

(** The body of [for file_report in report]. *)
Definition add_file (a : analysis) (fr : file_report) : io analysis :=
  match messages fr with
  | [] => Py.ret a
  | _ :: _ =>
      filepath <- get_filePath fr ;;
      rel_path <- os_relpath filepath ;;
      Py.ret (count_file rel_path (messages fr) a)
  end.

(** The loop of [parse_eslint_report] over the parsed report. *)
Definition aggregate (r : report) : io analysis :=
  Py.for_fold r add_file (Analysis [] [] 0).

(** [parse_eslint_report] on the content of [eslint_report.json]
    ([None]: the file does not exist). *)
Definition parse_eslint_report (f : option pystr) : io analysis :=
  match f with
  | None => Py.print J_not_found ;;; Py.raise (Py.SystemExit 1)
  | Some text =>
      match json_load text with
      | None => Py.print J_invalid_json ;;; Py.raise (Py.SystemExit 1)
      | Some r => aggregate r
      end
  end.

Definition rules_total (r : rules) : nat := Py.sum (Py.values r).
Definition files_total (f : files) : nat := Py.sum (map rules_total (Py.values f)).

Definition dir_totals (d : issues) : list (pystr * nat) :=
  map (fun e => (fst e, files_total (snd e))) d.

Definition file_totals (f : files) : list (pystr * nat) :=
  map (fun e => (fst e, rules_total (snd e))) f.

Definition lookup {V} (k : pystr) (d : Py.dict pystr V) (dflt : V) : V :=
  match Py.get pystr_eqb k d with Some v => v | None => dflt end.

Definition show_file (fs : files) (dir_total : nat) (e : pystr * nat) : io unit :=
  file_percent <- percent (snd e) dir_total ;;
  Py.print (J_file (fst e) (snd e) file_percent) ;;;
  let sorted_rules := Py.sorted_desc (lookup (fst e) fs []) in
  Py.for_each (firstn 5 sorted_rules)
    (fun rc => Py.print (J_rule (fst rc) (snd rc))) ;;;
  if 5 <? length sorted_rules
  then Py.print (J_more (length sorted_rules - 5))
  else Py.ret tt.

Definition show_dir (a : analysis) (e : pystr * nat) : io unit :=
  dir_percent <- percent (snd e) (total_issues a) ;;
  Py.print (J_dir (fst e) (snd e) dir_percent) ;;;
  let fs := lookup (fst e) (issues_by_dir a) [] in
  Py.for_each (Py.sorted_desc (file_totals fs)) (show_file fs (snd e)) ;;;
  Py.print J_blank.

Definition show_top_rule (a : analysis) (rc : rule_id * nat) : io unit :=
  rule_percent <- percent (snd rc) (total_issues a) ;;
  Py.print (J_top_rule (fst rc) (snd rc) rule_percent).

Definition display_analysis (a : analysis) : io unit :=
  Py.print J_title ;;;
  Py.print (J_total (total_issues a)) ;;;
  Py.for_each (Py.sorted_desc (dir_totals (issues_by_dir a))) (show_dir a) ;;;
  Py.print J_top_title ;;;
  Py.for_each (firstn 10 (Py.sorted_desc (rule_counts a))) (show_top_rule a).

(** [generate_eslint_report]: when the report is missing the shell
    command is run; [shell] is the report file as the command leaves it. *)
Definition generate_eslint_report (f shell : option pystr)
    : io (option pystr) :=
  match f with
  | Some _ => Py.ret f
  | None => Py.print J_no_report ;;; Py.print J_generated ;;; Py.ret shell
  end.

(** [list(issues_by_dir.keys())[0]] *)
Definition first_key (d : issues) : io pystr :=
  match Py.keys d with
  | [] => Py.raise Py.IndexError
  | k :: _ => Py.ret k
  end.

Definition main (f shell : option pystr) : io unit :=
  f' <- generate_eslint_report f shell ;;
  a <- parse_eslint_report f' ;;
  display_analysis a ;;;
  Py.print J_complete ;;;
  k <- first_key (issues_by_dir a) ;;
  Py.print (J_next k).

End Tool.

(** Reading the printed lines back: per directory its name, its total
    and its file blocks; per file its name, its total, the rule lines
    under it and the count of the "more rule types" line, if any. *)
Record file_block : Type := FileBlock {
  fb_name : pystr;
  fb_total : nat;
  fb_rules : list (rule_id * nat);
  fb_more : option nat
}.

Record dir_block : Type := DirBlock {
  db_name : pystr;
  db_total : nat;
  db_files : list file_block
}.

Record view : Type := View {
  v_dirs : list dir_block;
  v_files : list file_block;
  v_rules : list (rule_id * nat);
  v_more : option nat
}.

Definition view_step (l : line) (v : view) : view :=
  match l with
  | J_more k => View (v_dirs v) (v_files v) (v_rules v) (Some k)
  | J_rule r c => View (v_dirs v) (v_files v) ((r, c) :: v_rules v) (v_more v)
  | J_file f n _ =>
      View (v_dirs v) (FileBlock f n (v_rules v) (v_more v) :: v_files v) [] None
  | J_dir d n _ => View (DirBlock d n (v_files v) :: v_dirs v) [] [] None
  | _ => v
  end.

Definition dir_blocks (out : list line) : list dir_block :=
  v_dirs (fold_right view_step (View [] [] [] None) out).

(** The number of the "Total Issues" line. *)
Fixpoint displayed_total (out : list line) : option nat :=
  match out with
  | [] => None
  | J_total n :: _ => Some n
  | _ :: out' => displayed_total out'
  end.

Definition has_messages (fr : file_report) : bool :=
  match messages fr with [] => false | _ :: _ => true end.

(** The entry has a path, and it is not the empty string. *)
Definition has_path (fr : file_report) : bool :=
  match filePath fr with
  | Some (_ :: _) => true
  | _ => false
  end.

(** Every entry that carries messages names its file. *)
Definition paths_given (r : report) : Prop :=
  Forall (fun fr => has_messages fr = true -> has_path fr = true) r.

(** The path of an entry that has one. *)
Definition path_of (fr : file_report) : pystr :=
  match filePath fr with Some filepath => filepath | None => [] end.

(** The directory and the file name under which an entry is stored. *)
Definition file_key (relpath : pystr -> pystr) (fr : file_report)
    : pystr * pystr :=
  (Py.dirname (relpath (path_of fr)), Py.basename (relpath (path_of fr))).

(** A well-formed report names each file once: the entries that carry
    messages have a path, and their (directory, file name) keys are
    pairwise distinct. *)
Definition well_formed (relpath : pystr -> pystr) (r : report) : Prop :=
  paths_given r
  /\ NoDup (map (file_key relpath) (filter has_messages r)).

End AnalyzeJson.

(** ** The linter's JSON output as the fixers read it *)

Module Lint.

(** A message; a field is [None] when its key is absent. *)
Record lint_message : Type := LintMessage {
  ruleId : option AnalyzeJson.rule_id;
  message : option pystr;
  line : option Z;
  column : option Z
}.

(** An entry of the report; [messages] is empty when the key is absent. *)
Record file_result : Type := FileResult {
  filePath : option pystr;
  messages : list lint_message
}.

(** [d.get(key, dflt)] *)
Definition get {A : Type} (v : option A) (dflt : A) : A :=
  match v with Some a => a | None => dflt end.

(** [message.get('ruleId') == rule] *)
Definition rule_is (rule : pystr) (m : lint_message) : bool :=
  match ruleId m with
  | Some (AnalyzeJson.RStr x) => pystr_eqb x rule
  | _ => false
  end.

Definition no_unused_vars : pystr := s "@typescript-eslint/no-unused-vars".

End Lint.

(** [pattern.search(text)] as a match object: the match at the leftmost
    position that has one. *)
Module ReSearch.

Fixpoint search_match_from (r : re) (sn rs : pystr) : option mstate :=
  match match_at r sn rs with
  | Some m => Some m
  | None =>
      match rs with
      | [] => None
      | c :: rs' => search_match_from r (c :: sn) rs'
      end
  end.

Definition search_match (r : re) (text : pystr) : option mstate :=
  search_match_from r [] text.

End ReSearch.

(** ** How [fix_unused_vars] of [scripts/fix_eslint_issues.py] finds its
    names *)

Module FixEslintUnused.

Open Scope re_scope.

(** ['(\w+)' is defined but never used] *)
Definition unused_pattern : re :=
  `"'" >> Grp 1 \w+ >> `"' is defined but never used".

(** The body of [for message in file_report['messages']]. *)
Definition add_message (unused_vars : list (pystr * Z * Z))
    (m : Lint.lint_message) : list (pystr * Z * Z) :=
  if Lint.rule_is Lint.no_unused_vars m then
    match ReSearch.search_match unused_pattern (Lint.get (Lint.message m) []) with
    | Some var_match =>
        let var_name := group 1 var_match in
        let line := Lint.get (Lint.line m) 0%Z in
        let column := Lint.get (Lint.column m) 0%Z in
        unused_vars ++ [(var_name, line, column)]
    | None => unused_vars
    end
  else unused_vars.

(** The body of [for file_report in report]. *)
Definition add_report (unused_vars : list (pystr * Z * Z))
    (file_report : Lint.file_result) : list (pystr * Z * Z) :=
  match Lint.messages file_report with
  | [] => unused_vars
  | msgs => fold_left add_message msgs unused_vars
  end.

Definition extract_unused_vars (report : list Lint.file_result)
    : list (pystr * Z * Z) :=
  fold_left add_report report [].

(** [fix_unused_vars(file_path)] on the linter's report for the file
    ([None]: its output is not valid JSON) and the lines of the file:
    the lines written back, if any, and the number of fixes returned. *)
Definition fix_unused_vars (report : option (list Lint.file_result))
    (lines : list pystr) : option (list pystr) * nat :=
  match report with
  | None => (None, 0)
  | Some [] => (None, 0)
  | Some report =>
      match extract_unused_vars report with
      | [] => (None, 0)
      | unused_vars =>
          let (new_lines, fixes) :=
            FixEslintIssues.fix_unused_vars lines unused_vars in
          if 0 <? fixes then (Some new_lines, fixes) else (None, fixes)
      end
  end.

End FixEslintUnused.

(** ** How [scripts/fix_all_unused_vars.py] finds and groups its names *)

Module FixAllUnusedIssues.

(** [text.split(c)] for a separator of one character. *)
Fixpoint split (c : ascii) (text : pystr) : list pystr :=
  match text with
  | [] => [[]]
  | x :: text' =>
      if Ascii.eqb x c then [] :: split c text'
      else match split c text' with
           | piece :: pieces => (x :: piece) :: pieces
           | [] => [[x]]
           end
  end.

(** [l[i]]; [None] is an [IndexError]. *)
Definition item (l : list pystr) (i : nat) : option pystr := nth_error l i.

(** [msg.split("'")[1] if "'" in msg else ''] *)
Definition variable_of (msg : pystr) : option pystr :=
  if contains (s "'") msg then item (split "'" msg) 1 else Some [].

Record issue : Type := Issue {
  file : pystr;
  line : Z;
  column : Z;
  variable : pystr
}.

(** The body of [for message in file_result.get('messages', [])];
    [None] is an uncaught [IndexError]. *)
Definition add_message (file_path : pystr) (issues : option (list issue))
    (m : Lint.lint_message) : option (list issue) :=
  match issues with
  | None => None
  | Some l =>
      if Lint.rule_is Lint.no_unused_vars m then
        match variable_of (Lint.get (Lint.message m) []) with
        | None => None
        | Some [] => Some l
        | Some variable =>
            Some (l ++ [Issue file_path (Lint.get (Lint.line m) 0%Z)
                          (Lint.get (Lint.column m) 0%Z) variable])
        end
      else Some l
  end.

(** The body of [for file_result in eslint_output]. *)
Definition add_result (issues : option (list issue))
    (file_result : Lint.file_result) : option (list issue) :=
  fold_left (add_message (Lint.get (Lint.filePath file_result) []))
            (Lint.messages file_result) issues.

(** [get_eslint_issues] on the parsed output of the linter ([None]: the
    output is not valid JSON, and the empty list is returned). *)
Definition get_eslint_issues (eslint_output : option (list Lint.file_result))
    : option (list issue) :=
  match eslint_output with
  | None => Some []
  | Some results => fold_left add_result results (Some [])
  end.

(** [issues_by_file[file_path].append(issue['variable'])], with the list
    created empty for a new file. *)
Definition group_issue (issues_by_file : Py.dict pystr (list pystr))
    (i : issue) : Py.dict pystr (list pystr) :=
  Py.upd pystr_eqb (file i) (fun variables => variables ++ [variable i]) []
    issues_by_file.

Definition group_by_file (issues : list issue) : Py.dict pystr (list pystr) :=
  fold_left group_issue issues [].

End FixAllUnusedIssues.

(** ** The run of [fix_unused_vars] of [scripts/fix_all_unused_vars.py]
    over the files *)

Module FixAllUnusedRun.

Inductive line : Type :=
| U_fixed (variable file_path : pystr).   (* Fixed unused variable '..' in .. *)

(** The files that exist, each with the characters it holds; they are
    regular files of text that can be read and written. *)
Definition disk := Py.dict pystr pystr.

(** [f.read()] of a file opened with [open(path, 'r')]: in text mode the
    line ends "\r\n" and "\r" are read as "\n". *)
Fixpoint read_text (stored : pystr) : pystr :=
  match stored with
  | [] => []
  | c :: rest =>
      if Ascii.eqb c "013" then
        match rest with
        | d :: rest' =>
            if Ascii.eqb d "010" then "010"%char :: read_text rest'
            else "010"%char :: read_text rest
        | [] => ["010"%char]
        end
      else c :: read_text rest
  end.

(** [f.write(text)] of a file opened with [open(path, 'w')]: what the
    file holds afterwards.  In text mode "\n" is written as
    [os.linesep], which is "\n" where [os.path] is [posixpath]. *)
Definition write_text (text : pystr) : pystr := text.

(** [files_modified.add(file_path)] *)
Definition set_add (x : pystr) (l : list pystr) : list pystr :=
  if existsb (pystr_eqb x) l then l else l ++ [x].

(** The body of [for variable in variables], on [modified_content],
    [file_modified] and what has been printed. *)
Definition var_step (file_path content : pystr)
    (st : pystr * bool * list line) (variable : pystr)
    : pystr * bool * list line :=
  let '(modified_content, file_modified, out) := st in
  if contains (s "_" ++ variable) modified_content then st
  else
    let modified_content :=
      FixAllUnusedVars.apply_patterns (FixAllUnusedVars.patterns variable)
        modified_content in
    if pystr_eqb modified_content content
    then (modified_content, file_modified, out)
    else (modified_content, true, out ++ [U_fixed variable file_path]).

(** The body of [for file_path, variables in issues_by_file.items()]. *)
Definition file_step (st : disk * list pystr * list line)
    (e : pystr * list pystr) : disk * list pystr * list line :=
  let '(files, files_modified, out) := st in
  let (file_path, variables) := e in
  match Py.get pystr_eqb file_path files with
  | None => st
  | Some stored =>
      let content := read_text stored in
      let '(modified_content, file_modified, printed) :=
        fold_left (var_step file_path content) variables (content, false, []) in
      if file_modified
      then (Py.set pystr_eqb file_path (write_text modified_content) files,
            set_add file_path files_modified, out ++ printed)
      else (files, files_modified, out ++ printed)
  end.

(** [fix_unused_vars(issues)]: the files afterwards, [files_modified]
    and what was printed. *)
Definition fix_unused_vars (issues : list FixAllUnusedIssues.issue)
    (files : disk) : disk * list pystr * list line :=
  fold_left file_step (FixAllUnusedIssues.group_by_file issues) (files, [], []).

End FixAllUnusedRun.

(** ** The run of [fix_any_types] of [scripts/fix_any_types.py] over the
    files *)

Module FixAnyTypesRun.

Inductive line : Type :=
| A_fixed (file_path : pystr).   (* Fixed 'any' types in .. *)

(** [file.endswith(suffix)] *)
Definition endswith (suffix l : pystr) : bool :=
  startswith (rev suffix) (rev l).

(** [os.path.join(a, b)] of [posixpath]. *)
Definition join (a b : pystr) : pystr :=
  if startswith (s "/") b then b
  else match a with
       | [] => b
       | _ :: _ => if endswith (s "/") a then a ++ b else a ++ s "/" ++ b
       end.

(** The body of [for file in files], on the files that exist,
    [files_modified] and what has been printed; [None] is the exception
    raised by [open] on a file that is not there. *)
Definition file_step (root : pystr)
    (st : option (FixAllUnusedRun.disk * list pystr * list line))
    (file : pystr) : option (FixAllUnusedRun.disk * list pystr * list line) :=
  match st with
  | None => None
  | Some (files, files_modified, out) =>
      if endswith (s ".ts") file then
        let file_path := join root file in
        match Py.get pystr_eqb file_path files with
        | None => None
        | Some stored =>
            let content := FixAllUnusedRun.read_text stored in
            let (modified_content, file_modified) :=
              FixAnyTypes.fix_content content in
            if file_modified
            then Some (Py.set pystr_eqb file_path
                         (FixAllUnusedRun.write_text modified_content) files,
                       FixAllUnusedRun.set_add file_path files_modified,
                       out ++ [A_fixed file_path])
            else st
        end
      else st
  end.

(** The body of [for root, _, files in os.walk(...)]. *)
Definition dir_step
    (st : option (FixAllUnusedRun.disk * list pystr * list line))
    (e : pystr * list pystr)
    : option (FixAllUnusedRun.disk * list pystr * list line) :=
  fold_left (file_step (fst e)) (snd e) st.

(** [fix_any_types()] on what [os.walk] yields: each directory with the
    names of its files. *)
Definition fix_any_types (walk : list (pystr * list pystr))
    (files : FixAllUnusedRun.disk)
    : option (FixAllUnusedRun.disk * list pystr * list line) :=
  fold_left dir_step walk (Some (files, [], [])).

End FixAnyTypesRun.

(** ** Theorems *)

(** C7: on [const unused = 5;] with flagged identifier [unused] the
    declaration-pattern rewriter yields [const _unused = 5;]; run again on
    that result with the same identifier it changes nothing, and it does
    so through the already-prefixed test, [_unused] occurring in it. *)
Theorem C7_const_unused_rewrite_then_noop :
  FixAllUnusedVars.fix_unused_vars (s "const unused = 5;") [s "unused"]
    = s "const _unused = 5;"
  /\ contains (s "_" ++ s "unused") (s "const _unused = 5;") = true
  /\ FixAllUnusedVars.fix_unused_vars (s "const _unused = 5;") [s "unused"]
    = s "const _unused = 5;".
Proof.
  repeat split; vm_compute; reflexivity.
Qed.

(** *** The location-pattern rewriter *)

Section LocationPattern.

Import FixEslintIssues.

Lemma getitem_nonneg (l : pystr) (i : Z) :
  (0 <= i < Z.of_nat (length l))%Z -> getitem l i = nth_error l (Z.to_nat i).
Proof.
  intros H. unfold getitem.
  replace (0 <=? i)%Z with true by (symmetry; apply Z.leb_le; lia).
  replace (i <? Z.of_nat (length l))%Z with true by (symmetry; apply Z.ltb_lt; lia).
  reflexivity.
Qed.

(** A flagged name that sits at its column, away from the start of the
    line, between two characters that are neither alphanumeric nor an
    underscore, gets one underscore at that column; the other lines and
    the rest of the line are kept. *)
Lemma fix_one_inserts_inside
    (lines : list pystr) (fixes : nat) (var_name line : pystr)
    (line_num col_num : Z) :
  startswith (s "_") var_name = false ->
  (1 <= line_num <= Z.of_nat (length lines))%Z ->
  nth (Z.to_nat (line_num - 1)) lines [] = line ->
  (1 < col_num <= Z.of_nat (length line))%Z ->
  slice line (Z.to_nat (col_num - 1))
        (Z.to_nat (col_num - 1) + length var_name) = var_name ->
  ident_char (getitem line (col_num - 2)) = false ->
  ident_char (getitem line (col_num - 1 + Z.of_nat (length var_name))) = false ->
  fix_one (lines, fixes) (var_name, line_num, col_num)
  = (set_nth (Z.to_nat (line_num - 1))
       (firstn (Z.to_nat (col_num - 1)) line ++ s "_"
          ++ skipn (Z.to_nat (col_num - 1)) line) lines,
     S fixes).
Proof.
  intros Hus Hln Hline Hcol Hslice Hprev Hnext.
  unfold fix_one. rewrite Hus.
  replace (line_num <=? 0)%Z with false by (symmetry; apply Z.leb_gt; lia).
  replace (Z.of_nat (length lines) <? line_num)%Z with false
    by (symmetry; apply Z.ltb_ge; lia).
  cbn [orb]. rewrite Hline.
  replace (0 <=? col_num - 1)%Z with true by (symmetry; apply Z.leb_le; lia).
  replace (col_num - 1 <? Z.of_nat (length line))%Z with true
    by (symmetry; apply Z.ltb_lt; lia).
  cbn [andb]. rewrite Hslice.
  replace (pystr_eqb var_name var_name) with true
    by (symmetry; apply pystr_eqb_eq; reflexivity).
  unfold is_standalone.
  replace (col_num - 1 - 1)%Z with (col_num - 2)%Z by lia.
  rewrite Hnext, andb_false_r.
  unfold ident_char in Hprev. unfold alnum_char, underscore_char.
  destruct (getitem line (col_num - 2)) as [c|].
  - apply orb_false_iff in Hprev. destruct Hprev as [-> ->].
    rewrite andb_false_r. reflexivity.
  - rewrite andb_false_r. reflexivity.
Qed.

(** A name that continues a longer identifier on its left, or is
    continued by one on its right, is left alone. *)
Lemma fix_one_keeps_longer_identifier
    (lines : list pystr) (fixes : nat) (var_name : pystr) (line_num col_num : Z) :
  let line := nth (Z.to_nat (line_num - 1)) lines [] in
  (1 < col_num /\ ident_char (getitem line (col_num - 2)) = true)%Z
  \/ ((col_num - 1 + Z.of_nat (length var_name) < Z.of_nat (length line))%Z
      /\ ident_char (getitem line (col_num - 1 + Z.of_nat (length var_name))) = true) ->
  fix_one (lines, fixes) (var_name, line_num, col_num) = (lines, fixes).
Proof.
  intros line H. unfold fix_one.
  destruct (startswith (s "_") var_name); [reflexivity|].
  destruct ((line_num <=? 0)%Z || (Z.of_nat (length lines) <? line_num)%Z);
    [reflexivity|].
  fold line.
  destruct ((0 <=? col_num - 1)%Z && (col_num - 1 <? Z.of_nat (length line))%Z);
    [|reflexivity].
  destruct (pystr_eqb _ var_name); [|reflexivity].
  assert (Hs : is_standalone line var_name (col_num - 1) = false).
  { unfold is_standalone.
    replace (col_num - 1 - 1)%Z with (col_num - 2)%Z by lia.
    destruct H as [[Hc Hp] | [Hc Hn]].
    - replace (0 <? col_num - 1)%Z with true by (symmetry; apply Z.ltb_lt; lia).
      unfold ident_char in Hp. unfold alnum_char, underscore_char.
      destruct (getitem line (col_num - 2)); [|discriminate].
      cbn [andb]. rewrite Hp. reflexivity.
    - rewrite Hn.
      replace (col_num - 1 + Z.of_nat (length var_name) <? Z.of_nat (length line))%Z
        with true by (symmetry; apply Z.ltb_lt; lia).
      cbn [andb negb]. apply andb_false_r. }
  rewrite Hs. reflexivity.
Qed.

End LocationPattern.

(** C5 (the code departs from the claim): a flagged name at column 1 of
    a line whose last character is an underscore is a standalone token,
    yet the rewriter leaves the line as it is, because the test on the
    left neighbour reads [line[-1]] there; and of two flagged names on one
    line the second is looked up at its reported column after the first
    insertion has shifted it, so it is not rewritten either. *)
Theorem C5_location_rewrite_misses_standalone :
  FixEslintIssues.fix_unused_vars [s "unused => used_"] [(s "unused", 1%Z, 1%Z)]
    = ([s "unused => used_"], 0)
  /\ FixEslintIssues.fix_unused_vars [s "unused => used"] [(s "unused", 1%Z, 1%Z)]
    = ([s "_unused => used"], 1)
  /\ FixEslintIssues.fix_unused_vars [s "function f(a, b) {}"]
       [(s "a", 1%Z, 12%Z); (s "b", 1%Z, 15%Z)]
    = ([s "function f(_a, b) {}"], 1).
Proof.
  repeat split; vm_compute; reflexivity.
Qed.

(** *** The loop of [parse_eslint_report] on a report whose paths are read *)

Module JsonLoop.

Import AnalyzeJson.

Section Loop.

Variable relpath : pystr -> pystr.

(** What an entry adds once its path is read. *)
Definition step (a : analysis) (fr : file_report) : analysis :=
  match messages fr with
  | [] => a
  | _ :: _ => count_file (relpath (path_of fr)) (messages fr) a
  end.

Definition run (r : report) : analysis :=
  fold_left step r (Analysis [] [] 0).

Lemma add_file_step (a : analysis) (fr : file_report) :
  (has_messages fr = true -> has_path fr = true) ->
  add_file relpath a fr = ([], Py.Ok (step a fr)).
Proof.
  unfold add_file, step, has_messages, has_path, get_filePath, path_of.
  destruct (messages fr) as [|m ms]; [reflexivity|].
  intros H. specialize (H eq_refl).
  destruct (filePath fr) as [[|c p]|]; try discriminate H. reflexivity.
Qed.

(** An entry with messages whose path is absent or empty ends the loop:
    nothing is printed, and the exception is the [KeyError] of the
    subscript or the [ValueError] of [os.path.relpath]. *)
Definition path_error (fr : file_report) : Py.exn :=
  match filePath fr with
  | None => Py.KeyError
  | Some _ => Py.ValueError
  end.

Lemma add_file_raises (a : analysis) (fr : file_report) :
  has_messages fr = true -> has_path fr = false ->
  add_file relpath a fr = ([], Py.Raise (path_error fr)).
Proof.
  unfold add_file, has_messages, has_path, get_filePath, path_error.
  destruct (messages fr) as [|m ms]; [discriminate|].
  intros _ H.
  destruct (filePath fr) as [[|c p]|]; try discriminate H; reflexivity.
Qed.

Lemma for_fold_steps (r : report) : forall a : analysis,
  paths_given r ->
  Py.for_fold r (add_file relpath) a = ([], Py.Ok (fold_left step r a)).
Proof.
  induction r as [|fr r IH]; intros a H; cbn [Py.for_fold fold_left];
    [reflexivity|].
  inversion H as [|? ? Hfr Hr]. subst.
  rewrite (@add_file_step a fr Hfr). cbn [Py.bind].
  rewrite (IH _ Hr). reflexivity.
Qed.

Lemma aggregate_run (r : report) :
  paths_given r -> aggregate relpath r = ([], Py.Ok (run r)).
Proof. intros H. apply for_fold_steps. exact H. Qed.

(** The first entry that stops the loop, if any. *)
Definition unreadable (fr : file_report) : bool :=
  has_messages fr && negb (has_path fr).

Lemma paths_given_iff (r : report) :
  paths_given r <-> find unreadable r = None.
Proof.
  unfold paths_given, unreadable.
  induction r as [|fr r IH]; cbn [find]; [split; [reflexivity|constructor]|].
  split.
  - intros H. inversion H as [|? ? Hfr Hr]. subst.
    destruct (has_messages fr) eqn:Hm; cbn [andb].
    + rewrite (Hfr eq_refl). cbn [negb]. apply IH. exact Hr.
    + apply IH. exact Hr.
  - destruct (has_messages fr) eqn:Hm; cbn [andb].
    + destruct (has_path fr) eqn:Hp; cbn [negb]; [|discriminate].
      intros H. constructor; [intros _; exact Hp|]. apply IH. exact H.
    + intros H. constructor; [congruence|]. apply IH. exact H.
Qed.

Lemma for_fold_raises (r : report) (fr : file_report) : forall a : analysis,
  find unreadable r = Some fr ->
  Py.for_fold r (add_file relpath) a = ([], Py.Raise (path_error fr)).
Proof.
  induction r as [|fr0 r IH]; intros a H; cbn [find] in H; [discriminate|].
  cbn [Py.for_fold].
  destruct (unreadable fr0) eqn:E.
  - injection H as ->. unfold unreadable in E.
    apply andb_true_iff in E. destruct E as [Hm Hp].
    apply negb_true_iff in Hp.
    rewrite (@add_file_raises a _ Hm Hp). reflexivity.
  - rewrite add_file_step.
    + cbn [Py.bind]. rewrite (IH _ H). reflexivity.
    + intros Hm. unfold unreadable in E. rewrite Hm in E. cbn [andb] in E.
      apply negb_false_iff in E. exact E.
Qed.

Lemma aggregate_raises (r : report) (fr : file_report) :
  find unreadable r = Some fr ->
  aggregate relpath r = ([], Py.Raise (path_error fr)).
Proof. intros H. apply for_fold_raises. exact H. Qed.

End Loop.

End JsonLoop.

(** *** Reports without messages, and missing or malformed reports *)

Section JsonFailures.

Import AnalyzeJson.

Variable relpath : pystr -> pystr.
Variable json_load : pystr -> option report.

Lemma add_file_no_messages (a : analysis) (fr : file_report) :
  messages fr = [] -> JsonLoop.step relpath a fr = a.
Proof. intros H. unfold JsonLoop.step. rewrite H. reflexivity. Qed.

Lemma aggregate_no_messages (r : report) (a : analysis) :
  Forall (fun fr => messages fr = []) r ->
  fold_left (JsonLoop.step relpath) r a = a.
Proof.
  induction 1 as [|fr r Hfr _ IH]; cbn [fold_left]; [reflexivity|].
  rewrite add_file_no_messages by assumption. exact IH.
Qed.

End JsonFailures.

(** C9 (the code departs from the claim): on a JSON report all of whose
    message lists are empty the aggregation is empty with total 0 and the
    display prints "Total Issues: 0" without computing any percentage, so
    nothing divides by zero; but [main] then indexes the first key of the
    empty aggregation and ends with an uncaught [IndexError], exit
    status 1, instead of terminating normally. *)
Theorem C9_empty_report_total_zero_then_index_error
    (relpath : pystr -> pystr)
    (json_load : pystr -> option AnalyzeJson.report)
    (text : pystr) (shell : option pystr) (r : AnalyzeJson.report) :
  json_load text = Some r ->
  Forall (fun fr => AnalyzeJson.messages fr = []) r ->
  let a := AnalyzeJson.Analysis [] [] 0 in
  AnalyzeJson.aggregate relpath r = ([], Py.Ok a)
  /\ AnalyzeJson.parse_eslint_report relpath json_load (Some text)
     = ([], Py.Ok a)
  /\ AnalyzeJson.display_analysis a
     = ([AnalyzeJson.J_title; AnalyzeJson.J_total 0; AnalyzeJson.J_top_title],
        Py.Ok tt)
  /\ AnalyzeJson.main relpath json_load (Some text) shell
     = ([AnalyzeJson.J_title; AnalyzeJson.J_total 0; AnalyzeJson.J_top_title;
         AnalyzeJson.J_complete],
        Py.Raise Py.IndexError)
  /\ Py.exit_status (AnalyzeJson.main relpath json_load (Some text) shell) = 1.
Proof.
  intros Hload Hempty a.
  assert (Hagg : AnalyzeJson.aggregate relpath r = ([], Py.Ok a)).
  { rewrite JsonLoop.aggregate_run.
    - unfold JsonLoop.run. rewrite aggregate_no_messages by exact Hempty.
      reflexivity.
    - unfold AnalyzeJson.paths_given. eapply Forall_impl; [|exact Hempty].
      intros fr Hfr Hm. unfold AnalyzeJson.has_messages in Hm.
      cbv beta in Hfr. rewrite Hfr in Hm. discriminate Hm. }
  assert (Hparse : AnalyzeJson.parse_eslint_report relpath json_load (Some text)
                   = ([], Py.Ok a)).
  { unfold AnalyzeJson.parse_eslint_report. rewrite Hload. exact Hagg. }
  assert (Hmain : AnalyzeJson.main relpath json_load (Some text) shell
     = ([AnalyzeJson.J_title; AnalyzeJson.J_total 0; AnalyzeJson.J_top_title;
         AnalyzeJson.J_complete],
        Py.Raise Py.IndexError)).
  { unfold AnalyzeJson.main, AnalyzeJson.generate_eslint_report.
    cbn [Py.bind Py.ret]. rewrite Hparse. reflexivity. }
  repeat split.
  - exact Hagg.
  - exact Hparse.
  - exact Hmain.
  - rewrite Hmain. reflexivity.
Qed.

Lemma C9_empty_report_witness :
  let json_load := fun _ : pystr =>
    Some [AnalyzeJson.FileReport (Some (s "/repo/src/a.ts")) []] in
  Py.exit_status
    (AnalyzeJson.main (fun p => p) json_load (Some (s "[...]")) None) = 1.
Proof.
  intros json_load.
  apply (@C9_empty_report_total_zero_then_index_error (fun p => p) json_load
           (s "[...]") None [AnalyzeJson.FileReport (Some (s "/repo/src/a.ts")) []]).
  - reflexivity.
  - repeat constructor.
Defined.

(** C2 as the code has it: a missing text report makes the text
    aggregator print an error, return the empty aggregation and end with
    status 0; the JSON aggregator's [parse_eslint_report] exits with
    status 1 when the report is missing at that point, and the JSON
    aggregator exits with status 1 when the report exists but is not
    valid JSON. *)
Theorem C2_missing_text_report_nonfatal_json_failures_fatal
    (relpath : pystr -> pystr)
    (json_load : pystr -> option AnalyzeJson.report)
    (text : pystr) (shell : option pystr) :
  json_load text = None ->
  AnalyzeText.parse_eslint_report AnalyzeText.Missing
    = ([AnalyzeText.T_not_found], Py.Ok [])
  /\ Py.exit_status (AnalyzeText.main AnalyzeText.Missing) = 0
  /\ AnalyzeJson.parse_eslint_report relpath json_load None
    = ([AnalyzeJson.J_not_found], Py.Raise (Py.SystemExit 1))
  /\ AnalyzeJson.main relpath json_load (Some text) shell
    = ([AnalyzeJson.J_invalid_json], Py.Raise (Py.SystemExit 1))
  /\ Py.exit_status (AnalyzeJson.main relpath json_load (Some text) shell) = 1.
Proof.
  intros Hload.
  assert (Hmain : AnalyzeJson.main relpath json_load (Some text) shell
    = ([AnalyzeJson.J_invalid_json], Py.Raise (Py.SystemExit 1))).
  { unfold AnalyzeJson.main, AnalyzeJson.generate_eslint_report,
      AnalyzeJson.parse_eslint_report.
    cbn [Py.bind Py.ret]. rewrite Hload. reflexivity. }
  repeat split; try reflexivity.
  - exact Hmain.
  - rewrite Hmain. reflexivity.
Qed.

Lemma C2_failures_witness :
  Py.exit_status
    (AnalyzeJson.main (fun p => p) (fun _ => None) (Some (s "{")) None) = 1.
Proof.
  apply (C2_missing_text_report_nonfatal_json_failures_fatal
           (fun p => p) (fun _ => None) (s "{") None).
  reflexivity.
Defined.

(** C2 as stated fails for the JSON aggregator: with the report file
    missing, its parser prints the error and exits with status 1 rather
    than returning an empty aggregation; so does the whole run when the
    shell command leaves no report behind. *)
Lemma C2_json_missing_report_is_fatal :
  (forall a, AnalyzeJson.parse_eslint_report (fun p => p) (fun _ => Some []) None
             <> ([AnalyzeJson.J_not_found], Py.Ok a))
  /\ Py.exit_status
       (AnalyzeJson.parse_eslint_report (fun p => p) (fun _ => Some []) None) = 1
  /\ Py.exit_status
       (AnalyzeJson.main (fun p => p) (fun _ => Some []) None None) = 1.
Proof.
  repeat split; try reflexivity. intros a H. discriminate H.
Qed.

(** *** The matcher and its specification *)

Module ReFacts.

Import ReSem.

Lemma strip_prefix_app (l rs : pystr) : strip_prefix l (l ++ rs) = Some rs.
Proof.
  induction l as [|a l IH]; cbn; [reflexivity|].
  rewrite Ascii.eqb_refl. exact IH.
Qed.

Lemma strip_prefix_inv (l t rs : pystr) :
  strip_prefix l t = Some rs -> t = l ++ rs.
Proof.
  revert t. induction l as [|a l IH]; intros t H; cbn in H.
  - injection H as ->. reflexivity.
  - destruct t as [|b t]; [discriminate|].
    destruct (Ascii.eqb a b) eqn:E; [|discriminate].
    apply Ascii.eqb_eq in E. subst b. cbn. f_equal. apply IH. exact H.
Qed.

Section Cont.

Variable A : Type.

Lemma orelse_none (x y : option A) :
  orelse x y = None <-> x = None /\ y = None.
Proof.
  destruct x; cbn; split; intros H; try discriminate; try tauto.
Qed.

Lemma orelse_some (x y : option A) (a : A) :
  orelse x y = Some a -> x = Some a \/ y = Some a.
Proof. destruct x; cbn; auto. Qed.

Lemma rep_greedy_none k rs : forall sn (cont : pystr -> pystr -> option A),
  rep_greedy k sn rs cont = None ->
  forall w rs', rs = w ++ rs' -> forallb (cmem k) w = true ->
                cont (rev w ++ sn) rs' = None.
Proof.
  induction rs as [|c rs IH]; intros sn cont H w rs' E Hw.
  - destruct w; [|discriminate]. cbn in E. subst rs'. exact H.
  - cbn in H. destruct w as [|d w].
    + cbn in E. subst rs'. cbn.
      destruct (cmem k c); [apply orelse_none in H; tauto | exact H].
    + cbn in E. injection E as <- ->. cbn in Hw.
      apply andb_true_iff in Hw. destruct Hw as [Hc Hw].
      rewrite Hc in H. apply orelse_none in H. destruct H as [H _].
      cbn. rewrite <- app_assoc. cbn. eapply IH; eauto.
Qed.

Lemma rep_greedy_some k rs : forall sn (cont : pystr -> pystr -> option A) a,
  rep_greedy k sn rs cont = Some a ->
  exists w rs', rs = w ++ rs' /\ forallb (cmem k) w = true
                /\ cont (rev w ++ sn) rs' = Some a.
Proof.
  induction rs as [|c rs IH]; intros sn cont a H.
  - exists [], []. auto.
  - cbn in H. destruct (cmem k c) eqn:Hc.
    + apply orelse_some in H. destruct H as [H|H].
      * apply IH in H. destruct H as (w & rs' & -> & Hw & H).
        exists (c :: w), rs'. cbn. rewrite Hc, Hw, <- app_assoc. auto.
      * exists [], (c :: rs). auto.
    + exists [], (c :: rs). auto.
Qed.

Lemma rep_lazy_none k rs : forall sn (cont : pystr -> pystr -> option A),
  rep_lazy k sn rs cont = None ->
  forall w rs', rs = w ++ rs' -> forallb (cmem k) w = true ->
                cont (rev w ++ sn) rs' = None.
Proof.
  induction rs as [|c rs IH]; intros sn cont H w rs' E Hw.
  - destruct w; [|discriminate]. cbn in E. subst rs'. exact H.
  - cbn in H. apply orelse_none in H. destruct H as [H0 H].
    destruct w as [|d w].
    + cbn in E. subst rs'. exact H0.
    + cbn in E. injection E as <- ->. cbn in Hw.
      apply andb_true_iff in Hw. destruct Hw as [Hc Hw].
      rewrite Hc in H. cbn. rewrite <- app_assoc. cbn. eapply IH; eauto.
Qed.

Lemma rep_lazy_some k rs : forall sn (cont : pystr -> pystr -> option A) a,
  rep_lazy k sn rs cont = Some a ->
  exists w rs', rs = w ++ rs' /\ forallb (cmem k) w = true
                /\ cont (rev w ++ sn) rs' = Some a.
Proof.
  induction rs as [|c rs IH]; intros sn cont a H.
  - exists [], []. auto.
  - cbn in H. apply orelse_some in H. destruct H as [H|H].
    + exists [], (c :: rs). auto.
    + destruct (cmem k c) eqn:Hc; [|discriminate].
      apply IH in H. destruct H as (w & rs' & -> & Hw & H).
      exists (c :: w), rs'. cbn. rewrite Hc, Hw, <- app_assoc. auto.
Qed.

Lemma rep_none g k sn rs (cont : pystr -> pystr -> option A) :
  rep g k sn rs cont = None ->
  forall w rs', rs = w ++ rs' -> forallb (cmem k) w = true ->
                cont (rev w ++ sn) rs' = None.
Proof. destruct g; [apply rep_greedy_none | apply rep_lazy_none]. Qed.

Lemma rep_some g k sn rs (cont : pystr -> pystr -> option A) a :
  rep g k sn rs cont = Some a ->
  exists w rs', rs = w ++ rs' /\ forallb (cmem k) w = true
                /\ cont (rev w ++ sn) rs' = Some a.
Proof. destruct g; [apply rep_greedy_some | apply rep_lazy_some]. Qed.

(** No end of a match is accepted when the matcher fails. *)
Lemma rmatch_none r : forall st (k : mstate -> option A),
  rmatch r st k = None -> forall st', sem r st st' -> k st' = None.
Proof.
  induction r as [l|c|r1 IH1 r2 IH2|r1 IH1 r2 IH2|n r1 IH1|g plus c|c| |];
    intros st k H st' Hs; cbn in H, Hs.
  - destruct Hs as (rs & E & ->). rewrite E in H. exact H.
  - destruct Hs as (x & rs & E & Hc & ->). unfold one in H.
    rewrite E, Hc in H. exact H.
  - destruct Hs as (mid & H1 & H2).
    eapply IH2; [|exact H2]. eapply (IH1 _ _ H); exact H1.
  - apply orelse_none in H. destruct H as [Ha Hb].
    destruct Hs as [Hs|Hs]; [eapply IH1 | eapply IH2]; eauto.
  - destruct Hs as (mid & H1 & ->). apply (IH1 _ _ H _ H1).
  - destruct Hs as (w & rs & E & Hw & Hp & ->).
    destruct plus.
    + destruct w as [|x w]; [exfalso; apply Hp; reflexivity|].
      cbn in E, Hw. apply andb_true_iff in Hw. destruct Hw as [Hx Hw].
      unfold one in H. rewrite E, Hx in H.
      cbn. rewrite <- app_assoc.
      eapply rep_none with (w := w) (rs' := rs) in H; [exact H|reflexivity|exact Hw].
    + eapply rep_none with (w := w) (rs' := rs) in H; [exact H|exact E|exact Hw].
  - apply orelse_none in H. destruct H as [Ha Hb].
    destruct Hs as [-> | (x & rs & E & Hc & ->)]; [exact Hb|].
    unfold one in Ha. rewrite E, Hc in Ha. exact Ha.
  - destruct Hs as [E ->]. rewrite E in H. exact H.
  - destruct Hs as [E ->]. rewrite E in H. exact H.
Qed.

(** The matcher's answer is its continuation's answer at an end of a
    match. *)
Lemma rmatch_some r : forall st (k : mstate -> option A) a,
  rmatch r st k = Some a -> exists st', sem r st st' /\ k st' = Some a.
Proof.
  induction r as [l|c|r1 IH1 r2 IH2|r1 IH1 r2 IH2|n r1 IH1|g plus c|c| |];
    intros st k a H; cbn in H; cbn [sem].
  - destruct (strip_prefix l (rest st)) as [rs|] eqn:E; [|discriminate].
    eexists. split; [exists rs; split; [reflexivity|reflexivity]|exact H].
  - unfold one in H. destruct (rest st) as [|x rs] eqn:E; [discriminate|].
    destruct (cmem c x) eqn:Hc; [|discriminate].
    eexists. split; [exists x, rs; auto|exact H].
  - apply IH1 in H. destruct H as (mid & H1 & H).
    apply IH2 in H. destruct H as (st' & H2 & H). eauto.
  - apply orelse_some in H. destruct H as [H|H];
      [apply IH1 in H | apply IH2 in H]; destruct H as (st' & Hs & H); eauto.
  - apply IH1 in H. destruct H as (mid & H1 & H). eauto.
  - destruct plus.
    + unfold one in H. destruct (rest st) as [|x rs] eqn:E; [discriminate|].
      destruct (cmem c x) eqn:Hc; [|discriminate].
      apply rep_some in H. destruct H as (w & rs' & -> & Hw & H).
      eexists. split; [|exact H].
      exists (x :: w), rs'. cbn. rewrite Hc, Hw, <- app_assoc.
      repeat split; auto. discriminate.
    + apply rep_some in H. destruct H as (w & rs' & E & Hw & H).
      eexists. split; [|exact H].
      exists w, rs'. repeat split; auto. discriminate.
  - apply orelse_some in H. destruct H as [H|H].
    + unfold one in H. destruct (rest st) as [|x rs] eqn:E; [discriminate|].
      destruct (cmem c x) eqn:Hc; [|discriminate].
      eexists. split; [right; exists x, rs; auto|exact H].
    + eauto.
  - destruct (seen st) eqn:E; [|discriminate]. eauto.
  - destruct (word_boundary (seen st) (rest st)) eqn:E; [|discriminate]. eauto.
Qed.

End Cont.

(** A match is found at a position exactly when one exists there. *)
Lemma match_at_none_iff r sn rs :
  match_at r sn rs = None <-> forall st', ~ sem r (MS sn rs []) st'.
Proof.
  unfold match_at. split.
  - intros H st' Hs. pose proof (rmatch_none _ _ _ H _ Hs). discriminate.
  - intros H. destruct (rmatch r (MS sn rs []) (fun st => Some st)) eqn:E;
      [|reflexivity].
    apply rmatch_some in E. destruct E as (st' & Hs & _).
    exfalso. exact (H _ Hs).
Qed.

Lemma match_at_sem r sn rs m :
  match_at r sn rs = Some m -> sem r (MS sn rs []) m.
Proof.
  unfold match_at. intros H. apply rmatch_some in H.
  destruct H as (st' & Hs & E). injection E as <-. exact Hs.
Qed.

(** A match consumes a prefix of the text ahead. *)
Lemma sem_consumes r : forall st st',
  sem r st st' ->
  exists w, rest st = w ++ rest st' /\ seen st' = rev w ++ seen st.
Proof.
  induction r as [l|c|r1 IH1 r2 IH2|r1 IH1 r2 IH2|n r1 IH1|g plus c|c| |];
    intros st st' Hs; cbn in Hs.
  - destruct Hs as (rs & E & ->). apply strip_prefix_inv in E.
    exists l. auto.
  - destruct Hs as (x & rs & E & _ & ->). exists [x]. auto.
  - destruct Hs as (mid & H1 & H2).
    apply IH1 in H1. apply IH2 in H2.
    destruct H1 as (w1 & E1 & F1). destruct H2 as (w2 & E2 & F2).
    exists (w1 ++ w2). rewrite E1, E2, F2, F1, rev_app_distr, !app_assoc. auto.
  - destruct Hs as [Hs|Hs]; eauto.
  - destruct Hs as (mid & H1 & ->). apply IH1 in H1. exact H1.
  - destruct Hs as (w & rs & E & _ & _ & ->). exists w. auto.
  - destruct Hs as [-> | (x & rs & E & _ & ->)]; [exists []; auto|exists [x]; auto].
  - destruct Hs as [_ ->]. exists []. auto.
  - destruct Hs as [_ ->]. exists []. auto.
Qed.

Lemma captured_app sn w rs rs' cs cs' :
  captured (MS sn rs cs) (MS (rev w ++ sn) rs' cs') = w.
Proof.
  unfold captured. cbn [seen]. rewrite length_app, length_rev.
  replace (length w + length sn - length sn) with (length (rev w))
    by (rewrite length_rev; lia).
  rewrite firstn_app, Nat.sub_diag, firstn_all. cbn.
  rewrite app_nil_r. apply rev_involutive.
Qed.

End ReFacts.

(** Unfolding what a match of a concrete pattern consists of. *)
Ltac sem_step :=
  match goal with
  | H : exists _, _ |- _ => destruct H
  | H : _ /\ _ |- _ => destruct H
  | H : _ \/ _ |- _ => destruct H
  | H : ?x = MS _ _ _ |- _ => is_var x; subst x
  | H : ?x = set_cap _ _ _ |- _ => is_var x; subst x
  | H : strip_prefix _ _ = Some _ |- _ => apply ReFacts.strip_prefix_inv in H
  | H : ?x = _ ++ _ |- _ => is_var x; subst x
  | H : ?x = _ :: _ |- _ => is_var x; subst x
  end; cbn [seen rest caps set_cap] in *.

Ltac rep_ok :=
  do 2 eexists; split; [cbn [rest]; reflexivity|];
  split; [eassumption|]; split; [intros _; assumption|reflexivity].

Ltac lit_ok :=
  eexists; split; [cbn [rest]; apply ReFacts.strip_prefix_app|reflexivity].

Ltac next_lit := eexists; split; [lit_ok|]; cbn [seen rest caps set_cap].
Ltac next_rep := eexists; split; [rep_ok|]; cbn [seen rest caps set_cap].

(** *** The text report: which lines are counted *)

Section TextLines.

Import AnalyzeText ReSem ReFacts.

Lemma shape_of_sem l m :
  sem file_pattern (MS [] l []) m -> report_line_shape l (group 1 m).
Proof.
  intros H. unfold file_pattern in H. cbn [sem] in H.
  repeat sem_step.
  all: unfold group; cbn [get_cap Nat.eqb caps]; rewrite captured_app.
  all: do 10 eexists; split; [reflexivity|]; unfold all; repeat split; auto.
Qed.

Lemma sem_of_shape l path :
  report_line_shape l path -> exists m, sem file_pattern (MS [] l []) m.
Proof.
  intros (ws1 & ws2 & n1 & ws3 & ws4 & n2 & ws5 & sev & ws6 & message & -> & H).
  unfold all in H. decompose [and] H. clear H.
  match goal with Hs : _ \/ _ |- _ => destruct Hs as [-> | ->] end.
  all: unfold file_pattern; cbn [sem].
  all: eexists; eexists; (split; [split; reflexivity|]).
  all: eexists; (split; [eexists; split; [rep_ok|reflexivity]|]);
    cbn [seen rest caps set_cap].
  all: next_lit; next_rep; next_lit; next_rep; next_rep; next_lit; next_rep;
    next_lit; next_rep; next_rep; next_lit; next_rep.
  1: eexists; (split; [eexists; split; [left; lit_ok|reflexivity]|]).
  2: eexists; (split; [eexists; split; [right; lit_ok|reflexivity]|]).
  all: cbn [seen rest caps set_cap]; next_rep; lit_ok.
Qed.

(** The pattern matches a stripped line exactly when the line has the
    shape, and its first group is then a path of the shape. *)
Lemma file_pattern_matches_shape (l : pystr) :
  match re_match file_pattern l with
  | Some m => report_line_shape l (group 1 m)
  | None => forall path, ~ report_line_shape l path
  end.
Proof.
  unfold re_match. destruct (match_at file_pattern [] l) as [m|] eqn:E.
  - apply shape_of_sem. apply match_at_sem. exact E.
  - intros path Hs. apply sem_of_shape in Hs. destruct Hs as (m & Hm).
    pose proof (proj1 (match_at_none_iff _ _ _) E m) as Hn. exact (Hn Hm).
Qed.

Lemma sum_cons (x : nat) (l : list nat) : Py.sum (x :: l) = x + Py.sum l.
Proof. reflexivity. Qed.

Lemma sum_upd_bump (K : Type) (eqb : K -> K -> bool) (k : K) (d : Py.dict K nat) :
  Py.sum (Py.values (Py.upd eqb k S 0 d)) = S (Py.sum (Py.values d)).
Proof.
  unfold Py.values.
  induction d as [|[k' v] d IH]; cbn; [reflexivity|].
  destruct (eqb k k'); cbn; rewrite !sum_cons; [reflexivity|].
  rewrite IH. lia.
Qed.

(** Counting a line adds one issue to the aggregation. *)
Lemma grand_total_incr folder file d :
  grand_total (incr folder file d) = S (grand_total d).
Proof.
  unfold grand_total, incr, folder_errors.
  induction d as [|[k' v] d IH]; cbn.
  - reflexivity.
  - destruct (pystr_eqb folder k'); cbn; rewrite !sum_cons.
    + pose proof (sum_upd_bump pystr_eqb file v) as E.
      unfold Py.values in E. rewrite E. reflexivity.
    + rewrite IH. lia.
Qed.

Lemma from_slash_no_slash (name t : pystr) :
  forallb (fun c => negb (Ascii.eqb c "/")) name = true ->
  Py.from_slash (name ++ "/"%char :: t) = "/"%char :: t.
Proof.
  induction name as [|c name IH]; cbn; intros H; [reflexivity|].
  apply andb_true_iff in H. destruct H as [Hc H].
  destruct (Ascii.eqb c "/"); [discriminate|]. apply IH. exact H.
Qed.

(** [dirname] strips the final segment and the slash before it. *)
Lemma dirname_strips_final_segment (dir name : pystr) (c : ascii) :
  forallb (fun c => negb (Ascii.eqb c "/")) name = true ->
  c <> "/"%char ->
  Py.dirname ((dir ++ [c]) ++ s "/" ++ name) = dir ++ [c].
Proof.
  intros Hname Hc. unfold Py.dirname, Py.head.
  rewrite !rev_app_distr. cbn [s list_ascii_of_string rev app].
  rewrite <- !app_assoc. cbn [app].
  rewrite from_slash_no_slash
    by (rewrite forallb_forall in *; intros x Hx; apply Hname;
        apply in_rev; exact Hx).
  cbn [rev]. rewrite rev_app_distr, rev_involutive. cbn [rev app].
  rewrite rev_app_distr. cbn [rev app Py.drop_slashes].
  rewrite Ascii.eqb_refl.
  destruct (Ascii.eqb c "/") eqn:E; [apply Ascii.eqb_eq in E; congruence|].
  cbn [rev]. rewrite rev_involutive. reflexivity.
Qed.

End TextLines.

(** C8: a line of the text report whose stripped form has the shape
    [<path>: line <n>, col <n>, (Error|Warning) - <message>] is counted,
    once, under the directory of a path of that shape and under that
    path; a line of any other shape leaves the aggregation as it was
    (nothing is raised); and the directory of a path is the path without
    its final segment. *)
Theorem C8_text_line_counted_iff_shape
    (d : AnalyzeText.counts) (line : pystr) :
  ((exists path, AnalyzeText.report_line_shape (strip line) path) ->
   exists path,
     AnalyzeText.report_line_shape (strip line) path
     /\ AnalyzeText.count_line d line
        = AnalyzeText.incr (Py.dirname path) path d
     /\ AnalyzeText.grand_total (AnalyzeText.count_line d line)
        = S (AnalyzeText.grand_total d))
  /\ ((forall path, ~ AnalyzeText.report_line_shape (strip line) path) ->
      AnalyzeText.count_line d line = d)
  /\ (forall dir name c,
        forallb (fun x => negb (Ascii.eqb x "/")) name = true ->
        c <> "/"%char ->
        Py.dirname ((dir ++ [c]) ++ s "/" ++ name) = dir ++ [c]).
Proof.
  pose proof (file_pattern_matches_shape (strip line)) as H.
  unfold AnalyzeText.count_line.
  destruct (re_match AnalyzeText.file_pattern (strip line)) as [m|].
  - split; [|split].
    + intros _. exists (group 1 m). split; [exact H|].
      split; [reflexivity|apply grand_total_incr].
    + intros Hn. exfalso. exact (Hn _ H).
    + apply dirname_strips_final_segment.
  - split; [|split].
    + intros (path & Hp). exfalso. exact (H _ Hp).
    + reflexivity.
    + apply dirname_strips_final_segment.
Qed.

Lemma C8_text_line_witness :
  exists path,
    AnalyzeText.report_line_shape
      (strip (s "  src/app/a.ts: line 3, col 7, Error - Unexpected any  ")) path
    /\ AnalyzeText.count_line []
         (s "  src/app/a.ts: line 3, col 7, Error - Unexpected any  ")
       = AnalyzeText.incr (Py.dirname path) path []
    /\ AnalyzeText.grand_total
         (AnalyzeText.count_line []
            (s "  src/app/a.ts: line 3, col 7, Error - Unexpected any  "))
       = S (AnalyzeText.grand_total []).
Proof.
  apply (proj1 (C8_text_line_counted_iff_shape []
                  (s "  src/app/a.ts: line 3, col 7, Error - Unexpected any  "))).
  exists (s "src/app/a.ts").
  exists (s " "), (s " "), (s "3"), (s " "), (s " "), (s "7"), (s " "),
    (s "Error"), (s " "), (s " Unexpected any").
  split; [vm_compute; reflexivity|].
  unfold AnalyzeText.all.
  repeat split; try discriminate; try reflexivity. left. reflexivity.
Defined.

(** *** Sorting, dictionaries and printing loops *)

Module PyFacts.

Section SortFacts.

Variable X : Type.

Definition ge_count (a b : X * nat) : Prop := snd b <= snd a.

Lemma insert_desc_perm (x : X * nat) l :
  Permutation (Py.insert_desc x l) (x :: l).
Proof.
  induction l as [|y l IH]; cbn [Py.insert_desc]; [reflexivity|].
  destruct (snd x <? snd y); [|reflexivity].
  rewrite IH. apply perm_swap.
Qed.

Lemma sorted_desc_perm (l : list (X * nat)) : Permutation (Py.sorted_desc l) l.
Proof.
  induction l as [|x l IH]; [reflexivity|].
  unfold Py.sorted_desc. cbn [fold_right]. fold (Py.sorted_desc l).
  rewrite insert_desc_perm. constructor. exact IH.
Qed.

Lemma insert_desc_sorted (x : X * nat) l :
  StronglySorted ge_count l -> StronglySorted ge_count (Py.insert_desc x l).
Proof.
  induction 1 as [|y l Hl IH Hy]; cbn [Py.insert_desc].
  - repeat constructor.
  - destruct (snd x <? snd y) eqn:E.
    + constructor; [exact IH|].
      apply Nat.ltb_lt in E.
      rewrite Forall_forall in *. intros z Hz.
      apply (Permutation_in _ (insert_desc_perm x l)) in Hz.
      destruct Hz as [<-|Hz]; [unfold ge_count; lia|auto].
    + apply Nat.ltb_ge in E.
      constructor; [constructor; assumption|].
      constructor; [exact E|].
      rewrite Forall_forall in *. intros z Hz. specialize (Hy z Hz).
      unfold ge_count in *. lia.
Qed.

Lemma sorted_desc_sorted (l : list (X * nat)) :
  StronglySorted ge_count (Py.sorted_desc l).
Proof.
  induction l as [|x l IH]; [constructor|].
  unfold Py.sorted_desc. cbn [fold_right]. fold (Py.sorted_desc l).
  apply insert_desc_sorted. exact IH.
Qed.

Lemma sum_perm (l l' : list nat) : Permutation l l' -> Py.sum l = Py.sum l'.
Proof. induction 1; rewrite ?sum_cons; lia. Qed.

Lemma sum_sorted_desc (l : list (X * nat)) :
  Py.sum (map snd (Py.sorted_desc l)) = Py.sum (map snd l).
Proof. apply sum_perm, Permutation_map, sorted_desc_perm. Qed.

Lemma sorted_firstn n (l : list (X * nat)) :
  StronglySorted ge_count l -> StronglySorted ge_count (firstn n l).
Proof.
  intros H. revert n. induction H as [|y l Hl IH Hy]; intros [|n]; cbn;
    try constructor; auto.
  rewrite Forall_forall in *. intros z Hz. apply Hy.
  rewrite <- (firstn_skipn n l). apply in_or_app. left. exact Hz.
Qed.

Lemma sorted_split n (l : list (X * nat)) :
  StronglySorted ge_count l ->
  forall x y, In x (firstn n l) -> In y (skipn n l) -> snd y <= snd x.
Proof.
  intros H. revert n. induction H as [|z l Hl IH Hz]; intros n x y Hx Hy.
  - rewrite firstn_nil in Hx. destruct Hx.
  - destruct n as [|n]; cbn in Hx, Hy; [destruct Hx|].
    destruct Hx as [<-|Hx].
    + rewrite Forall_forall in Hz. apply Hz.
      rewrite <- (firstn_skipn n l). apply in_or_app. right. exact Hy.
    + eapply IH; eauto.
Qed.

End SortFacts.

Section DictFacts.

Variables K V : Type.
Variable eqb : K -> K -> bool.
Hypothesis eqb_eq : forall a b, eqb a b = true <-> a = b.

Definition getd (dflt : V) (k : K) (d : Py.dict K V) : V :=
  match Py.get eqb k d with Some v => v | None => dflt end.

Lemma eqb_refl k : eqb k k = true.
Proof. apply eqb_eq. reflexivity. Qed.

Lemma eqb_neq a b : a <> b -> eqb a b = false.
Proof.
  intros H. destruct (eqb a b) eqn:E; [|reflexivity].
  apply eqb_eq in E. contradiction.
Qed.

Lemma get_upd_same k f dflt (d : Py.dict K V) :
  Py.get eqb k (Py.upd eqb k f dflt d) = Some (f (getd dflt k d)).
Proof.
  unfold getd. induction d as [|[k' v] d IH]; cbn.
  - rewrite eqb_refl. reflexivity.
  - destruct (eqb k k') eqn:E; cbn; rewrite E; [reflexivity|exact IH].
Qed.

Lemma get_upd_other k k' f dflt (d : Py.dict K V) :
  k <> k' -> Py.get eqb k' (Py.upd eqb k f dflt d) = Py.get eqb k' d.
Proof.
  intros Hk. induction d as [|[k0 v] d IH]; cbn.
  - rewrite eqb_neq by congruence. reflexivity.
  - destruct (eqb k k0) eqn:E; cbn.
    + apply eqb_eq in E. subst k0. rewrite eqb_neq by congruence. reflexivity.
    + rewrite IH. reflexivity.
Qed.

Lemma get_none_not_in k (d : Py.dict K V) :
  Py.get eqb k d = None -> ~ In k (Py.keys d).
Proof.
  induction d as [|[k' v] d IH]; cbn; [tauto|].
  destruct (eqb k k') eqn:E; [discriminate|].
  intros H [->|Hin]; [rewrite eqb_refl in E; discriminate|exact (IH H Hin)].
Qed.

Lemma keys_upd k f dflt (d : Py.dict K V) :
  Py.keys (Py.upd eqb k f dflt d)
  = match Py.get eqb k d with
    | Some _ => Py.keys d
    | None => Py.keys d ++ [k]
    end.
Proof.
  unfold Py.keys.
  induction d as [|[k' v] d IH]; cbn; [reflexivity|].
  destruct (eqb k k') eqn:E; cbn; [reflexivity|].
  rewrite IH.
  destruct (Py.get eqb k d); reflexivity.
Qed.

Lemma nodup_keys_upd k f dflt (d : Py.dict K V) :
  NoDup (Py.keys d) -> NoDup (Py.keys (Py.upd eqb k f dflt d)).
Proof.
  intros H. rewrite keys_upd.
  destruct (Py.get eqb k d) eqn:E; [exact H|].
  apply get_none_not_in in E.
  apply NoDup_rev in H. rewrite <- (rev_involutive (Py.keys d ++ [k])).
  apply NoDup_rev. rewrite rev_app_distr. cbn. constructor; [|exact H].
  rewrite <- in_rev. exact E.
Qed.

Lemma in_get k v (d : Py.dict K V) :
  NoDup (Py.keys d) -> In (k, v) d -> Py.get eqb k d = Some v.
Proof.
  induction d as [|[k' v'] d IH]; cbn; [tauto|].
  intros Hnd [E|Hin].
  - injection E as -> ->. rewrite eqb_refl. reflexivity.
  - inversion Hnd as [|? ? Hni Hnd']. subst.
    destruct (eqb k k') eqn:E.
    + apply eqb_eq in E. subst k'. exfalso. apply Hni.
      change k with (fst (k, v)). apply in_map. exact Hin.
    + apply IH; assumption.
Qed.

(** A measure of the values that the update moves from the old value's
    to the new value's. *)
Lemma measure_upd (mu : V -> nat) k f dflt (d : Py.dict K V) :
  mu dflt = 0 ->
  Py.sum (map mu (Py.values (Py.upd eqb k f dflt d))) + mu (getd dflt k d)
  = Py.sum (map mu (Py.values d)) + mu (f (getd dflt k d)).
Proof.
  intros H0. unfold getd, Py.values.
  induction d as [|[k' v] d IH]; cbn; rewrite ?sum_cons.
  - cbn. lia.
  - destruct (eqb k k') eqn:E; cbn; rewrite ?sum_cons; lia.
Qed.

Lemma upd_nonempty k f dflt (d : Py.dict K V) : Py.upd eqb k f dflt d <> [].
Proof.
  destruct d as [|[k' v] d]; cbn; [discriminate|].
  destruct (eqb k k'); discriminate.
Qed.

End DictFacts.

Section LoopFacts.

Variables L X : Type.

Lemma for_each_ok (body : X -> Py.io L unit) (l : list X) :
  (forall x, In x l -> snd (body x) = Py.Ok tt) ->
  Py.for_each l body = (concat (map (fun x => fst (body x)) l), Py.Ok tt).
Proof.
  induction l as [|x l IH]; intros H; cbn; [reflexivity|].
  pose proof (H x (or_introl eq_refl)) as Hx.
  destruct (body x) as [o r] eqn:E. cbn in Hx. subst r.
  rewrite IH by (intros y Hy; apply H; right; exact Hy). reflexivity.
Qed.

End LoopFacts.

End PyFacts.

(** *** The JSON aggregation *)

Module JsonFacts.

Import AnalyzeJson PyFacts.

Lemma rule_eqb_eq (a b : rule_id) : rule_eqb a b = true <-> a = b.
Proof.
  destruct a as [|x], b as [|y]; cbn; split; intros H;
    try reflexivity; try discriminate.
  - apply pystr_eqb_eq in H. congruence.
  - injection H as ->. apply pystr_eqb_eq. reflexivity.
Qed.

Definition files_at (d : pystr) (i : issues) : files := getd pystr_eqb [] d i.
Definition rules_at (d f : pystr) (i : issues) : rules :=
  getd pystr_eqb [] f (files_at d i).
Definition count_at (d f : pystr) (r : rule_id) (i : issues) : nat :=
  getd rule_eqb 0 r (rules_at d f i).

(** The sum of the directory totals. *)
Definition issues_total (i : issues) : nat := Py.sum (map snd (dir_totals i)).

Lemma issues_total_eq (i : issues) :
  issues_total i = Py.sum (map files_total (Py.values i)).
Proof.
  unfold issues_total, dir_totals, Py.values. rewrite !map_map. reflexivity.
Qed.

Lemma files_total_eq (f : files) :
  files_total f = Py.sum (map rules_total (Py.values f)).
Proof. reflexivity. Qed.

Lemma sum_set (r : rule_id) (c : nat) (rs : rules) :
  rules_total (Py.set rule_eqb r c rs) + getd rule_eqb 0 r rs = rules_total rs + c.
Proof.
  unfold rules_total, Py.set, getd, Py.values.
  induction rs as [|[r' c'] rs IH]; cbn; rewrite ?sum_cons.
  - cbn. lia.
  - destruct (rule_eqb r r') eqn:E; cbn; rewrite ?sum_cons; lia.
Qed.

Lemma chain3 (a f b f' r r' x c : nat) :
  a + f = b + f' -> f' + r = f + r' -> r' + x = r + c -> a + x = b + c.
Proof. lia. Qed.

Lemma store_total d f r c (i : issues) :
  issues_total (store d f i (r, c)) + count_at d f r i = issues_total i + c.
Proof.
  rewrite !issues_total_eq. unfold store, count_at, rules_at, files_at.
  cbn [fst snd].
  pose proof (measure_upd pystr_eqb files_total d
                (Py.upd pystr_eqb f (Py.set rule_eqb r c) []) [] i eq_refl) as H1.
  pose proof (measure_upd pystr_eqb rules_total f (Py.set rule_eqb r c) []
                (getd pystr_eqb [] d i) eq_refl) as H2.
  pose proof (sum_set r c (getd pystr_eqb [] f (getd pystr_eqb [] d i))) as H3.
  eapply chain3; [exact H1|exact H2|exact H3].
Qed.

Lemma count_store_same d f r c (i : issues) :
  count_at d f r (store d f i (r, c)) = c.
Proof.
  unfold count_at, rules_at, files_at, store, getd. cbn [fst snd].
  rewrite (get_upd_same pystr_eqb pystr_eqb_eq).
  rewrite (get_upd_same pystr_eqb pystr_eqb_eq).
  unfold Py.set. rewrite (get_upd_same rule_eqb rule_eqb_eq). reflexivity.
Qed.

Lemma count_store_other d f r c d' f' r' (i : issues) :
  (d, f, r) <> (d', f', r') ->
  count_at d' f' r' (store d f i (r, c)) = count_at d' f' r' i.
Proof.
  intros Hne. unfold count_at, rules_at, files_at, store. cbn [fst snd].
  destruct (list_eq_dec ascii_dec d d') as [<-|Hd].
  - unfold getd at 3. rewrite (get_upd_same pystr_eqb pystr_eqb_eq).
    destruct (list_eq_dec ascii_dec f f') as [<-|Hf].
    + unfold getd at 2. rewrite (get_upd_same pystr_eqb pystr_eqb_eq).
      unfold getd at 1. unfold Py.set.
      rewrite (get_upd_other rule_eqb rule_eqb_eq) by congruence.
      reflexivity.
    + unfold getd at 2.
      rewrite (get_upd_other pystr_eqb pystr_eqb_eq) by congruence.
      reflexivity.
  - unfold getd at 3.
    rewrite (get_upd_other pystr_eqb pystr_eqb_eq) by congruence.
    reflexivity.
Qed.

Lemma store_all_total d f (fi : rules) : forall i : issues,
  NoDup (Py.keys fi) ->
  (forall r, In r (Py.keys fi) -> count_at d f r i = 0) ->
  issues_total (fold_left (store d f) fi i) = issues_total i + rules_total fi.
Proof.
  unfold rules_total, Py.values.
  induction fi as [|[r c] fi IH]; intros i Hnd H0; cbn [fold_left map].
  - unfold Py.sum. cbn. lia.
  - inversion Hnd as [|? ? Hni Hnd']. subst.
    rewrite IH.
    + pose proof (store_total d f r c i) as Ht.
      rewrite (H0 r) in Ht by (left; reflexivity).
      rewrite sum_cons. cbn [snd]. lia.
    + exact Hnd'.
    + intros r' Hr'. rewrite count_store_other.
      * apply H0. right. exact Hr'.
      * intros E. injection E as <-. exact (Hni Hr').
Qed.

Lemma count_store_all_other d f (fi : rules) d' f' r' : forall i : issues,
  (d, f) <> (d', f') ->
  count_at d' f' r' (fold_left (store d f) fi i) = count_at d' f' r' i.
Proof.
  induction fi as [|[r c] fi IH]; intros i Hne; cbn [fold_left]; [reflexivity|].
  rewrite IH by exact Hne. apply count_store_other. congruence.
Qed.

Definition tally (msgs : list message) (d : rules) : rules :=
  fold_left (fun d m => bump (rule_of m) d) msgs d.

Lemma tally_total msgs : forall d,
  rules_total (tally msgs d) = rules_total d + length msgs.
Proof.
  unfold tally, rules_total.
  induction msgs as [|m msgs IH]; intros d; cbn [fold_left length]; [lia|].
  rewrite IH. unfold bump. rewrite sum_upd_bump. lia.
Qed.

Lemma tally_nodup msgs : forall d,
  NoDup (Py.keys d) -> NoDup (Py.keys (tally msgs d)).
Proof.
  unfold tally.
  induction msgs as [|m msgs IH]; intros d H; cbn [fold_left]; [exact H|].
  apply IH. apply (nodup_keys_upd rule_eqb rule_eqb_eq). exact H.
Qed.

Section Agg.

Variable relpath : pystr -> pystr.

Lemma add_file_messages (a : analysis) (fr : file_report) :
  has_messages fr = true ->
  JsonLoop.step relpath a fr
  = Analysis
      (fold_left (store (fst (file_key relpath fr)) (snd (file_key relpath fr)))
         (tally (messages fr) []) (issues_by_dir a))
      (tally (messages fr) (rule_counts a))
      (total_issues a + length (messages fr)).
Proof.
  unfold JsonLoop.step, has_messages. destruct (messages fr); [discriminate|].
  reflexivity.
Qed.

Lemma add_file_skip (a : analysis) (fr : file_report) :
  has_messages fr = false -> JsonLoop.step relpath a fr = a.
Proof.
  unfold JsonLoop.step, has_messages. destruct (messages fr); [|discriminate].
  reflexivity.
Qed.

(** With every file named once, the running total is the sum of the
    directory totals. *)
Lemma aggregate_total (r : report) : forall a : analysis,
  total_issues a = issues_total (issues_by_dir a) ->
  NoDup (map (file_key relpath) (filter has_messages r)) ->
  (forall d f x, count_at d f x (issues_by_dir a) <> 0 ->
                 ~ In (d, f) (map (file_key relpath) (filter has_messages r))) ->
  total_issues (fold_left (JsonLoop.step relpath) r a)
  = issues_total (issues_by_dir (fold_left (JsonLoop.step relpath) r a)).
Proof.
  induction r as [|fr r IH]; intros a Ht Hnd Hfresh; cbn [fold_left];
    [exact Ht|].
  cbn [filter] in Hnd, Hfresh.
  destruct (has_messages fr) eqn:Hm.
  - cbn [map] in Hnd, Hfresh. inversion Hnd as [|? ? Hni Hnd']. subst.
    destruct (file_key relpath fr) as [d f] eqn:Ek.
    apply IH.
    + rewrite add_file_messages by exact Hm. cbn [total_issues issues_by_dir].
      rewrite Ek. cbn [fst snd]. rewrite store_all_total.
      * rewrite tally_total. change (rules_total []) with 0. lia.
      * apply tally_nodup. constructor.
      * intros x _.
        destruct (Nat.eq_dec (count_at d f x (issues_by_dir a)) 0) as [E|E];
          [exact E|].
        exfalso. apply (Hfresh d f x E). left. reflexivity.
    + exact Hnd'.
    + intros d' f' x Hx Hin.
      rewrite add_file_messages in Hx by exact Hm.
      cbn [issues_by_dir] in Hx. rewrite Ek in Hx. cbn [fst snd] in Hx.
      destruct (list_eq_dec ascii_dec d d') as [<-|Hd].
      * destruct (list_eq_dec ascii_dec f f') as [<-|Hf]; [exact (Hni Hin)|].
        rewrite count_store_all_other in Hx by congruence.
        apply (Hfresh d f' x Hx). right. exact Hin.
      * rewrite count_store_all_other in Hx by congruence.
        apply (Hfresh d' f' x Hx). right. exact Hin.
  - rewrite add_file_skip by exact Hm. apply IH; assumption.
Qed.

Lemma aggregate_total_wf (r : report) :
  well_formed relpath r ->
  total_issues (JsonLoop.run relpath r)
  = issues_total (issues_by_dir (JsonLoop.run relpath r)).
Proof.
  intros [_ H]. unfold JsonLoop.run. apply aggregate_total.
  - reflexivity.
  - exact H.
  - intros d f x Hx. exfalso. apply Hx. reflexivity.
Qed.

End Agg.

End JsonFacts.

Module JsonDisplay.

Import AnalyzeJson PyFacts JsonFacts.

(** What the display prints for one file and for one directory. *)
Definition more_of (sr : list (rule_id * nat)) : option nat :=
  if 5 <? length sr then Some (length sr - 5) else None.

Definition file_block_of (fs : files) (e : pystr * nat) : file_block :=
  let sr := Py.sorted_desc (lookup (fst e) fs []) in
  FileBlock (fst e) (snd e) (firstn 5 sr) (more_of sr).

Definition dir_block_of (i : issues) (e : pystr * nat) : dir_block :=
  let fs := lookup (fst e) i [] in
  DirBlock (fst e) (snd e)
    (map (file_block_of fs) (Py.sorted_desc (file_totals fs))).

Lemma percent_ok (a b : nat) :
  1 <= b -> exists q, percent a b = ([], Py.Ok q).
Proof. destruct b; [lia|]. intros _. eexists. reflexivity. Qed.

Lemma print_rules_ok (l : list (rule_id * nat)) :
  Py.for_each l (fun rc => Py.print (J_rule (fst rc) (snd rc)))
  = (map (fun rc => J_rule (fst rc) (snd rc)) l, Py.Ok tt).
Proof.
  induction l as [|x l IH]; cbn [Py.for_each map]; [reflexivity|].
  rewrite IH. reflexivity.
Qed.

Lemma view_rules (l : list (rule_id * nat)) (v : view) :
  fold_right view_step v (map (fun rc => J_rule (fst rc) (snd rc)) l)
  = View (v_dirs v) (v_files v) (l ++ v_rules v) (v_more v).
Proof.
  induction l as [|[r c] l IH]; cbn [map fold_right app].
  - destruct v; reflexivity.
  - rewrite IH. reflexivity.
Qed.

Lemma show_file_view (fs : files) (dir_total : nat) (e : pystr * nat) :
  1 <= dir_total ->
  exists out,
    show_file fs dir_total e = (out, Py.Ok tt)
    /\ forall v, v_rules v = [] -> v_more v = None ->
         fold_right view_step v out
         = View (v_dirs v) (file_block_of fs e :: v_files v) [] None.
Proof.
  intros Hd. destruct (percent_ok (snd e) Hd) as [q Hq].
  unfold show_file. rewrite Hq. cbn [Py.bind Py.print app].
  rewrite print_rules_ok. cbn [app].
  unfold file_block_of, more_of.
  set (sr := Py.sorted_desc (lookup (fst e) fs [])).
  destruct (5 <? length sr) eqn:E; cbn [Py.bind Py.print Py.ret app].
  - eexists. split; [reflexivity|].
    intros v Hr Hm. cbn [fold_right].
    rewrite fold_right_app. cbn [fold_right view_step].
    rewrite view_rules. cbn [view_step v_dirs v_files v_rules v_more].
    rewrite Hr, app_nil_r. reflexivity.
  - eexists. split; [reflexivity|].
    intros v Hr Hm. rewrite !app_nil_r. cbn [fold_right].
    rewrite view_rules. cbn [view_step v_dirs v_files v_rules v_more].
    rewrite Hr, Hm, app_nil_r. reflexivity.
Qed.

Lemma show_files_view (fs : files) (dir_total : nat) (l : list (pystr * nat)) :
  1 <= dir_total ->
  exists out,
    Py.for_each l (show_file fs dir_total) = (out, Py.Ok tt)
    /\ forall v, v_rules v = [] -> v_more v = None ->
         fold_right view_step v out
         = View (v_dirs v) (map (file_block_of fs) l ++ v_files v) [] None.
Proof.
  intros Hd. induction l as [|e l IH]; cbn [Py.for_each map app].
  - eexists. split; [reflexivity|]. intros v Hr Hm. cbn.
    destruct v; cbn in *; subst; reflexivity.
  - destruct (show_file_view fs e Hd) as (o1 & E1 & V1).
    destruct IH as (o2 & E2 & V2).
    rewrite E1. cbn [Py.bind]. rewrite E2.
    eexists. split; [reflexivity|].
    intros v Hr Hm. rewrite fold_right_app, (V2 v Hr Hm).
    rewrite V1 by reflexivity. reflexivity.
Qed.

Lemma show_dir_view (a : analysis) (e : pystr * nat) :
  1 <= total_issues a -> 1 <= snd e ->
  exists out,
    show_dir a e = (out, Py.Ok tt)
    /\ forall v, v_files v = [] -> v_rules v = [] -> v_more v = None ->
         fold_right view_step v out
         = View (dir_block_of (issues_by_dir a) e :: v_dirs v) [] [] None.
Proof.
  intros Ht He. destruct (percent_ok (snd e) Ht) as [q Hq].
  unfold show_dir. rewrite Hq. cbn [Py.bind Py.print app].
  destruct (show_files_view (lookup (fst e) (issues_by_dir a) [])
              (Py.sorted_desc (file_totals (lookup (fst e) (issues_by_dir a) [])))
              He) as (o & E & V).
  rewrite E. cbn [app].
  eexists. split; [reflexivity|].
  intros v Hf Hr Hm. cbn [fold_right].
  rewrite fold_right_app. cbn [fold_right view_step].
  rewrite V by assumption.
  cbn [view_step v_dirs v_files]. rewrite Hf, app_nil_r. reflexivity.
Qed.

Lemma show_dirs_view (a : analysis) (l : list (pystr * nat)) :
  1 <= total_issues a -> Forall (fun e => 1 <= snd e) l ->
  exists out,
    Py.for_each l (show_dir a) = (out, Py.Ok tt)
    /\ forall v, v_files v = [] -> v_rules v = [] -> v_more v = None ->
         fold_right view_step v out
         = View (map (dir_block_of (issues_by_dir a)) l ++ v_dirs v) [] [] None.
Proof.
  intros Ht Hl. induction Hl as [|e l He Hl IH]; cbn [Py.for_each map app].
  - eexists. split; [reflexivity|]. intros v Hf Hr Hm. cbn.
    destruct v; cbn in *; subst; reflexivity.
  - destruct (show_dir_view a e Ht He) as (o1 & E1 & V1).
    destruct IH as (o2 & E2 & V2).
    rewrite E1. cbn [Py.bind]. rewrite E2.
    eexists. split; [reflexivity|].
    intros v Hf Hr Hm. rewrite fold_right_app, (V2 v Hf Hr Hm).
    rewrite V1 by reflexivity. reflexivity.
Qed.

Lemma show_top_rules_ok (a : analysis) (l : list (rule_id * nat)) :
  (l <> [] -> 1 <= total_issues a) ->
  exists out,
    Py.for_each l (show_top_rule a) = (out, Py.Ok tt)
    /\ forall v, fold_right view_step v out = v.
Proof.
  intros Ht. induction l as [|e l IH]; cbn [Py.for_each].
  - eexists. split; [reflexivity|]. reflexivity.
  - assert (H1 : 1 <= total_issues a) by (apply Ht; discriminate).
    destruct (percent_ok (snd e) H1) as [q Hq].
    destruct IH as (o & E & V); [intros _; exact H1|].
    unfold show_top_rule at 1. rewrite Hq. cbn [Py.bind Py.print app].
    rewrite E. eexists. split; [reflexivity|].
    intros v. cbn [app fold_right view_step]. apply V.
Qed.

(** The display of an aggregation without empty directories ends
    normally, and its directory blocks are those of the sorted totals. *)
Lemma display_analysis_view (a : analysis) :
  (total_issues a = 0 -> issues_by_dir a = [] /\ rule_counts a = []) ->
  Forall (fun e => 1 <= snd e) (dir_totals (issues_by_dir a)) ->
  exists out,
    display_analysis a = (out, Py.Ok tt)
    /\ displayed_total out = Some (total_issues a)
    /\ dir_blocks out
       = map (dir_block_of (issues_by_dir a))
           (Py.sorted_desc (dir_totals (issues_by_dir a))).
Proof.
  intros H0 Hpos. unfold display_analysis. cbn [Py.bind Py.print app].
  destruct (Nat.eq_dec (total_issues a) 0) as [Ez|Enz].
  - destruct (H0 Ez) as [Ei Er]. rewrite Ei, Er. cbn.
    eexists. split; [reflexivity|]. rewrite Ez. split; reflexivity.
  - assert (Ht : 1 <= total_issues a) by lia.
    destruct (show_dirs_view a (l := Py.sorted_desc (dir_totals (issues_by_dir a))) Ht)
      as (o1 & E1 & V1).
    { rewrite Forall_forall in *. intros e He. apply Hpos.
      apply (Permutation_in _ (sorted_desc_perm _)) in He. exact He. }
    destruct (show_top_rules_ok a (l := firstn 10 (Py.sorted_desc (rule_counts a))))
      as (o2 & E2 & V2); [intros _; exact Ht|].
    rewrite E1. cbn [app]. rewrite E2.
    eexists. split; [reflexivity|]. split; [reflexivity|].
    unfold dir_blocks. cbn [fold_right view_step].
    rewrite fold_right_app. cbn [fold_right view_step].
    rewrite V2, V1 by reflexivity. cbn [v_dirs]. apply app_nil_r.
Qed.

End JsonDisplay.

Module JsonInv.

Import AnalyzeJson PyFacts JsonFacts JsonDisplay.

Lemma forall_upd (K V : Type) (eqb : K -> K -> bool)
    (eqb_eq : forall a b, eqb a b = true <-> a = b)
    (P : K * V -> Prop) k f dflt (d : Py.dict K V) :
  Forall P d -> (forall v, P (k, f v)) -> Forall P (Py.upd eqb k f dflt d).
Proof.
  intros Hd Hf. induction Hd as [|[k' v] d Hx Hd IH]; cbn.
  - constructor; [apply Hf|constructor].
  - destruct (eqb k k') eqn:E.
    + apply eqb_eq in E. subst k'. constructor; [apply Hf|exact Hd].
    + constructor; assumption.
Qed.

Lemma count_le_rules (r : rule_id) (rs : rules) :
  getd rule_eqb 0 r rs <= rules_total rs.
Proof.
  unfold getd, rules_total, Py.values.
  induction rs as [|[r' c] rs IH]; cbn; rewrite ?sum_cons; [lia|].
  destruct (rule_eqb r r'); cbn; lia.
Qed.

Lemma rules_le_files (f : pystr) (fs : files) :
  rules_total (getd pystr_eqb [] f fs) <= files_total fs.
Proof.
  unfold getd, files_total, Py.values.
  induction fs as [|[f' rs] fs IH]; cbn; rewrite ?sum_cons.
  - unfold rules_total, Py.sum. cbn. lia.
  - destruct (pystr_eqb f f'); cbn; lia.
Qed.

Lemma chain4 (a ro F rs oc c : nat) :
  a + ro = F + rs -> rs + oc = ro + c -> oc <= ro -> ro <= F -> c <= a.
Proof. lia. Qed.

Lemma files_total_store_ge f r c (fs : files) :
  c <= files_total (Py.upd pystr_eqb f (Py.set rule_eqb r c) [] fs).
Proof.
  pose proof (measure_upd pystr_eqb rules_total f (Py.set rule_eqb r c) []
                fs eq_refl) as H2.
  pose proof (sum_set r c (getd pystr_eqb [] f fs)) as H3.
  pose proof (count_le_rules r (getd pystr_eqb [] f fs)) as H4.
  pose proof (rules_le_files f fs) as H5.
  eapply chain4; [exact H2|exact H3|exact H4|exact H5].
Qed.

Definition dirs_pos (i : issues) : Prop :=
  Forall (fun e : pystr * files => 1 <= files_total (snd e)) i.

Lemma store_pos d f r c (i : issues) :
  1 <= c -> dirs_pos i -> dirs_pos (store d f i (r, c)).
Proof.
  intros Hc Hi. unfold store, dirs_pos. cbn [fst snd].
  apply forall_upd; [exact pystr_eqb_eq|exact Hi|].
  intros v. cbn [snd]. pose proof (files_total_store_ge f r c v). lia.
Qed.

Lemma store_all_pos d f (fi : rules) : forall i : issues,
  Forall (fun e => 1 <= snd e) fi -> dirs_pos i ->
  dirs_pos (fold_left (store d f) fi i).
Proof.
  induction fi as [|[r c] fi IH]; intros i Hfi Hi; cbn [fold_left]; [exact Hi|].
  inversion Hfi as [|? ? Hc Hfi']. subst. cbn [snd] in Hc.
  apply IH; [exact Hfi'|]. apply store_pos; assumption.
Qed.

Lemma tally_pos msgs : forall d : rules,
  Forall (fun e => 1 <= snd e) d -> Forall (fun e => 1 <= snd e) (tally msgs d).
Proof.
  unfold tally.
  induction msgs as [|m msgs IH]; intros d H; cbn [fold_left]; [exact H|].
  apply IH. unfold bump. apply forall_upd; [exact rule_eqb_eq|exact H|].
  intros v. cbn. lia.
Qed.

Lemma store_all_nodup d f (fi : rules) : forall i : issues,
  NoDup (Py.keys i) -> NoDup (Py.keys (fold_left (store d f) fi i)).
Proof.
  induction fi as [|[r c] fi IH]; intros i H; cbn [fold_left]; [exact H|].
  apply IH. unfold store. apply (nodup_keys_upd pystr_eqb pystr_eqb_eq). exact H.
Qed.

Lemma forall_upd_inv (K V : Type) (eqb : K -> K -> bool)
    (eqb_eq : forall a b, eqb a b = true <-> a = b)
    (P : K * V -> Prop) k f dflt (d : Py.dict K V) :
  Forall P d -> (forall v, P (k, v) -> P (k, f v)) -> P (k, f dflt) ->
  Forall P (Py.upd eqb k f dflt d).
Proof.
  intros Hd Hf H0. induction Hd as [|[k' v] d Hx Hd IH]; cbn.
  - constructor; [exact H0|constructor].
  - destruct (eqb k k') eqn:E.
    + apply eqb_eq in E. subst k'. constructor; [apply Hf; exact Hx|exact Hd].
    + constructor; assumption.
Qed.

Definition files_distinct (i : issues) : Prop :=
  Forall (fun e : pystr * files => NoDup (Py.keys (snd e))) i.

Lemma store_distinct d f e (i : issues) :
  files_distinct i -> files_distinct (store d f i e).
Proof.
  intros Hi. unfold store, files_distinct.
  apply forall_upd_inv; [exact pystr_eqb_eq|exact Hi| |]; cbn [snd].
  - intros v Hv. apply (nodup_keys_upd pystr_eqb pystr_eqb_eq). exact Hv.
  - apply (nodup_keys_upd pystr_eqb pystr_eqb_eq). constructor.
Qed.

Lemma store_all_distinct d f (fi : rules) : forall i : issues,
  files_distinct i -> files_distinct (fold_left (store d f) fi i).
Proof.
  induction fi as [|e fi IH]; intros i H; cbn [fold_left]; [exact H|].
  apply IH. apply store_distinct. exact H.
Qed.

Section Agg.

Variable relpath : pystr -> pystr.

Record agg_inv (a : analysis) : Prop := AggInv {
  inv_zero : total_issues a = 0 -> issues_by_dir a = [] /\ rule_counts a = [];
  inv_pos : dirs_pos (issues_by_dir a);
  inv_nodup : NoDup (Py.keys (issues_by_dir a))
}.

Lemma add_file_inv (a : analysis) (fr : file_report) :
  agg_inv a -> agg_inv (JsonLoop.step relpath a fr).
Proof.
  intros [Hz Hp Hn]. destruct (has_messages fr) eqn:Hm.
  - rewrite add_file_messages by exact Hm. constructor; cbn.
    + unfold has_messages in Hm. destruct (messages fr); [discriminate|].
      cbn. lia.
    + apply store_all_pos; [|exact Hp]. apply tally_pos. constructor.
    + apply store_all_nodup. exact Hn.
  - rewrite add_file_skip by exact Hm. constructor; assumption.
Qed.

Lemma aggregate_inv (r : report) : agg_inv (JsonLoop.run relpath r).
Proof.
  unfold JsonLoop.run.
  assert (H : agg_inv (Analysis [] [] 0)).
  { constructor; cbn; [auto|constructor|constructor]. }
  revert H. generalize (Analysis [] [] 0).
  induction r as [|fr r IH]; intros a H; cbn [fold_left]; [exact H|].
  apply IH. apply add_file_inv. exact H.
Qed.

(** The file names of a directory are pairwise distinct. *)
Lemma add_file_distinct (a : analysis) (fr : file_report) :
  files_distinct (issues_by_dir a) ->
  files_distinct (issues_by_dir (JsonLoop.step relpath a fr)).
Proof.
  intros H. destruct (has_messages fr) eqn:Hm.
  - rewrite add_file_messages by exact Hm. cbn [issues_by_dir].
    apply store_all_distinct. exact H.
  - rewrite add_file_skip by exact Hm. exact H.
Qed.

Lemma aggregate_distinct (r : report) :
  files_distinct (issues_by_dir (JsonLoop.run relpath r)).
Proof.
  unfold JsonLoop.run.
  assert (H : files_distinct (issues_by_dir (Analysis [] [] 0)))
    by constructor.
  revert H. generalize (Analysis [] [] 0).
  induction r as [|fr r IH]; intros a H; cbn [fold_left]; [exact H|].
  apply IH. apply add_file_distinct. exact H.
Qed.

(** The display of an aggregated report never divides by zero. *)
Lemma display_aggregate (r : report) :
  let a := JsonLoop.run relpath r in
  exists out,
    display_analysis a = (out, Py.Ok tt)
    /\ displayed_total out = Some (total_issues a)
    /\ dir_blocks out
       = map (dir_block_of (issues_by_dir a))
           (Py.sorted_desc (dir_totals (issues_by_dir a))).
Proof.
  intros a. destruct (aggregate_inv r) as [Hz Hp Hn].
  apply display_analysis_view; [exact Hz|].
  unfold dir_totals. rewrite Forall_map. exact Hp.
Qed.

End Agg.

End JsonInv.

Module TextFacts.

Import AnalyzeText PyFacts.

Lemma count_line_nodup (d : counts) (line : pystr) :
  NoDup (Py.keys d) -> NoDup (Py.keys (count_line d line)).
Proof.
  intros H. unfold count_line.
  destruct (re_match file_pattern (strip line)); [|exact H].
  unfold incr. apply (nodup_keys_upd pystr_eqb pystr_eqb_eq). exact H.
Qed.

Lemma count_lines_nodup (lines : list pystr) : forall d : counts,
  NoDup (Py.keys d) -> NoDup (Py.keys (fold_left count_line lines d)).
Proof.
  induction lines as [|l lines IH]; intros d H; cbn [fold_left]; [exact H|].
  apply IH. apply count_line_nodup. exact H.
Qed.

Lemma count_lines_total (lines : list pystr) : forall d : counts,
  grand_total (fold_left count_line lines d)
  = grand_total d + length (filter counted lines).
Proof.
  induction lines as [|l lines IH]; intros d; cbn [fold_left filter length];
    [lia|].
  rewrite IH. unfold count_line, counted.
  destruct (re_match file_pattern (strip l)); cbn [length].
  - rewrite grand_total_incr. lia.
  - reflexivity.
Qed.

Lemma print_files_ok (l : list (pystr * nat)) :
  Py.for_each l (fun fe => Py.print (T_file (Py.basename (fst fe)) (snd fe)))
  = (map (fun fe => T_file (Py.basename (fst fe)) (snd fe)) l, Py.Ok tt).
Proof.
  induction l as [|x l IH]; cbn [Py.for_each map]; [reflexivity|].
  rewrite IH. reflexivity.
Qed.

Lemma tview_files (l : list (pystr * nat)) acc :
  fold_right tview_step acc
    (map (fun fe => T_file (Py.basename (fst fe)) (snd fe)) l)
  = (fst acc, map snd l ++ snd acc).
Proof.
  induction l as [|x l IH]; cbn [map fold_right app].
  - destruct acc; reflexivity.
  - rewrite IH. reflexivity.
Qed.

Lemma show_folders_view (d : counts) (l : list (pystr * nat)) :
  exists out,
    Py.for_each l (show_folder d) = (out, Py.Ok tt)
    /\ forall acc, snd acc = [] ->
         fold_right tview_step acc out
         = (map (fun e => (snd e, map snd (Py.sorted_desc (files_of d (fst e))))) l
              ++ fst acc, []).
Proof.
  induction l as [|e l IH]; cbn [Py.for_each map app].
  - eexists. split; [reflexivity|]. intros [a b] H. cbn in *. subst. reflexivity.
  - destruct IH as (o & E & V).
    unfold show_folder at 1. cbn [Py.bind Py.print app].
    rewrite print_files_ok. cbn [app]. rewrite E.
    eexists. split; [reflexivity|].
    intros acc Hacc. rewrite fold_right_app, (V acc Hacc).
    cbn [fold_right tview_step]. rewrite tview_files.
    cbn [fst snd]. rewrite app_nil_r. reflexivity.
Qed.

(** Every folder heading shows the sum of the file counts under it, and
    the headings add up to the issues of the aggregation. *)
Lemma display_sorted_results_view (d : counts) :
  NoDup (Py.keys d) ->
  exists out,
    display_sorted_results d = (out, Py.Ok tt)
    /\ Forall (fun b => fst b = Py.sum (snd b)) (folder_blocks out)
    /\ Py.sum (map fst (folder_blocks out)) = grand_total d.
Proof.
  intros Hnd. unfold display_sorted_results.
  destruct d as [|x d'] eqn:Ed.
  - eexists. split; [reflexivity|]. split; [constructor|reflexivity].
  - rewrite <- Ed in *. clear Ed x d'.
    destruct (show_folders_view d (Py.sorted_desc (folder_errors d)))
      as (o & E & V).
    cbn [Py.bind Py.print app]. rewrite E.
    eexists. split; [reflexivity|].
    unfold folder_blocks. cbn [fold_right tview_step].
    rewrite V by reflexivity. cbn [fst]. rewrite app_nil_r.
    split.
    + rewrite Forall_map, Forall_forall. intros e He. cbn [fst snd].
      apply (Permutation_in _ (sorted_desc_perm _)) in He.
      unfold folder_errors in He. apply in_map_iff in He.
      destruct He as ([k fs] & <- & Hin). cbn [fst snd].
      unfold files_of. erewrite in_get; [|exact pystr_eqb_eq|exact Hnd|exact Hin].
      rewrite sum_sorted_desc. reflexivity.
    + rewrite map_map. cbn [fst]. unfold grand_total.
      apply sum_sorted_desc.
Qed.

End TextFacts.

Lemma strongly_sorted_map (A B : Type) (R : B -> B -> Prop) (f : A -> B) l :
  StronglySorted (fun x y => R (f x) (f y)) l -> StronglySorted R (map f l).
Proof.
  induction 1 as [|x l Hl IH Hx]; cbn; constructor; [exact IH|].
  rewrite Forall_map. exact Hx.
Qed.

Lemma skipn_nil_iff (A : Type) n (l : list A) : skipn n l = [] <-> length l <= n.
Proof.
  split; intros H.
  - pose proof (length_skipn n l) as E. rewrite H in E. cbn in E. lia.
  - apply skipn_all2. exact H.
Qed.

(** C1: on a report that names each file once, the loop of
    [parse_eslint_report] and the display end normally, every directory
    line shows the sum of the totals of the file lines under it, and the
    "Total Issues" line shows the sum of the directory totals; the text
    aggregator's folder headings likewise show the sum of the counts of
    their file lines, and they add up to the number of report lines that
    were counted. *)
Theorem C1_directory_and_grand_totals_add_up
    (relpath : pystr -> pystr) (r : AnalyzeJson.report)
    (lines : list pystr) :
  AnalyzeJson.well_formed relpath r ->
  (exists a out,
     AnalyzeJson.aggregate relpath r = ([], Py.Ok a)
     /\ AnalyzeJson.display_analysis a = (out, Py.Ok tt)
     /\ Forall (fun b => AnalyzeJson.db_total b
                         = Py.sum (map AnalyzeJson.fb_total (AnalyzeJson.db_files b)))
          (AnalyzeJson.dir_blocks out)
     /\ AnalyzeJson.displayed_total out
        = Some (Py.sum (map AnalyzeJson.db_total (AnalyzeJson.dir_blocks out))))
  /\ (exists d out,
        AnalyzeText.parse_eslint_report (AnalyzeText.Lines lines) = ([], Py.Ok d)
        /\ AnalyzeText.display_sorted_results d = (out, Py.Ok tt)
        /\ Forall (fun b => fst b = Py.sum (snd b)) (AnalyzeText.folder_blocks out)
        /\ Py.sum (map fst (AnalyzeText.folder_blocks out))
           = length (filter AnalyzeText.counted lines)).
Proof.
  intros Hwf. split.
  - destruct (JsonInv.display_aggregate relpath r) as (out & E & Ht & Hb).
    destruct (JsonInv.aggregate_inv relpath r) as [_ _ Hnd].
    exists (JsonLoop.run relpath r), out.
    split; [apply JsonLoop.aggregate_run; exact (proj1 Hwf)|].
    split; [exact E|]. rewrite Hb. split.
    + rewrite Forall_map, Forall_forall. intros e He.
      apply (Permutation_in _ (PyFacts.sorted_desc_perm _)) in He.
      unfold AnalyzeJson.dir_totals in He. apply in_map_iff in He.
      destruct He as ([k fs] & <- & Hin).
      cbn [JsonDisplay.dir_block_of AnalyzeJson.db_total AnalyzeJson.db_files fst snd].
      unfold AnalyzeJson.lookup.
      erewrite PyFacts.in_get; [|exact pystr_eqb_eq|exact Hnd|exact Hin].
      rewrite map_map. cbn [JsonDisplay.file_block_of AnalyzeJson.fb_total].
      symmetry.
      etransitivity;
        [apply (PyFacts.sum_sorted_desc (AnalyzeJson.file_totals fs))|].
      unfold AnalyzeJson.file_totals, AnalyzeJson.files_total, Py.values.
      rewrite !map_map. reflexivity.
    + rewrite Ht. f_equal. rewrite map_map.
      cbn [JsonDisplay.dir_block_of AnalyzeJson.db_total].
      etransitivity; [apply JsonFacts.aggregate_total_wf; exact Hwf|].
      symmetry.
      apply (PyFacts.sum_sorted_desc
               (AnalyzeJson.dir_totals
                  (AnalyzeJson.issues_by_dir (JsonLoop.run relpath r)))).
  - assert (Hnd : NoDup (Py.keys (fold_left AnalyzeText.count_line lines [])))
      by (apply TextFacts.count_lines_nodup; constructor).
    edestruct TextFacts.display_sorted_results_view as (out & E & Hb & Hs);
      [exact Hnd|].
    exists (fold_left AnalyzeText.count_line lines []), out.
    split; [reflexivity|]. split; [exact E|]. split; [exact Hb|].
    rewrite Hs, TextFacts.count_lines_total. reflexivity.
Qed.

(** C3: on a report whose entries with messages name their files, the
    loop of [parse_eslint_report] and the display end normally, and the
    lines printed are, read back, one block for every directory of the
    aggregation with its total, in non-increasing order of the totals;
    in it one block for every file of the directory with its total, in
    non-increasing order of the totals; and in it the rule lines in
    non-increasing order of their counts: at most five rules, which are
    rules of the file with the highest counts, and the "more rule types"
    line, printed exactly when rules are left over, with their number. *)
Theorem C3_display_sorted_and_truncated
    (relpath : pystr -> pystr) (r : AnalyzeJson.report) :
  AnalyzeJson.paths_given r ->
  exists a out,
    AnalyzeJson.aggregate relpath r = ([], Py.Ok a)
    /\ AnalyzeJson.display_analysis a = (out, Py.Ok tt)
    /\ AnalyzeJson.dir_blocks out
       = map (JsonDisplay.dir_block_of (AnalyzeJson.issues_by_dir a))
           (Py.sorted_desc
              (AnalyzeJson.dir_totals (AnalyzeJson.issues_by_dir a)))
    /\ Permutation (map AnalyzeJson.db_name (AnalyzeJson.dir_blocks out))
         (Py.keys (AnalyzeJson.issues_by_dir a))
    /\ StronglySorted
         (fun b1 b2 => AnalyzeJson.db_total b2 <= AnalyzeJson.db_total b1)
         (AnalyzeJson.dir_blocks out)
    /\ Forall
         (fun b =>
            let fs := AnalyzeJson.lookup (AnalyzeJson.db_name b)
                        (AnalyzeJson.issues_by_dir a) [] in
            AnalyzeJson.db_total b = AnalyzeJson.files_total fs
            /\ Permutation (map AnalyzeJson.fb_name (AnalyzeJson.db_files b))
                 (Py.keys fs)
            /\ StronglySorted
                 (fun f1 f2 => AnalyzeJson.fb_total f2 <= AnalyzeJson.fb_total f1)
                 (AnalyzeJson.db_files b)
            /\ Forall
                 (fun fb =>
                    let rules := AnalyzeJson.lookup (AnalyzeJson.fb_name fb) fs [] in
                    AnalyzeJson.fb_total fb = AnalyzeJson.rules_total rules
                    /\ AnalyzeJson.fb_rules fb
                       = firstn 5 (Py.sorted_desc rules)
                    /\ StronglySorted (fun x y => snd y <= snd x)
                         (AnalyzeJson.fb_rules fb)
                    /\ length (AnalyzeJson.fb_rules fb) <= 5
                    /\ exists rest,
                         Permutation (AnalyzeJson.fb_rules fb ++ rest) rules
                         /\ (forall x y, In x (AnalyzeJson.fb_rules fb) ->
                                         In y rest -> snd y <= snd x)
                         /\ (rest <> [] -> length (AnalyzeJson.fb_rules fb) = 5)
                         /\ AnalyzeJson.fb_more fb
                            = match rest with
                              | [] => None
                              | _ :: _ => Some (length rest)
                              end)
                 (AnalyzeJson.db_files b))
         (AnalyzeJson.dir_blocks out).
Proof.
  intros Hpaths.
  destruct (JsonInv.display_aggregate relpath r) as (out & E & _ & Hb).
  destruct (JsonInv.aggregate_inv relpath r) as [_ _ Hnd].
  exists (JsonLoop.run relpath r), out.
  split; [apply JsonLoop.aggregate_run; exact Hpaths|].
  split; [exact E|]. split; [exact Hb|]. rewrite Hb.
  set (i := AnalyzeJson.issues_by_dir (JsonLoop.run relpath r)) in *.
  split; [|split].
  - rewrite map_map. cbn [JsonDisplay.dir_block_of AnalyzeJson.db_name].
    etransitivity;
      [apply Permutation_map; apply PyFacts.sorted_desc_perm|].
    unfold AnalyzeJson.dir_totals, Py.keys. rewrite map_map. reflexivity.
  - apply strongly_sorted_map. apply PyFacts.sorted_desc_sorted.
  - rewrite Forall_map, Forall_forall. intros e He.
    cbn [JsonDisplay.dir_block_of AnalyzeJson.db_files AnalyzeJson.db_name
         AnalyzeJson.db_total].
    cbv zeta.
    apply (Permutation_in _ (PyFacts.sorted_desc_perm _)) in He.
    unfold AnalyzeJson.dir_totals in He. apply in_map_iff in He.
    destruct He as ([k fs] & <- & Hin). cbn [fst snd] in *.
    assert (Hfs : AnalyzeJson.lookup k i [] = fs).
    { unfold AnalyzeJson.lookup.
      erewrite PyFacts.in_get; [|exact pystr_eqb_eq|exact Hnd|exact Hin].
      reflexivity. }
    rewrite Hfs.
    assert (Hndf : NoDup (Py.keys fs)).
    { pose proof (JsonInv.aggregate_distinct relpath r) as Hd.
      unfold JsonInv.files_distinct in Hd. rewrite Forall_forall in Hd.
      exact (Hd _ Hin). }
    split; [|split; [|split]].
    + reflexivity.
    + rewrite map_map. cbn [JsonDisplay.file_block_of AnalyzeJson.fb_name].
      etransitivity;
        [apply Permutation_map; apply PyFacts.sorted_desc_perm|].
      unfold AnalyzeJson.file_totals, Py.keys. rewrite map_map. reflexivity.
    + apply strongly_sorted_map. apply PyFacts.sorted_desc_sorted.
    + rewrite Forall_map, Forall_forall. intros fe Hfe.
      cbn [JsonDisplay.file_block_of AnalyzeJson.fb_rules AnalyzeJson.fb_name
           AnalyzeJson.fb_more AnalyzeJson.fb_total].
      set (rules := AnalyzeJson.lookup (fst fe) fs []).
      pose proof (PyFacts.sorted_desc_sorted rules) as Hs.
      pose proof (PyFacts.sorted_desc_perm rules) as Hp.
      set (sr := Py.sorted_desc rules) in *.
      split.
      { apply (Permutation_in _ (PyFacts.sorted_desc_perm _)) in Hfe.
        unfold AnalyzeJson.file_totals in Hfe. apply in_map_iff in Hfe.
        destruct Hfe as ([kf rs] & <- & Hinf). cbn [fst snd] in *.
        unfold rules, AnalyzeJson.lookup.
        erewrite PyFacts.in_get; [|exact pystr_eqb_eq|exact Hndf|exact Hinf].
        reflexivity. }
      split; [reflexivity|].
      split; [apply PyFacts.sorted_firstn; exact Hs|].
      split; [apply firstn_le_length|].
      exists (skipn 5 sr).
      split; [rewrite firstn_skipn; exact Hp|].
      split; [apply PyFacts.sorted_split; exact Hs|].
      split.
      * intros Hne. rewrite length_firstn.
        destruct (Nat.le_gt_cases (length sr) 5) as [Hle|Hgt]; [|lia].
        exfalso. apply Hne. apply skipn_nil_iff. exact Hle.
      * unfold JsonDisplay.more_of.
        destruct (5 <? length sr) eqn:E5.
        -- apply Nat.ltb_lt in E5.
           destruct (skipn 5 sr) eqn:Es.
           ++ apply skipn_nil_iff in Es. lia.
           ++ rewrite <- Es, length_skipn. reflexivity.
        -- apply Nat.ltb_ge in E5.
           rewrite (proj2 (skipn_nil_iff 5 sr) E5). reflexivity.
Qed.

Lemma C1_totals_witness :
  let r := [AnalyzeJson.FileReport (Some (s "src/a.ts"))
              [AnalyzeJson.Message (Some (AnalyzeJson.RStr (s "no-explicit-any")));
               AnalyzeJson.Message None];
            AnalyzeJson.FileReport (Some (s "src/b.ts")) [];
            AnalyzeJson.FileReport (Some (s "lib/c.ts"))
              [AnalyzeJson.Message (Some AnalyzeJson.RNone)]] in
  exists a out,
    AnalyzeJson.aggregate (fun p => p) r = ([], Py.Ok a)
    /\ AnalyzeJson.display_analysis a = (out, Py.Ok tt)
    /\ Forall (fun b => AnalyzeJson.db_total b
                        = Py.sum (map AnalyzeJson.fb_total (AnalyzeJson.db_files b)))
         (AnalyzeJson.dir_blocks out)
    /\ AnalyzeJson.displayed_total out
       = Some (Py.sum (map AnalyzeJson.db_total (AnalyzeJson.dir_blocks out))).
Proof.
  intros r.
  apply (@C1_directory_and_grand_totals_add_up (fun p => p) r []).
  unfold AnalyzeJson.well_formed. split.
  - unfold AnalyzeJson.paths_given. repeat constructor.
  - vm_compute.
    constructor; [intros [H|[]]; discriminate H|].
    constructor; [intros []|constructor].
Defined.

Lemma C3_display_witness :
  let semi := AnalyzeJson.Message (Some (AnalyzeJson.RStr (s "semi"))) in
  let quotes := AnalyzeJson.Message (Some (AnalyzeJson.RStr (s "quotes"))) in
  let r := [AnalyzeJson.FileReport (Some (s "src/a.ts")) [semi];
            AnalyzeJson.FileReport (Some (s "lib/b.ts")) [semi; quotes; semi]] in
  exists a out,
    AnalyzeJson.aggregate (fun p => p) r = ([], Py.Ok a)
    /\ AnalyzeJson.display_analysis a = (out, Py.Ok tt)
    /\ AnalyzeJson.dir_blocks out
       = map (JsonDisplay.dir_block_of (AnalyzeJson.issues_by_dir a))
           (Py.sorted_desc
              (AnalyzeJson.dir_totals (AnalyzeJson.issues_by_dir a))).
Proof.
  intros semi quotes r.
  destruct (@C3_display_sorted_and_truncated (fun p => p) r)
    as (a & out & H1 & H2 & H3 & _).
  - unfold AnalyzeJson.paths_given. repeat constructor.
  - exists a, out. auto.
Defined.

(** ** Further properties of the code *)

Import ReSem.

(** *** Substitution where the pattern does not match *)

Module SubFacts.

Import ReFacts.

Lemma startswith_iff (p l : pystr) :
  startswith p l = true <-> exists r, l = p ++ r.
Proof.
  unfold startswith. split.
  - destruct (strip_prefix p l) as [r|] eqn:E; [|discriminate].
    intros _. exists r. apply strip_prefix_inv. exact E.
  - intros [r ->]. rewrite strip_prefix_app. reflexivity.
Qed.

(** [needle in hay] holds exactly when the needle is a substring. *)
Lemma contains_iff (needle hay : pystr) :
  contains needle hay = true <-> exists a b, hay = a ++ needle ++ b.
Proof.
  induction hay as [|c hay IH]; cbn [contains].
  - rewrite orb_false_r, startswith_iff. split.
    + intros [r E]. exists [], r. exact E.
    + intros (a & b & E). destruct a; [|discriminate]. exists b. exact E.
  - rewrite orb_true_iff, startswith_iff, IH. split.
    + intros [[r E] | (a & b & E)].
      * exists [], r. exact E.
      * exists (c :: a), b. cbn. rewrite E. reflexivity.
    + intros (a & b & E). destruct a as [|x a].
      * left. exists b. exact E.
      * right. cbn in E. injection E as -> E. exists a, b. exact E.
Qed.

Lemma contains_inside (needle a w b : pystr) :
  contains needle w = true -> contains needle (a ++ w ++ b) = true.
Proof.
  rewrite !contains_iff. intros (x & y & ->).
  exists (a ++ x), (y ++ b). rewrite <- !app_assoc. reflexivity.
Qed.

(** Every match of the pattern contains the literal text [l]. *)
Fixpoint needs (l : pystr) (r : re) : bool :=
  match r with
  | Lit l' => contains l l'
  | Cat r1 r2 => needs l r1 || needs l r2
  | Alt r1 r2 => needs l r1 && needs l r2
  | Grp _ r1 => needs l r1
  | _ => false
  end.

Lemma needs_sound (l : pystr) (r : re) : forall st st',
  needs l r = true -> sem r st st' ->
  exists w, rest st = w ++ rest st' /\ contains l w = true.
Proof.
  induction r as [l'|c|r1 IH1 r2 IH2|r1 IH1 r2 IH2|n r1 IH1|g plus c|c| |];
    intros st st' Hn Hs; cbn [needs] in Hn; try discriminate; cbn [sem] in Hs.
  - destruct Hs as (rs & E & ->). apply strip_prefix_inv in E.
    exists l'. cbn [rest]. auto.
  - destruct Hs as (mid & H1 & H2).
    destruct (sem_consumes _ _ _ H1) as (w1 & E1 & _).
    destruct (sem_consumes _ _ _ H2) as (w2 & E2 & _).
    exists (w1 ++ w2). split; [rewrite E1, E2, app_assoc; reflexivity|].
    apply orb_true_iff in Hn. destruct Hn as [Hn|Hn].
    + destruct (IH1 _ _ Hn H1) as (w & E & Hc).
      rewrite E1 in E. apply app_inv_tail in E. subst w.
      apply (contains_inside l [] w1 w2) in Hc. exact Hc.
    + destruct (IH2 _ _ Hn H2) as (w & E & Hc).
      rewrite E2 in E. apply app_inv_tail in E. subst w.
      pose proof (contains_inside l w1 w2 [] Hc) as H.
      rewrite app_nil_r in H. exact H.
  - apply andb_true_iff in Hn. destruct Hn as [Ha Hb].
    destruct Hs as [Hs|Hs]; eauto.
  - destruct Hs as (mid & H1 & ->). cbn [set_cap rest]. eauto.
Qed.

(** A text without the literal has no match of a pattern that needs it. *)
Lemma needs_no_match (l : pystr) (r : re) (text : pystr) :
  needs l r = true -> contains l text = false -> no_match r text.
Proof.
  intros Hn Hc sn rs E. apply match_at_none_iff. intros st' Hs.
  destruct (needs_sound l r _ _ Hn Hs) as (w & Ew & Hw). cbn [rest] in Ew.
  assert (H : contains l text = true).
  { subst text rs. apply contains_inside. exact Hw. }
  congruence.
Qed.

Lemma subn_scan_no_match (r : re) (tpl : list titem) (rs : pystr) : forall sn,
  (forall pre rs', rs = pre ++ rs' -> match_at r (rev pre ++ sn) rs' = None) ->
  subn_scan r tpl sn rs 0 = (rs, 0).
Proof.
  induction rs as [|c rs IH]; intros sn H; cbn [subn_scan].
  - pose proof (H [] [] eq_refl) as H0. cbn [rev app] in H0.
    rewrite H0. reflexivity.
  - pose proof (H [] (c :: rs) eq_refl) as H0. cbn [rev app] in H0.
    rewrite H0. rewrite IH; [reflexivity|].
    intros pre rs' E. specialize (H (c :: pre) rs').
    cbn [rev app] in H. rewrite <- app_assoc in H. cbn [app] in H.
    apply H. rewrite E. reflexivity.
Qed.

(** Where the pattern matches nowhere, [re.subn] returns the text and
    counts nothing. *)
Lemma subn_no_match (r : re) (tpl : list titem) (text : pystr) :
  no_match r text -> subn r tpl text = (text, 0).
Proof.
  intros H. unfold subn. apply subn_scan_no_match.
  intros pre rs' E. rewrite app_nil_r. apply H.
  rewrite rev_involutive. exact E.
Qed.

Lemma search_from_no_match (r : re) (rs : pystr) : forall sn,
  (forall pre rs', rs = pre ++ rs' -> match_at r (rev pre ++ sn) rs' = None) ->
  search_from r sn rs = false.
Proof.
  induction rs as [|c rs IH]; intros sn H; cbn [search_from].
  - pose proof (H [] [] eq_refl) as H0. cbn [rev app] in H0.
    rewrite H0. reflexivity.
  - pose proof (H [] (c :: rs) eq_refl) as H0. cbn [rev app] in H0.
    rewrite H0. apply IH.
    intros pre rs' E. specialize (H (c :: pre) rs').
    cbn [rev app] in H. rewrite <- app_assoc in H. cbn [app] in H.
    apply H. rewrite E. reflexivity.
Qed.

Lemma search_no_match (r : re) (text : pystr) :
  no_match r text -> search r text = false.
Proof.
  intros H. unfold search. apply search_from_no_match.
  intros pre rs' E. rewrite app_nil_r. apply H.
  rewrite rev_involutive. exact E.
Qed.

Lemma search_from_false (r : re) (rs : pystr) : forall sn,
  search_from r sn rs = false ->
  forall pre rs', rs = pre ++ rs' -> match_at r (rev pre ++ sn) rs' = None.
Proof.
  induction rs as [|c rs IH]; intros sn H pre rs' E; cbn [search_from] in H.
  - symmetry in E. apply app_eq_nil in E. destruct E as [-> ->].
    cbn [rev app].
    destruct (match_at r sn []); [discriminate|reflexivity].
  - destruct (match_at r sn (c :: rs)) eqn:Em; [discriminate|].
    destruct pre as [|x pre]; cbn [app] in E.
    + subst rs'. cbn [rev app]. exact Em.
    + injection E as <- E. cbn [rev]. rewrite <- app_assoc. cbn [app].
      apply (IH _ H). exact E.
Qed.

(** [pattern.search] finds nothing exactly when there is no match. *)
Lemma search_false_iff (r : re) (text : pystr) :
  search r text = false <-> no_match r text.
Proof.
  split; [|apply search_no_match].
  intros H sn rs E. unfold search in H.
  pose proof (@search_from_false r text [] H (rev sn) rs E) as Hm.
  rewrite rev_involutive, app_nil_r in Hm. exact Hm.
Qed.

(** A substitution that reports no replacement returns its input. *)
Lemma subn_scan_zero (r : re) (tpl : list titem) (rs : pystr) : forall sn,
  snd (subn_scan r tpl sn rs 0) = 0 -> fst (subn_scan r tpl sn rs 0) = rs.
Proof.
  induction rs as [|c rs IH]; intros sn H; cbn [subn_scan] in *.
  - destruct (match_at r sn []); [discriminate H|reflexivity].
  - destruct (match_at r sn (c :: rs)) as [m|].
    + destruct (subn_scan r tpl (c :: sn) rs (mlen sn m - 1)) as [out n].
      destruct (mlen sn m); discriminate H.
    + specialize (IH (c :: sn)).
      destruct (subn_scan r tpl (c :: sn) rs 0) as [out n].
      cbn [fst snd] in *. rewrite IH by exact H. reflexivity.
Qed.

Lemma subn_zero (r : re) (tpl : list titem) (text : pystr) :
  snd (subn r tpl text) = 0 -> fst (subn r tpl text) = text.
Proof. apply subn_scan_zero. Qed.

End SubFacts.

Module AnyFacts.

Import SubFacts.

Lemma apply_replacements_no_match (rs : list (re * list titem)) :
  forall (content : pystr) (fixes : nat),
  Forall (fun p => no_match (fst p) content) rs ->
  FixEslintIssues.apply_replacements rs (content, fixes) = (content, fixes).
Proof.
  unfold FixEslintIssues.apply_replacements.
  induction rs as [|p rs IH]; intros content fixes H; cbn [fold_left];
    [reflexivity|].
  inversion H as [|? ? Hp Hrs]. subst. cbn [fst snd].
  rewrite (subn_no_match (snd p) Hp). rewrite Nat.add_0_r. apply IH. exact Hrs.
Qed.

Lemma apply_replacements_count (rs : list (re * list titem)) :
  forall (st : pystr * nat),
  snd st <= snd (FixEslintIssues.apply_replacements rs st)
  /\ (snd (FixEslintIssues.apply_replacements rs st) = snd st ->
      fst (FixEslintIssues.apply_replacements rs st) = fst st).
Proof.
  unfold FixEslintIssues.apply_replacements.
  induction rs as [|p rs IH]; intros st; cbn [fold_left]; [auto|].
  pose proof (subn_zero (fst p) (snd p) (fst st)) as Hz.
  destruct (subn (fst p) (snd p) (fst st)) as [c1 n1]. cbn [fst snd] in Hz.
  destruct (IH (c1, snd st + n1)) as [Hle Heq]. cbn [fst snd] in *.
  split; [lia|].
  intros E. assert (n1 = 0) by lia. subst n1.
  rewrite Heq by lia. apply Hz. reflexivity.
Qed.

Lemma steps_no_match (ps : list (re * pystr)) :
  forall (content : pystr) (modified : bool),
  Forall (fun p => no_match (fst p) content) ps ->
  fold_left FixAnyTypes.step ps (content, modified) = (content, modified).
Proof.
  induction ps as [|p ps IH]; intros content modified H; cbn [fold_left];
    [reflexivity|].
  inversion H as [|? ? Hp Hps]. subst. cbn [FixAnyTypes.step].
  rewrite (search_no_match Hp). apply IH. exact Hps.
Qed.

(** The guard [if pattern.search(...)] does not change what is written:
    the content is that of the eight substitutions applied in turn. *)
Lemma steps_are_subs (ps : list (re * pystr)) :
  forall (content : pystr) (modified : bool),
  fst (fold_left FixAnyTypes.step ps (content, modified))
  = fold_left (fun c p => sub (fst p) [TLit (snd p)] c) ps content.
Proof.
  induction ps as [|p ps IH]; intros content modified; cbn [fold_left];
    [reflexivity|].
  cbn [FixAnyTypes.step]. destruct (search (fst p) content) eqn:E.
  - apply IH.
  - apply search_false_iff in E. unfold sub at 2.
    rewrite (subn_no_match [TLit (snd p)] E). apply IH.
Qed.

Lemma contains_refl (l : pystr) : contains l l = true.
Proof. apply contains_iff. exists [], []. rewrite app_nil_r. reflexivity. Qed.

Lemma patterns_need_variable (variable : pystr) :
  Forall (fun p => needs variable (fst p) = true)
         (FixAllUnusedVars.patterns variable).
Proof.
  unfold FixAllUnusedVars.patterns, FixAllUnusedVars.escaped.
  repeat constructor; cbn [fst needs];
    rewrite contains_refl; rewrite ?orb_true_r, ?orb_true_l; reflexivity.
Qed.

Lemma apply_patterns_no_match (ps : list (re * list titem)) (content : pystr) :
  Forall (fun p => no_match (fst p) content) ps ->
  FixAllUnusedVars.apply_patterns ps content = content.
Proof.
  unfold FixAllUnusedVars.apply_patterns.
  induction ps as [|p ps IH]; intros H; cbn [fold_left]; [reflexivity|].
  inversion H as [|? ? Hp Hps]. subst. unfold sub.
  rewrite (subn_no_match (snd p) Hp). cbn [fst]. apply IH. exact Hps.
Qed.

End AnyFacts.

(** X1: a file in which the text [any] does not occur is left as it is
    by [fix_no_explicit_any], with no fix counted (so it is not written
    back). *)
Theorem X1_no_any_no_fix (content : pystr) :
  contains (s "any") content = false ->
  FixEslintIssues.fix_no_explicit_any content = (content, 0).
Proof.
  intros H. unfold FixEslintIssues.fix_no_explicit_any.
  apply AnyFacts.apply_replacements_no_match.
  assert (Hn : Forall (fun p => SubFacts.needs (s "any") (fst p) = true)
                      FixEslintIssues.replacements).
  { apply Forall_forall. apply forallb_forall. vm_compute. reflexivity. }
  eapply Forall_impl; [|exact Hn].
  intros p Hp. cbv beta in Hp. eapply SubFacts.needs_no_match; eauto.
Qed.

Lemma X1_no_any_witness :
  FixEslintIssues.fix_no_explicit_any (s "const n: number = 1;")
  = (s "const n: number = 1;", 0).
Proof. apply X1_no_any_no_fix. vm_compute. reflexivity. Defined.

(** X3: [fix_any_types] leaves a file without the text [any] as it is
    and does not mark it modified; and its [search] guards are
    redundant: for every content, the content after the eight guarded
    steps is that of the eight substitutions applied in turn. *)
Theorem X3_fix_any_types_content (content : pystr) :
  (contains (s "any") content = false ->
   FixAnyTypes.fix_content content = (content, false))
  /\ fst (FixAnyTypes.fix_content content)
     = fold_left (fun c p => sub (fst p) [TLit (snd p)] c)
         FixAnyTypes.steps content.
Proof.
  unfold FixAnyTypes.fix_content. split.
  - intros H. apply AnyFacts.steps_no_match.
    assert (Hn : Forall (fun p => SubFacts.needs (s "any") (fst p) = true)
                        FixAnyTypes.steps).
    { apply Forall_forall. apply forallb_forall. vm_compute. reflexivity. }
    eapply Forall_impl; [|exact Hn].
    intros p Hp. cbv beta in Hp. eapply SubFacts.needs_no_match; eauto.
  - apply AnyFacts.steps_are_subs.
Qed.

Lemma X3_fix_any_types_witness :
  FixAnyTypes.fix_content (s "export const n = 1;")
  = (s "export const n = 1;", false).
Proof.
  apply (proj1 (X3_fix_any_types_content (s "export const n = 1;"))).
  vm_compute. reflexivity.
Defined.

(** X5: the declaration-pattern rewriter leaves the content as it is for
    every flagged name that does not occur in it. *)
Theorem X5_absent_variables_change_nothing
    (content : pystr) (variables : list pystr) :
  Forall (fun v => contains v content = false) variables ->
  FixAllUnusedVars.fix_unused_vars content variables = content.
Proof.
  unfold FixAllUnusedVars.fix_unused_vars.
  induction 1 as [|v vs Hv _ IH]; cbn [fold_left]; [reflexivity|].
  assert (E : FixAllUnusedVars.fix_variable content v = content).
  { unfold FixAllUnusedVars.fix_variable.
    destruct (contains (s "_" ++ v) content); [reflexivity|].
    apply AnyFacts.apply_patterns_no_match.
    eapply Forall_impl; [|apply AnyFacts.patterns_need_variable].
    intros p Hp. cbv beta in Hp. eapply SubFacts.needs_no_match; eauto. }
  rewrite E. exact IH.
Qed.

Lemma X5_absent_variables_witness :
  FixAllUnusedVars.fix_unused_vars (s "const used = 5;") [s "unused"; s "x"]
  = s "const used = 5;".
Proof.
  apply X5_absent_variables_change_nothing.
  repeat constructor.
Defined.

Module MarkFacts.

Import ReFacts SubFacts AnyFacts.

Lemma contains_trans (a b c : pystr) :
  contains a b = true -> contains b c = true -> contains a c = true.
Proof.
  intros Hab Hbc. apply contains_iff in Hbc. destruct Hbc as (x & y & ->).
  apply contains_inside. exact Hab.
Qed.

(** A substitution that counts a replacement has put the expansion of a
    match into its result. *)
Lemma subn_scan_some (r : re) (tpl : list titem) (rs : pystr) :
  forall sn skip out n,
  subn_scan r tpl sn rs skip = (out, S n) ->
  exists sn' rs' m,
    match_at r sn' rs' = Some m /\ contains (expand tpl m) out = true.
Proof.
  induction rs as [|c rs IH]; intros sn skip out n H; cbn [subn_scan] in H.
  - destruct skip; [|discriminate].
    destruct (match_at r sn []) as [m|] eqn:E; [|discriminate].
    injection H as <- _. exists sn, [], m. split; [exact E|apply contains_refl].
  - destruct skip as [|j]; [|exact (IH _ _ _ _ H)].
    destruct (match_at r sn (c :: rs)) as [m|] eqn:E.
    + destruct (subn_scan r tpl (c :: sn) rs (mlen sn m - 1)) as [out' n'].
      exists sn, (c :: rs), m. split; [exact E|].
      apply contains_iff. exists [].
      destruct (mlen sn m); injection H as <- _; eexists; reflexivity.
    + destruct (subn_scan r tpl (c :: sn) rs 0) as [out' n'] eqn:E'.
      injection H as <- ->.
      destruct (IH _ _ _ _ E') as (sn' & rs' & m & Hm & Hc).
      exists sn', rs', m. split; [exact Hm|].
      apply (contains_inside _ [c] out' []) in Hc.
      rewrite app_nil_r in Hc. exact Hc.
Qed.

Lemma sub_marks (mark : pystr) (p : re * list titem) (c : pystr) :
  (forall sn rs m, match_at (fst p) sn rs = Some m ->
                   contains mark (expand (snd p) m) = true) ->
  sub (fst p) (snd p) c = c \/ contains mark (sub (fst p) (snd p) c) = true.
Proof.
  intros Hp. unfold sub.
  pose proof (subn_zero (fst p) (snd p) c) as Hz.
  unfold subn in *.
  destruct (subn_scan (fst p) (snd p) [] c 0) as [out [|n]] eqn:E; cbn [fst snd] in *.
  - left. apply Hz. reflexivity.
  - right. destruct (subn_scan_some _ _ _ _ _ E) as (sn' & rs' & m & Hm & Hc).
    eapply contains_trans; [|exact Hc]. eapply Hp. exact Hm.
Qed.

(** Where every expansion holds [mark], a pass of the patterns either
    changes nothing or leaves a text that holds [mark]. *)
Lemma apply_patterns_marks (mark : pystr) (ps : list (re * list titem)) :
  Forall (fun p => forall sn rs m,
            match_at (fst p) sn rs = Some m ->
            contains mark (expand (snd p) m) = true) ps ->
  forall c : pystr,
  (contains mark c = true ->
   contains mark (FixAllUnusedVars.apply_patterns ps c) = true)
  /\ (FixAllUnusedVars.apply_patterns ps c = c
      \/ contains mark (FixAllUnusedVars.apply_patterns ps c) = true).
Proof.
  unfold FixAllUnusedVars.apply_patterns.
  induction 1 as [|p ps' Hp _ IH]; intros c; cbn [fold_left]; [auto|].
  destruct (IH (sub (fst p) (snd p) c)) as [IH1 IH2].
  destruct (sub_marks mark p c Hp) as [E|Hc].
  - rewrite E in *. split; [|exact IH2].
    intros H. destruct IH2 as [E2|H2]; [rewrite E2; exact H|exact H2].
  - split; [intros _; exact (IH1 Hc)|right; exact (IH1 Hc)].
Qed.

Lemma expand_plain (m : mstate) :
  expand FixAllUnusedVars.tpl_plain m
  = group 1 m ++ (s "_" ++ group 2 m) ++ group 3 m.
Proof.
  unfold expand, FixAllUnusedVars.tpl_plain. cbn [map concat].
  rewrite app_nil_r, <- !app_assoc. reflexivity.
Qed.

Lemma expand_space (m : mstate) :
  expand FixAllUnusedVars.tpl_space m
  = (group 1 m ++ s " ") ++ (s "_" ++ group 2 m) ++ group 3 m.
Proof.
  unfold expand, FixAllUnusedVars.tpl_space. cbn [map concat].
  rewrite app_nil_r, <- !app_assoc. reflexivity.
Qed.

(** In a match of one of the nine patterns the second group is the
    flagged name, so the expansion holds the prefixed name. *)
Lemma patterns_mark (variable : pystr) :
  Forall (fun p => forall sn rs m,
            match_at (fst p) sn rs = Some m ->
            contains (s "_" ++ variable) (expand (snd p) m) = true)
         (FixAllUnusedVars.patterns variable).
Proof.
  unfold FixAllUnusedVars.patterns, FixAllUnusedVars.escaped,
    FixAllUnusedVars.set.
  repeat (apply Forall_cons;
    [cbn [fst snd]; intros sn rs m H;
     apply match_at_sem in H; cbn [sem] in H; repeat sem_step;
     rewrite ?expand_plain, ?expand_space;
     apply contains_inside;
     unfold group, set_cap; cbn [get_cap caps Nat.eqb seen rest];
     rewrite ?captured_app; apply contains_refl|]).
  apply Forall_nil.
Qed.

End MarkFacts.

(** X6: applying the declaration patterns for a name a second time
    changes nothing: wherever the first pass rewrote the content, the
    result holds the prefixed name, which makes the second pass skip. *)
Theorem X6_fix_variable_idempotent (content variable : pystr) :
  FixAllUnusedVars.fix_variable
    (FixAllUnusedVars.fix_variable content variable) variable
  = FixAllUnusedVars.fix_variable content variable
  /\ (FixAllUnusedVars.fix_variable content variable <> content ->
      contains (s "_" ++ variable)
        (FixAllUnusedVars.fix_variable content variable) = true).
Proof.
  unfold FixAllUnusedVars.fix_variable.
  destruct (contains (s "_" ++ variable) content) eqn:E.
  - rewrite E. split; [reflexivity|]. intros H. exfalso. apply H. reflexivity.
  - destruct (@MarkFacts.apply_patterns_marks _ _
                (MarkFacts.patterns_mark variable) content) as [_ [Ec|Hc]].
    + rewrite Ec, E. split; [exact Ec|]. intros H. exfalso. apply H. reflexivity.
    + rewrite Hc. split; [reflexivity|]. intros _. reflexivity.
Qed.

Lemma X6_fix_variable_witness :
  contains (s "_" ++ s "b")
    (FixAllUnusedVars.fix_variable (s "function f(a, b) {}") (s "b")) = true.
Proof.
  apply (proj2 (X6_fix_variable_idempotent (s "function f(a, b) {}") (s "b"))).
  vm_compute. discriminate.
Defined.

Module KeepFacts.

Import ReFacts SubFacts.

(** A pattern without capturing groups. *)
Fixpoint nogrp (r : re) : bool :=
  match r with
  | Cat r1 r2 | Alt r1 r2 => nogrp r1 && nogrp r2
  | Grp _ _ => false
  | _ => true
  end.

Lemma nogrp_caps (r : re) : forall st st',
  nogrp r = true -> sem r st st' -> caps st' = caps st.
Proof.
  induction r as [l|c|r1 IH1 r2 IH2|r1 IH1 r2 IH2|n r1 IH1|g plus c|c| |];
    intros st st' Hn Hs; cbn [nogrp] in Hn; try discriminate; cbn [sem] in Hs.
  - destruct Hs as (rs & _ & ->). reflexivity.
  - destruct Hs as (x & rs & _ & _ & ->). reflexivity.
  - apply andb_true_iff in Hn. destruct Hn as [Ha Hb].
    destruct Hs as (mid & H1 & H2).
    rewrite (IH2 _ _ Hb H2). exact (IH1 _ _ Ha H1).
  - apply andb_true_iff in Hn. destruct Hn as [Ha Hb].
    destruct Hs as [Hs|Hs]; eauto.
  - destruct Hs as (w & rs & _ & _ & _ & ->). reflexivity.
  - destruct Hs as [->|(x & rs & _ & _ & ->)]; reflexivity.
  - destruct Hs as [_ ->]. reflexivity.
  - destruct Hs as [_ ->]. reflexivity.
Qed.

Lemma captured_consumed (st mid : mstate) (w : pystr) :
  seen mid = rev w ++ seen st -> captured st mid = w.
Proof.
  destruct st as [sn rs cs]. destruct mid as [sn' rs' cs']. cbn [seen].
  intros ->. apply captured_app.
Qed.

(** A group whose body has no group records the text it consumed. *)
Lemma sem_group (n : nat) (r : re) (st st' : mstate) :
  nogrp r = true -> sem (Grp n r) st st' ->
  exists w, rest st = w ++ rest st'
            /\ seen st' = rev w ++ seen st
            /\ caps st' = (n, w) :: caps st.
Proof.
  intros Hn (mid & Hs & ->).
  destruct (sem_consumes _ _ _ Hs) as (w & E1 & E2).
  exists w. cbn [set_cap rest seen caps].
  rewrite (captured_consumed st mid w E2), (nogrp_caps _ _ _ Hn Hs). auto.
Qed.

Lemma sem_three_groups (a b c : re) (st m : mstate) :
  nogrp a = true -> nogrp b = true -> nogrp c = true ->
  sem (Cat (Grp 1 a) (Cat (Grp 2 b) (Grp 3 c))) st m ->
  exists w1 w2 w3,
    rest st = (w1 ++ w2 ++ w3) ++ rest m
    /\ seen m = rev (w1 ++ w2 ++ w3) ++ seen st
    /\ group 1 m = w1 /\ group 2 m = w2 /\ group 3 m = w3.
Proof.
  intros Ha Hb Hc (m1 & H1 & m2 & H2 & H3).
  destruct (sem_group Ha H1) as (w1 & E1 & F1 & G1).
  destruct (sem_group Hb H2) as (w2 & E2 & F2 & G2).
  destruct (sem_group Hc H3) as (w3 & E3 & F3 & G3).
  exists w1, w2, w3. unfold group. rewrite G3, G2, G1. cbn [get_cap Nat.eqb].
  rewrite E1, E2, E3, F3, F2, F1, !rev_app_distr, <- !app_assoc. auto.
Qed.

Lemma sem_three_groups_spaced (a b c : re) (st m : mstate) :
  nogrp a = true -> nogrp b = true -> nogrp c = true ->
  sem (Cat (Grp 1 a) (Cat (Rep Greedy true CSpace) (Cat (Grp 2 b) (Grp 3 c))))
    st m ->
  exists w1 ws w2 w3,
    rest st = (w1 ++ ws ++ w2 ++ w3) ++ rest m
    /\ seen m = rev (w1 ++ ws ++ w2 ++ w3) ++ seen st
    /\ forallb isspace ws = true
    /\ group 1 m = w1 /\ group 2 m = w2 /\ group 3 m = w3.
Proof.
  intros Ha Hb Hc (m1 & H1 & m0 & H0 & m2 & H2 & H3).
  destruct (sem_group Ha H1) as (w1 & E1 & F1 & G1).
  destruct H0 as (ws & rs & E0 & Hws & _ & ->). cbn [rest seen caps] in *.
  destruct (sem_group Hb H2) as (w2 & E2 & F2 & G2).
  destruct (sem_group Hc H3) as (w3 & E3 & F3 & G3).
  cbn [rest seen caps] in *.
  exists w1, ws, w2, w3. unfold group. rewrite G3, G2, G1. cbn [get_cap Nat.eqb].
  rewrite E1, E0, E2, E3, F3, F2, F1, !rev_app_distr, <- !app_assoc.
  repeat split; try reflexivity. exact Hws.
Qed.

Section Keep.

Variable keep : ascii -> bool.

(** A replacement that keeps the kept characters of every match keeps
    those of the whole text. *)
Definition keeps (r : re) (tpl : list titem) : Prop :=
  forall sn rs m, match_at r sn rs = Some m ->
    exists w, rs = w ++ rest m /\ seen m = rev w ++ sn
              /\ filter keep (expand tpl m) = filter keep w.

Lemma subn_scan_keeps (r : re) (tpl : list titem) :
  keeps r tpl ->
  forall rs sn skip,
  filter keep (fst (subn_scan r tpl sn rs skip)) = filter keep (skipn skip rs).
Proof.
  intros Hk. induction rs as [|c rs IH]; intros sn skip; cbn [subn_scan].
  - destruct skip; [|reflexivity].
    destruct (match_at r sn []) as [m|] eqn:E; [|reflexivity].
    destruct (Hk _ _ _ E) as (w & E1 & _ & E3).
    symmetry in E1. apply app_eq_nil in E1. destruct E1 as [-> _].
    cbn [fst skipn]. exact E3.
  - destruct skip as [|j]; [|cbn [skipn]; apply IH].
    cbn [skipn].
    destruct (match_at r sn (c :: rs)) as [m|] eqn:E.
    + destruct (Hk _ _ _ E) as (w & E1 & E2 & E3).
      specialize (IH (c :: sn) (mlen sn m - 1)).
      destruct (subn_scan r tpl (c :: sn) rs (mlen sn m - 1)) as [out n].
      cbn [fst] in IH.
      assert (Hl : mlen sn m = length w).
      { unfold mlen. rewrite E2, length_app, length_rev. lia. }
      rewrite Hl in *. destruct w as [|x w]; cbn [length] in *.
      * cbn [fst]. rewrite filter_app, E3. cbn [filter app].
        destruct (keep c); cbn [skipn] in IH; rewrite IH; reflexivity.
      * cbn [fst]. rewrite filter_app, E3, IH.
        cbn [app] in E1. injection E1 as -> ->.
        replace (S (length w) - 1) with (length w) by lia.
        rewrite skipn_app, skipn_all, Nat.sub_diag. cbn [skipn app].
        change (x :: w ++ rest m) with ((x :: w) ++ rest m).
        rewrite filter_app. reflexivity.
    + specialize (IH (c :: sn) 0).
      destruct (subn_scan r tpl (c :: sn) rs 0) as [out n].
      cbn [fst skipn] in *. cbn [filter]. rewrite IH. reflexivity.
Qed.

Lemma sub_keeps (r : re) (tpl : list titem) (text : pystr) :
  keeps r tpl -> filter keep (sub r tpl text) = filter keep text.
Proof.
  intros Hk. unfold sub, subn. apply (subn_scan_keeps Hk text [] 0).
Qed.

Lemma apply_patterns_keeps (ps : list (re * list titem)) :
  Forall (fun p => keeps (fst p) (snd p)) ps ->
  forall c, filter keep (FixAllUnusedVars.apply_patterns ps c) = filter keep c.
Proof.
  unfold FixAllUnusedVars.apply_patterns.
  induction 1 as [|p ps Hp _ IH]; intros c; cbn [fold_left]; [reflexivity|].
  rewrite IH. apply sub_keeps. exact Hp.
Qed.

End Keep.

(** The characters that the declaration rewriter leaves alone: all but
    whitespace and underscores. *)
Definition code_char (c : ascii) : bool := negb (isspace c || Ascii.eqb c "_").

Definition code_chars (l : pystr) : pystr := filter code_char l.

Lemma code_chars_spaces (ws : pystr) :
  forallb isspace ws = true -> filter code_char ws = [].
Proof.
  induction ws as [|c ws IH]; cbn [forallb filter]; [reflexivity|].
  intros H. apply andb_true_iff in H. destruct H as [Hc H].
  unfold code_char at 1. rewrite Hc. cbn. exact (IH H).
Qed.

Lemma keeps_plain (a b c : re) :
  nogrp a = true -> nogrp b = true -> nogrp c = true ->
  keeps code_char (Cat (Grp 1 a) (Cat (Grp 2 b) (Grp 3 c)))
        FixAllUnusedVars.tpl_plain.
Proof.
  intros Ha Hb Hc sn rs m H. apply match_at_sem in H.
  destruct (sem_three_groups Ha Hb Hc H) as (w1 & w2 & w3 & E & F & G1 & G2 & G3).
  cbn [rest seen] in E, F.
  exists (w1 ++ w2 ++ w3). split; [exact E|]. split; [exact F|].
  unfold expand, FixAllUnusedVars.tpl_plain. cbn [map concat].
  rewrite G1, G2, G3, app_nil_r, !filter_app. reflexivity.
Qed.

Lemma keeps_space (a b c : re) :
  nogrp a = true -> nogrp b = true -> nogrp c = true ->
  keeps code_char
        (Cat (Grp 1 a) (Cat (Rep Greedy true CSpace) (Cat (Grp 2 b) (Grp 3 c))))
        FixAllUnusedVars.tpl_space.
Proof.
  intros Ha Hb Hc sn rs m H. apply match_at_sem in H.
  destruct (sem_three_groups_spaced Ha Hb Hc H)
    as (w1 & ws & w2 & w3 & E & F & Hws & G1 & G2 & G3).
  cbn [rest seen] in E, F.
  exists (w1 ++ ws ++ w2 ++ w3). split; [exact E|]. split; [exact F|].
  unfold expand, FixAllUnusedVars.tpl_space. cbn [map concat].
  rewrite G1, G2, G3, app_nil_r, !filter_app, (code_chars_spaces _ Hws).
  reflexivity.
Qed.

Lemma patterns_keep (variable : pystr) :
  Forall (fun p => keeps code_char (fst p) (snd p))
         (FixAllUnusedVars.patterns variable).
Proof.
  unfold FixAllUnusedVars.patterns, FixAllUnusedVars.escaped.
  repeat (apply Forall_cons;
    [cbn [fst snd]; first [apply keeps_plain | apply keeps_space]; reflexivity|]).
  apply Forall_nil.
Qed.

Lemma fix_unused_vars_keeps (variables : list pystr) : forall content : pystr,
  code_chars (FixAllUnusedVars.fix_unused_vars content variables)
  = code_chars content.
Proof.
  unfold FixAllUnusedVars.fix_unused_vars, code_chars.
  induction variables as [|v vs IH]; intros content; cbn [fold_left];
    [reflexivity|].
  rewrite IH. unfold FixAllUnusedVars.fix_variable.
  destruct (contains (s "_" ++ v) content); [reflexivity|].
  apply apply_patterns_keeps. apply patterns_keep.
Qed.

End KeepFacts.

(** X7: the declaration-pattern rewriter changes nothing but whitespace
    and underscores: for every content and every list of flagged names,
    the characters of the result other than whitespace and underscores
    are those of the content, in the same order. *)
Theorem X7_declaration_rewriter_keeps_code_characters
    (content : pystr) (variables : list pystr) :
  KeepFacts.code_chars (FixAllUnusedVars.fix_unused_vars content variables)
  = KeepFacts.code_chars content.
Proof.
  apply KeepFacts.fix_unused_vars_keeps.
Qed.

(** *** Counting a character through a substitution *)

Module MeasureFacts.

Import ReFacts SubFacts KeepFacts.

Section Measure.

(** The character that is counted. *)
Variable ch : ascii.

Definition mu (l : pystr) : nat := length (filter (fun c => Ascii.eqb c ch) l).

Lemma mu_app (a b : pystr) : mu (a ++ b) = mu a + mu b.
Proof. unfold mu. rewrite filter_app, length_app. reflexivity. Qed.

Lemma mu_class (k : cclass) (w : pystr) :
  cmem k ch = false -> forallb (cmem k) w = true -> mu w = 0.
Proof.
  intros Hk. unfold mu.
  induction w as [|c w IH]; cbn [forallb filter]; [reflexivity|].
  intros H. apply andb_true_iff in H. destruct H as [Hc H].
  destruct (Ascii.eqb c ch) eqn:E; [|exact (IH H)].
  apply Ascii.eqb_eq in E. subst c. congruence.
Qed.

(** Every replacement adds one counted character. *)
Definition adds_one (r : re) (tpl : list titem) : Prop :=
  forall sn rs m, match_at r sn rs = Some m ->
    exists w, rs = w ++ rest m /\ seen m = rev w ++ sn
              /\ mu (expand tpl m) = S (mu w).

Lemma subn_scan_adds (r : re) (tpl : list titem) :
  adds_one r tpl ->
  forall rs sn skip,
  mu (fst (subn_scan r tpl sn rs skip))
  = mu (skipn skip rs) + snd (subn_scan r tpl sn rs skip).
Proof.
  intros Hk. induction rs as [|c rs IH]; intros sn skip; cbn [subn_scan].
  - destruct skip; [|reflexivity].
    destruct (match_at r sn []) as [m|] eqn:E; [|reflexivity].
    destruct (Hk _ _ _ E) as (w & E1 & _ & E3).
    symmetry in E1. apply app_eq_nil in E1. destruct E1 as [-> _].
    cbn [fst snd skipn]. rewrite E3. reflexivity.
  - destruct skip as [|j]; [|cbn [skipn]; apply IH].
    cbn [skipn].
    destruct (match_at r sn (c :: rs)) as [m|] eqn:E.
    + destruct (Hk _ _ _ E) as (w & E1 & E2 & E3).
      specialize (IH (c :: sn) (mlen sn m - 1)).
      destruct (subn_scan r tpl (c :: sn) rs (mlen sn m - 1)) as [out n].
      cbn [fst snd] in IH.
      assert (Hl : mlen sn m = length w).
      { unfold mlen. rewrite E2, length_app, length_rev. lia. }
      rewrite Hl in *. destruct w as [|x w]; cbn [length] in *.
      * cbn [fst snd]. change (0 - 1) with 0 in IH. cbn [skipn] in IH.
        change (c :: out) with ([c] ++ out). change (c :: rs) with ([c] ++ rs).
        rewrite !mu_app, E3, IH. change (mu []) with 0. lia.
      * cbn [fst snd]. rewrite mu_app, E3, IH.
        cbn [app] in E1. injection E1 as -> ->.
        replace (S (length w) - 1) with (length w) by lia.
        rewrite skipn_app, skipn_all, Nat.sub_diag. cbn [skipn app].
        change (x :: w ++ rest m) with ((x :: w) ++ rest m).
        rewrite mu_app. lia.
    + specialize (IH (c :: sn) 0).
      destruct (subn_scan r tpl (c :: sn) rs 0) as [out n].
      cbn [fst snd skipn] in *.
      change (c :: out) with ([c] ++ out). change (c :: rs) with ([c] ++ rs).
      rewrite !mu_app, IH. lia.
Qed.

Lemma subn_adds (r : re) (tpl : list titem) (text : pystr) :
  adds_one r tpl ->
  mu (fst (subn r tpl text)) = mu text + snd (subn r tpl text).
Proof.
  intros Hk. exact (subn_scan_adds Hk text [] 0).
Qed.

(** *** Patterns whose matches hold a known number of the character
    outside of their groups *)

Fixpoint gshape (r : re) : option (nat * list nat) :=
  match r with
  | Lit l => Some (mu l, [])
  | Cls k | Rep _ _ k | Opt k => if cmem k ch then None else Some (0, [])
  | Cat a b =>
      match gshape a, gshape b with
      | Some (k1, g1), Some (k2, g2) => Some (k1 + k2, g1 ++ g2)
      | _, _ => None
      end
  | Alt _ _ => None
  | Grp n a => if nogrp a then Some (0, [n]) else None
  | Bol | WordB => Some (0, [])
  end.

Definition total (vals : list pystr) : nat := Py.sum (map mu vals).

Lemma total_app (a b : list pystr) : total (a ++ b) = total a + total b.
Proof.
  unfold total. induction a as [|x a IH]; cbn [map app]; [reflexivity|].
  rewrite !sum_cons, IH. lia.
Qed.

Lemma combine_app (A B : Type) (a b : list A) (c d : list B) :
  length a = length c -> combine (a ++ b) (c ++ d) = combine a c ++ combine b d.
Proof.
  revert c. induction a as [|x a IH]; intros [|y c] H; cbn in *;
    try discriminate; [reflexivity|].
  rewrite IH by lia. reflexivity.
Qed.

Lemma combine_fst (A B : Type) (a : list A) (c : list B) :
  length a = length c -> map fst (combine a c) = a.
Proof.
  revert c. induction a as [|x a IH]; intros [|y c] H; cbn in *;
    try discriminate; [reflexivity|].
  rewrite IH by lia. reflexivity.
Qed.

Lemma gshape_sem (r : re) : forall k gs st m,
  gshape r = Some (k, gs) -> sem r st m ->
  exists w vals,
    rest st = w ++ rest m
    /\ seen m = rev w ++ seen st
    /\ length vals = length gs
    /\ caps m = rev (combine gs vals) ++ caps st
    /\ mu w = k + total vals.
Proof.
  induction r as [l|c|r1 IH1 r2 IH2|r1 IH1 r2 IH2|n r1 IH1|g plus c|c| |];
    intros k gs st m Hg Hs; cbn [gshape] in Hg; cbn [sem] in Hs.
  - injection Hg as <- <-. destruct Hs as (rs & E & ->).
    apply strip_prefix_inv in E. exists l, []. cbn. auto.
  - destruct (cmem c ch) eqn:Hc; [discriminate|]. injection Hg as <- <-.
    destruct Hs as (x & rs & E & Hx & ->). exists [x], []. cbn [rest seen caps].
    repeat split; auto.
    apply (mu_class c [x] Hc). cbn. rewrite Hx. reflexivity.
  - destruct (gshape r1) as [[k1 g1]|] eqn:G1; [|discriminate].
    destruct (gshape r2) as [[k2 g2]|] eqn:G2; [|discriminate].
    injection Hg as <- <-. destruct Hs as (mid & H1 & H2).
    destruct (IH1 _ _ _ _ eq_refl H1) as (w1 & v1 & E1 & F1 & L1 & C1 & M1).
    destruct (IH2 _ _ _ _ eq_refl H2) as (w2 & v2 & E2 & F2 & L2 & C2 & M2).
    exists (w1 ++ w2), (v1 ++ v2).
    rewrite E1, E2, F2, F1, C2, C1, rev_app_distr, <- !app_assoc.
    repeat split.
    + rewrite !length_app. lia.
    + rewrite combine_app by (symmetry; exact L1).
      rewrite rev_app_distr, <- app_assoc. reflexivity.
    + rewrite mu_app, total_app. lia.
  - discriminate.
  - destruct (nogrp r1) eqn:Hn; [|discriminate]. injection Hg as <- <-.
    destruct (sem_group Hn Hs) as (w & E & F & C).
    exists w, [w]. rewrite C. repeat split; auto.
  - destruct (cmem c ch) eqn:Hc; [discriminate|]. injection Hg as <- <-.
    destruct Hs as (w & rs & E & Hw & _ & ->). exists w, []. cbn [rest seen caps].
    repeat split; auto. apply (mu_class c w Hc Hw).
  - destruct (cmem c ch) eqn:Hc; [discriminate|]. injection Hg as <- <-.
    destruct Hs as [->|(x & rs & E & Hx & ->)].
    + exists [], []. cbn. auto.
    + exists [x], []. cbn [rest seen caps]. repeat split; auto.
      apply (mu_class c [x] Hc). cbn. rewrite Hx. reflexivity.
  - injection Hg as <- <-. destruct Hs as [_ ->]. exists [], []. cbn. auto.
  - injection Hg as <- <-. destruct Hs as [_ ->]. exists [], []. cbn. auto.
Qed.

Lemma get_cap_in (n : nat) (v : pystr) (l cs : list (nat * pystr)) :
  NoDup (map fst l) -> In (n, v) l -> get_cap n (l ++ cs) = Some v.
Proof.
  induction l as [|[n' v'] l IH]; cbn [map fst app get_cap In]; [tauto|].
  intros Hnd [E|Hin].
  - injection E as -> ->. rewrite Nat.eqb_refl. reflexivity.
  - inversion Hnd as [|? ? Hni Hnd']. subst.
    destruct (Nat.eqb n n') eqn:E.
    + apply Nat.eqb_eq in E. subst n'. exfalso. apply Hni.
      change n with (fst (n, v)). apply in_map. exact Hin.
    + apply IH; assumption.
Qed.

(** The literal characters of a template, and its group references. *)
Fixpoint tlits (tpl : list titem) : nat :=
  match tpl with
  | [] => 0
  | TLit l :: tpl' => mu l + tlits tpl'
  | TGrp _ :: tpl' => tlits tpl'
  end.

Fixpoint tgrps (tpl : list titem) : list nat :=
  match tpl with
  | [] => []
  | TLit _ :: tpl' => tgrps tpl'
  | TGrp n :: tpl' => n :: tgrps tpl'
  end.

Lemma mu_expand (tpl : list titem) (m : mstate) :
  mu (expand tpl m) = tlits tpl + Py.sum (map (fun n => mu (group n m)) (tgrps tpl)).
Proof.
  unfold expand.
  induction tpl as [|[l|n] tpl IH]; cbn [map concat tlits tgrps].
  - reflexivity.
  - rewrite mu_app, IH. lia.
  - rewrite mu_app, IH, sum_cons. lia.
Qed.

Lemma groups_total (gs : list nat) : forall (vals : list pystr) (m : mstate),
  NoDup gs -> length vals = length gs ->
  (forall n v, In (n, v) (combine gs vals) -> group n m = v) ->
  Py.sum (map (fun n => mu (group n m)) gs) = total vals.
Proof.
  unfold total.
  induction gs as [|n gs IH]; intros [|v vals] m Hnd Hl Hg; cbn in Hl;
    try discriminate; cbn [map]; [reflexivity|].
  rewrite !sum_cons. inversion Hnd as [|? ? _ Hnd']. subst.
  rewrite (Hg n v) by (left; reflexivity).
  rewrite (IH vals m Hnd') by (lia || (intros; apply Hg; right; assumption)).
  reflexivity.
Qed.

(** The test: outside of its groups a match holds [k] counted
    characters, the template refers to each group of the pattern once,
    and its literal text holds [k + 1] of them. *)
Fixpoint same (a b : list nat) : bool :=
  match a, b with
  | [], [] => true
  | x :: a', y :: b' => Nat.eqb x y && same a' b'
  | _, _ => false
  end.

Fixpoint distinct (l : list nat) : bool :=
  match l with
  | [] => true
  | x :: l' => negb (existsb (Nat.eqb x) l') && distinct l'
  end.

Lemma same_eq (a b : list nat) : same a b = true -> a = b.
Proof.
  revert b. induction a as [|x a IH]; intros [|y b] H; cbn in H;
    try discriminate; [reflexivity|].
  apply andb_true_iff in H. destruct H as [Hx H].
  apply Nat.eqb_eq in Hx. subst y. rewrite (IH b H). reflexivity.
Qed.

Lemma distinct_nodup (l : list nat) : distinct l = true -> NoDup l.
Proof.
  induction l as [|x l IH]; cbn [distinct]; [constructor|].
  intros H. apply andb_true_iff in H. destruct H as [Hx H].
  constructor; [|exact (IH H)].
  intros Hin. apply negb_true_iff in Hx.
  assert (He : existsb (Nat.eqb x) l = true).
  { apply existsb_exists. exists x. split; [exact Hin|apply Nat.eqb_refl]. }
  congruence.
Qed.

Definition adds_check (p : re * list titem) : bool :=
  match gshape (fst p) with
  | Some (k, gs) =>
      (tlits (snd p) =? S k) && same gs (tgrps (snd p)) && distinct gs
  | None => false
  end.

Lemma adds_check_sound (p : re * list titem) :
  adds_check p = true -> adds_one (fst p) (snd p).
Proof.
  unfold adds_check. destruct (gshape (fst p)) as [[k gs]|] eqn:G; [|discriminate].
  intros H. apply andb_true_iff in H. destruct H as [H Hnd].
  apply andb_true_iff in H. destruct H as [Hl Hg].
  apply Nat.eqb_eq in Hl.
  pose proof (same_eq _ _ Hg) as Eg. pose proof (distinct_nodup _ Hnd) as Hn.
  intros sn rs m Hm. apply match_at_sem in Hm.
  destruct (@gshape_sem _ _ _ _ _ G Hm) as (w & vals & E & F & L & C & M).
  cbn [rest seen caps] in E, F, C.
  exists w. split; [exact E|]. split; [exact F|].
  rewrite mu_expand, Hl, <- Eg, (@groups_total gs vals m Hn L).
  - lia.
  - intros n v Hin. unfold group. rewrite C.
    rewrite (@get_cap_in n v (rev (combine gs vals)) []).
    + reflexivity.
    + rewrite map_rev. apply NoDup_rev.
      rewrite combine_fst by (symmetry; exact L). exact Hn.
    + apply -> in_rev. exact Hin.
Qed.

End Measure.

(** A substitution that counts nothing found no match. *)
Lemma subn_scan_zero_no_match (r : re) (tpl : list titem) (rs : pystr) :
  forall sn,
  snd (subn_scan r tpl sn rs 0) = 0 ->
  forall pre rs', rs = pre ++ rs' -> match_at r (rev pre ++ sn) rs' = None.
Proof.
  induction rs as [|c rs IH]; intros sn H pre rs' E; cbn [subn_scan] in H.
  - symmetry in E. apply app_eq_nil in E. destruct E as [-> ->]. cbn [rev app].
    destruct (match_at r sn []); [discriminate H|reflexivity].
  - destruct (match_at r sn (c :: rs)) as [m|] eqn:Em.
    + destruct (subn_scan r tpl (c :: sn) rs (mlen sn m - 1)) as [out n].
      destruct (mlen sn m); discriminate H.
    + destruct (subn_scan r tpl (c :: sn) rs 0) as [out n] eqn:Es.
      cbn [snd] in H. subst n.
      destruct pre as [|x pre]; cbn [app] in E.
      * subst rs'. exact Em.
      * injection E as <- E. cbn [rev]. rewrite <- app_assoc. cbn [app].
        apply (IH (c :: sn)); [rewrite Es; reflexivity|exact E].
Qed.

Lemma search_counts (r : re) (tpl : list titem) (text : pystr) :
  search r text = true -> 1 <= snd (subn r tpl text).
Proof.
  intros H. destruct (snd (subn r tpl text)) eqn:E; [|lia].
  exfalso. assert (Hn : no_match r text).
  { intros sn rs Et.
    pose proof (@subn_scan_zero_no_match r tpl text [] E (rev sn) rs) as Hz.
    rewrite rev_involutive, app_nil_r in Hz. apply Hz. exact Et. }
  rewrite (search_no_match Hn) in H. discriminate.
Qed.

(** Each replacement of the "any" rewriters adds one [u]. *)
Lemma replacements_add_u :
  Forall (fun p => adds_one "u" (fst p) (snd p)) FixEslintIssues.replacements.
Proof.
  apply Forall_forall. intros p Hp. apply adds_check_sound.
  revert p Hp. apply forallb_forall. vm_compute. reflexivity.
Qed.

Lemma steps_add_u :
  Forall (fun p => adds_one "u" (fst p) [TLit (snd p)]) FixAnyTypes.steps.
Proof.
  assert (H : forallb (fun p => adds_check "u" (fst p, [TLit (snd p)]))
                FixAnyTypes.steps = true) by (vm_compute; reflexivity).
  apply Forall_forall. intros p Hp.
  apply (adds_check_sound "u" (fst p, [TLit (snd p)])).
  exact (proj1 (forallb_forall _ _) H p Hp).
Qed.

Lemma apply_replacements_mu (rs : list (re * list titem)) :
  Forall (fun p => adds_one "u" (fst p) (snd p)) rs ->
  forall st : pystr * nat,
  mu "u" (fst (FixEslintIssues.apply_replacements rs st)) + snd st
  = mu "u" (fst st) + snd (FixEslintIssues.apply_replacements rs st).
Proof.
  unfold FixEslintIssues.apply_replacements.
  induction 1 as [|p rs Hp _ IH]; intros st; cbn [fold_left]; [lia|].
  pose proof (subn_adds (fst st) Hp) as H.
  destruct (subn (fst p) (snd p) (fst st)) as [c1 n1]. cbn [fst snd] in H.
  specialize (IH (c1, snd st + n1)). cbn [fst snd] in IH. lia.
Qed.

Lemma steps_mu (ps : list (re * pystr)) :
  Forall (fun p => adds_one "u" (fst p) [TLit (snd p)]) ps ->
  forall (c0 : pystr) (st : pystr * bool),
  mu "u" c0 <= mu "u" (fst st) ->
  (snd st = true -> mu "u" c0 < mu "u" (fst st)) ->
  (snd st = false -> fst st = c0) ->
  let st' := fold_left FixAnyTypes.step ps st in
  (snd st' = true -> mu "u" c0 < mu "u" (fst st'))
  /\ (snd st' = false -> fst st' = c0).
Proof.
  induction 1 as [|p ps Hp _ IH]; intros c0 [c fl] H1 H2 H3; cbn [fold_left];
    [auto|].
  cbn [fst snd] in *. apply IH; cbn [FixAnyTypes.step].
  - destruct (search (fst p) c) eqn:E; cbn [fst]; [|exact H1].
    pose proof (subn_adds c Hp) as H. unfold sub. lia.
  - destruct (search (fst p) c) eqn:E; cbn [fst snd]; [|exact H2].
    intros _. pose proof (subn_adds c Hp) as H.
    pose proof (@search_counts (fst p) [TLit (snd p)] c E). unfold sub. lia.
  - destruct (search (fst p) c) eqn:E; cbn [fst snd]; [discriminate|exact H3].
Qed.

(** The flag of [fix_content] is set exactly when the content changes. *)
Lemma fix_content_flag (content : pystr) :
  snd (FixAnyTypes.fix_content content) = true
  <-> fst (FixAnyTypes.fix_content content) <> content.
Proof.
  unfold FixAnyTypes.fix_content.
  destruct (@steps_mu _ steps_add_u content (content, false)) as [H1 H2];
    cbn [fst snd]; auto; try discriminate.
  cbn zeta in H1, H2. split.
  - intros E Heq. specialize (H1 E). rewrite Heq in H1. lia.
  - intros Hne.
    destruct (snd (fold_left FixAnyTypes.step FixAnyTypes.steps (content, false)));
      [reflexivity|].
    exfalso. apply Hne. apply H2. reflexivity.
Qed.

End MeasureFacts.

(** X2: [fix_no_explicit_any] counts no fix exactly when its seventeen
    substitutions leave the content as it is: the file is written back
    (on [fixes > 0]) exactly when its content changes. *)
Theorem X2_fixes_counted_iff_content_changed (content : pystr) :
  snd (FixEslintIssues.fix_no_explicit_any content) = 0
  <-> fst (FixEslintIssues.fix_no_explicit_any content) = content.
Proof.
  unfold FixEslintIssues.fix_no_explicit_any.
  pose proof (MeasureFacts.apply_replacements_mu
                MeasureFacts.replacements_add_u (content, 0)) as H.
  cbn [fst snd] in H. split.
  - intros E.
    destruct (AnyFacts.apply_replacements_count FixEslintIssues.replacements
                (content, 0)) as [_ Heq].
    apply Heq. exact E.
  - intros E. rewrite E in H. lia.
Qed.

(** X4: [fix_any_types] marks a file as modified, and writes it back,
    exactly when its eight substitutions change the content. *)
Theorem X4_any_types_modified_iff_changed (content : pystr) :
  snd (FixAnyTypes.fix_content content) = true
  <-> fst (FixAnyTypes.fix_content content) <> content.
Proof.
  apply MeasureFacts.fix_content_flag.
Qed.

Module LocationFacts.

Import FixEslintIssues.

(** The characters of a line other than underscores. *)
Definition without_underscores (l : pystr) : pystr :=
  filter (fun c => negb (Ascii.eqb c "_")) l.

Lemma set_nth_length (n : nat) (x : pystr) (l : list pystr) :
  length (set_nth n x l) = length l.
Proof.
  revert n. induction l as [|y l IH]; intros [|n]; cbn; auto.
Qed.

Lemma set_nth_map (B : Type) (f : pystr -> B) (n : nat) (x : pystr)
    (l : list pystr) :
  n < length l -> f x = f (nth n l []) ->
  map f (set_nth n x l) = map f l.
Proof.
  revert n. induction l as [|y l IH]; intros [|n] Hn Hf; cbn in *; try lia.
  - rewrite Hf. reflexivity.
  - rewrite IH by (lia || exact Hf). reflexivity.
Qed.

Lemma set_nth_sum (n : nat) (x : pystr) (l : list pystr) :
  n < length l -> length x = S (length (nth n l [])) ->
  Py.sum (map (@length ascii) (set_nth n x l))
  = S (Py.sum (map (@length ascii) l)).
Proof.
  revert n. induction l as [|y l IH]; intros [|n] Hn Hx; cbn in *; try lia.
  - rewrite !sum_cons. lia.
  - rewrite !sum_cons, IH by (lia || exact Hx). lia.
Qed.

Lemma insert_underscore_chars (p : nat) (line : pystr) :
  without_underscores (firstn p line ++ s "_" ++ skipn p line)
  = without_underscores line.
Proof.
  unfold without_underscores. rewrite !filter_app. cbn [s list_ascii_of_string filter].
  cbn. rewrite <- filter_app, firstn_skipn. reflexivity.
Qed.

Lemma insert_underscore_length (p : nat) (line : pystr) :
  length (firstn p line ++ s "_" ++ skipn p line) = S (length line).
Proof.
  rewrite !length_app. cbn [s list_ascii_of_string length].
  rewrite <- (firstn_skipn p line) at 3. rewrite length_app. lia.
Qed.

(** One entry either leaves the state as it is or puts one underscore
    into one line and counts one fix. *)
Lemma fix_one_cases (st : list pystr * nat) (v : pystr * Z * Z) :
  fix_one st v = st
  \/ exists idx p,
       idx < length (fst st)
       /\ fix_one st v
          = (set_nth idx (firstn p (nth idx (fst st) []) ++ s "_"
                            ++ skipn p (nth idx (fst st) [])) (fst st),
             S (snd st)).
Proof.
  destruct st as [lines fixes]. destruct v as [[var_name line_num] col_num].
  unfold fix_one.
  destruct (startswith (s "_") var_name); [left; reflexivity|].
  destruct ((line_num <=? 0)%Z || (Z.of_nat (length lines) <? line_num)%Z) eqn:E;
    [left; reflexivity|].
  apply orb_false_iff in E. destruct E as [E1 E2].
  apply Z.leb_gt in E1. apply Z.ltb_ge in E2.
  destruct ((0 <=? col_num - 1)%Z && _); [|left; reflexivity].
  destruct (pystr_eqb _ var_name); [|left; reflexivity].
  destruct (is_standalone _ var_name (col_num - 1)); [|left; reflexivity].
  right. exists (Z.to_nat (line_num - 1)), (Z.to_nat (col_num - 1)).
  split; [cbn [fst]; lia|reflexivity].
Qed.

Lemma fix_all_invariant (unused_vars : list (pystr * Z * Z)) :
  forall st : list pystr * nat,
  let st' := fold_left fix_one unused_vars st in
  length (fst st') = length (fst st)
  /\ map without_underscores (fst st') = map without_underscores (fst st)
  /\ Py.sum (map (@length ascii) (fst st')) + snd st
     = Py.sum (map (@length ascii) (fst st)) + snd st'
  /\ snd st <= snd st' <= snd st + length unused_vars.
Proof.
  induction unused_vars as [|v vs IH]; intros st; cbn [fold_left length].
  - repeat split; lia.
  - specialize (IH (fix_one st v)). cbn zeta in IH |- *.
    destruct IH as (H1 & H2 & H3 & H4).
    destruct (fix_one_cases st v) as [E|(idx & p & Hi & E)].
    + rewrite E in *. repeat split; try assumption; lia.
    + rewrite E in *. cbn [fst snd] in *.
      rewrite set_nth_length in H1.
      rewrite set_nth_map in H2
        by (exact Hi || apply insert_underscore_chars).
      rewrite set_nth_sum in H3
        by (exact Hi || apply insert_underscore_length).
      repeat split; try assumption; lia.
Qed.

End LocationFacts.

(** X8: the location rewriter only ever inserts underscores: it keeps the
    number of lines and, in every line, the characters other than
    underscores in their order; the lines grow by exactly one character
    per counted fix, and no more fixes are counted than names were
    flagged. *)
Theorem X8_location_rewriter_only_inserts_underscores
    (lines : list pystr) (unused_vars : list (pystr * Z * Z)) :
  let result := FixEslintIssues.fix_unused_vars lines unused_vars in
  length (fst result) = length lines
  /\ map LocationFacts.without_underscores (fst result)
     = map LocationFacts.without_underscores lines
  /\ Py.sum (map (@length ascii) (fst result))
     = Py.sum (map (@length ascii) lines) + snd result
  /\ snd result <= length unused_vars.
Proof.
  intros result.
  destruct (LocationFacts.fix_all_invariant unused_vars (lines, 0))
    as (H1 & H2 & H3 & H4).
  fold (FixEslintIssues.fix_unused_vars lines unused_vars) in H1, H2, H3, H4.
  fold result in H1, H2, H3, H4. cbn [fst snd] in *.
  repeat split; try assumption; lia.
Qed.

(** X9: for a name reported at a column after the first, where the line
    holds the name, the rewrite happens exactly when neither neighbour of
    the name is alphanumeric or an underscore (the end of the line
    counting as such a neighbour); it then puts the underscore right
    before the name and counts one fix. *)
Theorem X9_location_rewrite_iff_standalone
    (lines : list pystr) (fixes : nat) (var_name line : pystr)
    (line_num col_num : Z) :
  startswith (s "_") var_name = false ->
  (1 <= line_num <= Z.of_nat (length lines))%Z ->
  nth (Z.to_nat (line_num - 1)) lines [] = line ->
  (1 < col_num <= Z.of_nat (length line))%Z ->
  slice line (Z.to_nat (col_num - 1))
        (Z.to_nat (col_num - 1) + length var_name) = var_name ->
  FixEslintIssues.fix_one (lines, fixes) (var_name, line_num, col_num)
  = if FixEslintIssues.ident_char (nth_error line (Z.to_nat (col_num - 2)))
       || FixEslintIssues.ident_char
            (nth_error line (Z.to_nat (col_num - 1) + length var_name))
    then (lines, fixes)
    else (FixEslintIssues.set_nth (Z.to_nat (line_num - 1))
            (firstn (Z.to_nat (col_num - 1)) line ++ s "_"
               ++ skipn (Z.to_nat (col_num - 1)) line) lines,
          S fixes).
Proof.
  intros Hus Hln Hline Hcol Hslice.
  assert (Hprev : FixEslintIssues.getitem line (col_num - 2)
                  = nth_error line (Z.to_nat (col_num - 2)))
    by (apply getitem_nonneg; lia).
  destruct (FixEslintIssues.ident_char (nth_error line (Z.to_nat (col_num - 2))))
    eqn:Ep; cbn [orb].
  - apply fix_one_keeps_longer_identifier. left. rewrite Hline.
    split; [lia|]. rewrite Hprev. exact Ep.
  - destruct (Z_lt_le_dec (col_num - 1 + Z.of_nat (length var_name))
                (Z.of_nat (length line))) as [Hin|Hout].
    + assert (Hnext : FixEslintIssues.getitem line
                        (col_num - 1 + Z.of_nat (length var_name))
                      = nth_error line (Z.to_nat (col_num - 1) + length var_name)).
      { rewrite getitem_nonneg by lia. f_equal. lia. }
      destruct (FixEslintIssues.ident_char
                  (nth_error line (Z.to_nat (col_num - 1) + length var_name)))
        eqn:En.
      * apply fix_one_keeps_longer_identifier. right. rewrite Hline.
        split; [exact Hin|]. rewrite Hnext. exact En.
      * apply fix_one_inserts_inside; try assumption.
        -- rewrite Hprev. exact Ep.
        -- rewrite Hnext. exact En.
    + assert (En : nth_error line (Z.to_nat (col_num - 1) + length var_name) = None)
        by (apply nth_error_None; lia).
      rewrite En. cbn [FixEslintIssues.ident_char].
      apply fix_one_inserts_inside; try assumption.
      * rewrite Hprev. exact Ep.
      * unfold FixEslintIssues.getitem.
        replace (0 <=? col_num - 1 + Z.of_nat (length var_name))%Z with true
          by (symmetry; apply Z.leb_le; lia).
        replace (col_num - 1 + Z.of_nat (length var_name) <? Z.of_nat (length line))%Z
          with false by (symmetry; apply Z.ltb_ge; lia).
        cbn [andb].
        replace (- Z.of_nat (length line) <=? col_num - 1 + Z.of_nat (length var_name))%Z
          with true by (symmetry; apply Z.leb_le; lia).
        replace (col_num - 1 + Z.of_nat (length var_name) <? 0)%Z
          with false by (symmetry; apply Z.ltb_ge; lia).
        reflexivity.
Qed.

Lemma X9_location_rewrite_witness :
  FixEslintIssues.fix_one ([s "import { a, b } from 'm';"], 0) (s "b", 1%Z, 13%Z)
  = ([s "import { a, _b } from 'm';"], 1).
Proof.
  apply (@X9_location_rewrite_iff_standalone
           [s "import { a, b } from 'm';"] 0 (s "b")
           (s "import { a, b } from 'm';") 1%Z 13%Z).
  - reflexivity.
  - cbn. lia.
  - reflexivity.
  - cbn. lia.
  - reflexivity.
Defined.

(** X25: at column 1 the test on the left neighbour reads the last
    character of the line: a name that the line holds at its start is
    prefixed exactly when the line does not end in an underscore and the
    character after the name is neither alphanumeric nor an underscore
    (the end of the line counting as such). *)
Theorem X25_location_rewrite_at_column_one
    (lines : list pystr) (fixes : nat) (var_name line : pystr) (line_num : Z) :
  startswith (s "_") var_name = false ->
  (1 <= line_num <= Z.of_nat (length lines))%Z ->
  nth (Z.to_nat (line_num - 1)) lines [] = line ->
  line <> [] ->
  slice line 0 (length var_name) = var_name ->
  FixEslintIssues.fix_one (lines, fixes) (var_name, line_num, 1%Z)
  = if FixEslintIssues.underscore_char (nth_error line (length line - 1))
       || FixEslintIssues.ident_char (nth_error line (length var_name))
    then (lines, fixes)
    else (FixEslintIssues.set_nth (Z.to_nat (line_num - 1)) (s "_" ++ line) lines,
          S fixes).
Proof.
  intros Hus Hln Hline Hne Hslice.
  assert (Hlen : 0 < length line) by (destruct line; [contradiction|cbn; lia]).
  unfold FixEslintIssues.fix_one. rewrite Hus.
  replace (line_num <=? 0)%Z with false by (symmetry; apply Z.leb_gt; lia).
  replace (Z.of_nat (length lines) <? line_num)%Z with false
    by (symmetry; apply Z.ltb_ge; lia).
  cbn [orb]. rewrite Hline.
  change (1 - 1)%Z with 0%Z. change (Z.to_nat 0) with 0.
  replace (0 <? Z.of_nat (length line))%Z with true
    by (symmetry; apply Z.ltb_lt; lia).
  cbn [Z.leb Z.compare andb Nat.add]. rewrite Hslice.
  replace (pystr_eqb var_name var_name) with true
    by (symmetry; apply pystr_eqb_eq; reflexivity).
  cbn [firstn skipn app].
  assert (Hprev : FixEslintIssues.getitem line (0 - 1)
                  = nth_error line (length line - 1)).
  { unfold FixEslintIssues.getitem. change (0 - 1)%Z with (-1)%Z.
    cbn [Z.leb Z.compare andb].
    replace (- Z.of_nat (length line) <=? -1)%Z with true
      by (symmetry; apply Z.leb_le; lia).
    cbn [Z.ltb Z.compare andb]. f_equal. lia. }
  assert (Hnext : FixEslintIssues.ident_char
                    (FixEslintIssues.getitem line (0 + Z.of_nat (length var_name)))
                  = FixEslintIssues.ident_char (nth_error line (length var_name))).
  { unfold FixEslintIssues.getitem. rewrite Z.add_0_l.
    replace (0 <=? Z.of_nat (length var_name))%Z with true
      by (symmetry; apply Z.leb_le; lia).
    destruct (Z.of_nat (length var_name) <? Z.of_nat (length line))%Z eqn:E;
      cbn [andb].
    - rewrite Nat2Z.id. reflexivity.
    - apply Z.ltb_ge in E.
      replace (Z.of_nat (length var_name) <? 0)%Z with false
        by (symmetry; apply Z.ltb_ge; lia).
      rewrite andb_false_r.
      replace (nth_error line (length var_name)) with (@None ascii)
        by (symmetry; apply nth_error_None; lia).
      reflexivity. }
  unfold FixEslintIssues.is_standalone. rewrite Hprev.
  cbn [Z.ltb Z.compare andb orb].
  destruct (FixEslintIssues.underscore_char (nth_error line (length line - 1)));
    cbn [negb andb orb]; [reflexivity|].
  destruct (0 + Z.of_nat (length var_name) <? Z.of_nat (length line))%Z eqn:E;
    cbn [andb].
  - rewrite Hnext.
    destruct (FixEslintIssues.ident_char (nth_error line (length var_name)));
      reflexivity.
  - apply Z.ltb_ge in E.
    replace (nth_error line (length var_name)) with (@None ascii)
      by (symmetry; apply nth_error_None; lia).
    reflexivity.
Qed.

Lemma X25_location_rewrite_witness :
  FixEslintIssues.fix_one ([s "total = sub_"], 0) (s "total", 1%Z, 1%Z)
  = ([s "total = sub_"], 0).
Proof.
  apply (@X25_location_rewrite_at_column_one
           [s "total = sub_"] 0 (s "total") (s "total = sub_") 1%Z).
  - reflexivity.
  - cbn. lia.
  - reflexivity.
  - discriminate.
  - reflexivity.
Defined.

Module SearchFacts.

Import ReFacts SubFacts ReSearch.

Lemma search_match_from_some (r : re) (rs : pystr) : forall sn m,
  search_match_from r sn rs = Some m ->
  exists sn' rs', match_at r sn' rs' = Some m.
Proof.
  induction rs as [|c rs IH]; intros sn m H; cbn [search_match_from] in H.
  - destruct (match_at r sn []) eqn:E; [|discriminate].
    injection H as <-. eauto.
  - destruct (match_at r sn (c :: rs)) eqn:E.
    + injection H as <-. eauto.
    + eauto.
Qed.

Lemma search_match_no_match (r : re) (text : pystr) :
  no_match r text -> search_match r text = None.
Proof.
  intros H. unfold search_match.
  assert (G : forall rs sn, text = rev sn ++ rs -> search_match_from r sn rs = None).
  { induction rs as [|c rs IH]; intros sn E; cbn [search_match_from];
      rewrite (H _ _ E); [reflexivity|].
    apply IH. cbn [rev]. rewrite <- app_assoc. exact E. }
  apply G. reflexivity.
Qed.

(** The search returns the match at a position before which there is
    none. *)
Lemma search_match_at (r : re) (pre rs : pystr) (m : mstate) : forall sn,
  (forall p1 c p2, pre = p1 ++ c :: p2 ->
                   match_at r (rev p1 ++ sn) (c :: p2 ++ rs) = None) ->
  match_at r (rev pre ++ sn) rs = Some m ->
  search_match_from r sn (pre ++ rs) = Some m.
Proof.
  induction pre as [|x pre IH]; intros sn Hn Hm; cbn [app rev] in *.
  - destruct rs; cbn [search_match_from]; rewrite Hm; reflexivity.
  - cbn [search_match_from].
    pose proof (Hn [] x pre eq_refl) as H0. cbn [rev app] in H0. rewrite H0.
    apply IH.
    + intros p1 c p2 E. specialize (Hn (x :: p1) c p2).
      cbn [rev app] in Hn. rewrite <- app_assoc in Hn. apply Hn.
      rewrite E. reflexivity.
    + rewrite <- app_assoc in Hm. exact Hm.
Qed.

(** Two runs of characters of a class that end before a character
    outside of it are the same run. *)
Lemma span_unique (p : ascii -> bool) (w w' : pystr) (c c' : ascii)
    (t t' : pystr) :
  forallb p w = true -> forallb p w' = true -> p c = false -> p c' = false ->
  w ++ c :: t = w' ++ c' :: t' -> w = w'.
Proof.
  revert w'. induction w as [|x w IH]; intros [|x' w'] Hw Hw' Hc Hc' E;
    cbn [app forallb] in *.
  - reflexivity.
  - injection E as -> _. apply andb_true_iff in Hw'. destruct Hw' as [Hx _].
    congruence.
  - injection E as -> _. apply andb_true_iff in Hw. destruct Hw as [Hx _].
    congruence.
  - injection E as -> E.
    apply andb_true_iff in Hw. apply andb_true_iff in Hw'.
    f_equal. eapply IH; try eassumption; tauto.
Qed.

End SearchFacts.

Module ExtractFacts.

Import ReFacts SubFacts ReSearch SearchFacts FixEslintUnused.

Definition phrase : pystr := s "' is defined but never used".

(** What a match of the pattern consists of. *)
Lemma unused_pattern_sem (st m : mstate) :
  sem unused_pattern st m ->
  exists w, rest st = s "'" ++ w ++ phrase ++ rest m
            /\ forallb is_word w = true /\ w <> []
            /\ group 1 m = w.
Proof.
  unfold unused_pattern. cbn [sem]. intros H.
  destruct H as (m1 & (rs1 & E1 & ->) & m2 & (mid & Hrep & ->) & (rs3 & E3 & ->)).
  destruct Hrep as (w & rs & Ew & Hw & Hne & ->).
  cbn [seen rest caps set_cap] in *.
  apply strip_prefix_inv in E1. apply strip_prefix_inv in E3.
  exists w. unfold group. cbn [caps get_cap Nat.eqb].
  rewrite captured_app. rewrite E1, Ew, E3.
  split; [reflexivity|]. split; [exact Hw|]. split; [apply Hne; reflexivity|].
  reflexivity.
Qed.

Lemma unused_pattern_match (sn name post : pystr) :
  forallb is_word name = true -> name <> [] ->
  exists m, match_at unused_pattern sn (s "'" ++ name ++ phrase ++ post) = Some m
            /\ group 1 m = name.
Proof.
  intros Hw Hne.
  destruct (match_at unused_pattern sn (s "'" ++ name ++ phrase ++ post))
    as [m|] eqn:E.
  - exists m. split; [reflexivity|].
    apply match_at_sem in E. apply unused_pattern_sem in E.
    destruct E as (w & Ew & Hw' & _ & ->). cbn [rest] in Ew.
    cbn [s list_ascii_of_string app] in Ew. injection Ew as Ew.
    symmetry. unfold phrase in Ew. cbn [s list_ascii_of_string app] in Ew.
    eapply span_unique with (p := is_word); [exact Hw|exact Hw'| | |exact Ew];
      reflexivity.
  - exfalso. apply (proj1 (match_at_none_iff _ _ _) E
                      (MS (rev phrase ++ rev name ++ rev (s "'") ++ sn) post
                          [(1, name)])).
    unfold unused_pattern. cbn [sem].
    eexists. split; [lit_ok|]. cbn [seen rest caps].
    eexists. split.
    + eexists. split; [|reflexivity].
      exists name, (phrase ++ post). cbn [rest seen caps].
      split; [reflexivity|]. split; [exact Hw|]. split; [intros _; exact Hne|].
      reflexivity.
    + cbn [set_cap seen rest caps]. rewrite captured_app.
      eexists. split; [cbn [rest]; apply strip_prefix_app|reflexivity].
Qed.

Lemma unused_pattern_needs_quote (sn : pystr) (c : ascii) (rs : pystr) :
  c <> "'"%char -> match_at unused_pattern sn (c :: rs) = None.
Proof.
  intros Hc. apply match_at_none_iff. intros m H.
  apply unused_pattern_sem in H. destruct H as (w & E & _). cbn [rest] in E.
  cbn [s list_ascii_of_string app] in E. injection E as E _. contradiction.
Qed.

Definition name_ok (e : pystr * Z * Z) : Prop :=
  fst (fst e) <> [] /\ forallb is_word (fst (fst e)) = true.

Lemma add_message_ok (uv : list (pystr * Z * Z)) (m : Lint.lint_message) :
  Forall name_ok uv -> Forall name_ok (add_message uv m).
Proof.
  intros H. unfold add_message.
  destruct (Lint.rule_is Lint.no_unused_vars m); [|exact H].
  destruct (search_match unused_pattern _) as [mt|] eqn:E; [|exact H].
  apply Forall_app. split; [exact H|]. constructor; [|constructor].
  apply search_match_from_some in E. destruct E as (sn' & rs' & E).
  apply match_at_sem in E. apply unused_pattern_sem in E.
  destruct E as (w & _ & Hw & Hne & G). unfold name_ok. cbn [fst].
  rewrite G. auto.
Qed.

Lemma add_messages_ok (msgs : list Lint.lint_message) : forall uv,
  Forall name_ok uv -> Forall name_ok (fold_left add_message msgs uv).
Proof.
  induction msgs as [|m msgs IH]; intros uv H; cbn [fold_left]; [exact H|].
  apply IH. apply add_message_ok. exact H.
Qed.

Lemma extract_ok (report : list Lint.file_result) : forall uv,
  Forall name_ok uv -> Forall name_ok (fold_left add_report report uv).
Proof.
  induction report as [|fr report IH]; intros uv H; cbn [fold_left]; [exact H|].
  apply IH. unfold add_report.
  destruct (Lint.messages fr) as [|m msgs] eqn:E; [exact H|].
  apply add_messages_ok. exact H.
Qed.

(** No more names are extracted than the report has messages of the
    rule. *)
Definition flagged (report : list Lint.file_result) : nat :=
  length (filter (Lint.rule_is Lint.no_unused_vars)
            (flat_map Lint.messages report)).

Lemma add_message_length (uv : list (pystr * Z * Z)) (m : Lint.lint_message) :
  length (add_message uv m)
  <= length uv + (if Lint.rule_is Lint.no_unused_vars m then 1 else 0).
Proof.
  unfold add_message. destruct (Lint.rule_is Lint.no_unused_vars m); [|lia].
  destruct (search_match unused_pattern _); [|lia].
  rewrite length_app. cbn. lia.
Qed.

Lemma add_messages_length (msgs : list Lint.lint_message) : forall uv,
  length (fold_left add_message msgs uv)
  <= length uv + length (filter (Lint.rule_is Lint.no_unused_vars) msgs).
Proof.
  induction msgs as [|m msgs IH]; intros uv; cbn [fold_left filter]; [cbn; lia|].
  specialize (IH (add_message uv m)).
  pose proof (add_message_length uv m) as H.
  destruct (Lint.rule_is Lint.no_unused_vars m); cbn [length]; lia.
Qed.

Lemma extract_length (report : list Lint.file_result) : forall uv,
  length (fold_left add_report report uv) <= length uv + flagged report.
Proof.
  unfold flagged.
  induction report as [|fr report IH]; intros uv; cbn [fold_left flat_map];
    [cbn; lia|].
  specialize (IH (add_report uv fr)).
  rewrite filter_app, length_app.
  assert (H : length (add_report uv fr)
              <= length uv
                 + length (filter (Lint.rule_is Lint.no_unused_vars)
                             (Lint.messages fr))).
  { unfold add_report. destruct (Lint.messages fr) as [|m msgs] eqn:E;
      [cbn; lia|].
    apply add_messages_length. }
  lia.
Qed.

End ExtractFacts.

(** X10: how [fix_unused_vars] of [fix_eslint_issues.py] finds its names.
    A message of another rule, or one whose text lacks
    ['... is defined but never used] after a quote, adds nothing; a
    message of the rule whose text is, after a prefix without quotes,
    a quoted non-empty word followed by [ is defined but never used]
    adds that word with the message's line and column (0 where absent);
    and every name extracted from a report is a non-empty word. *)
Theorem X10_unused_names_extraction
    (unused_vars : list (pystr * Z * Z)) (m : Lint.lint_message) :
  (Lint.rule_is Lint.no_unused_vars m = false
   \/ contains ExtractFacts.phrase (Lint.get (Lint.message m) []) = false ->
   FixEslintUnused.add_message unused_vars m = unused_vars)
  /\ (forall pre name post,
        Lint.rule_is Lint.no_unused_vars m = true ->
        Lint.get (Lint.message m) []
        = pre ++ s "'" ++ name ++ ExtractFacts.phrase ++ post ->
        forallb (fun c => negb (Ascii.eqb c "'")) pre = true ->
        name <> [] -> forallb is_word name = true ->
        FixEslintUnused.add_message unused_vars m
        = unused_vars ++ [(name, Lint.get (Lint.line m) 0%Z,
                           Lint.get (Lint.column m) 0%Z)])
  /\ (forall report,
        Forall ExtractFacts.name_ok (FixEslintUnused.extract_unused_vars report)).
Proof.
  split; [|split].
  - intros [H|H]; unfold FixEslintUnused.add_message.
    + rewrite H. reflexivity.
    + destruct (Lint.rule_is Lint.no_unused_vars m); [|reflexivity].
      rewrite SearchFacts.search_match_no_match; [reflexivity|].
      apply (SubFacts.needs_no_match ExtractFacts.phrase); [|exact H].
      vm_compute. reflexivity.
  - intros pre name post Hr Ht Hpre Hne Hw.
    unfold FixEslintUnused.add_message. rewrite Hr, Ht.
    destruct (ExtractFacts.unused_pattern_match (rev pre ++ []) post Hw Hne)
      as (mt & Hm & Hg).
    unfold ReSearch.search_match.
    rewrite (@SearchFacts.search_match_at FixEslintUnused.unused_pattern pre
               (s "'" ++ name ++ ExtractFacts.phrase ++ post) mt []).
    + rewrite Hg. reflexivity.
    + intros p1 c p2 E. apply ExtractFacts.unused_pattern_needs_quote.
      intros ->. rewrite E, forallb_app in Hpre.
      apply andb_true_iff in Hpre. destruct Hpre as [_ Hpre].
      cbn in Hpre. discriminate Hpre.
    + exact Hm.
  - intros report. unfold FixEslintUnused.extract_unused_vars.
    apply ExtractFacts.extract_ok. constructor.
Qed.

Lemma X10_unused_names_witness :
  FixEslintUnused.add_message []
    (Lint.LintMessage (Some (AnalyzeJson.RStr Lint.no_unused_vars))
       (Some (s "'foo' is defined but never used."))
       (Some 3%Z) (Some 7%Z))
  = [(s "foo", 3%Z, 7%Z)].
Proof.
  apply (proj1 (proj2 (X10_unused_names_extraction []
           (Lint.LintMessage (Some (AnalyzeJson.RStr Lint.no_unused_vars))
              (Some (s "'foo' is defined but never used."))
              (Some 3%Z) (Some 7%Z))))
           [] (s "foo") (s ".")).
  - reflexivity.
  - reflexivity.
  - reflexivity.
  - discriminate.
  - reflexivity.
Defined.

(** X11: [fix_unused_vars] of [fix_eslint_issues.py] on one file writes
    the file exactly when it returns a positive number of fixes; the
    lines it writes are the lines it read with that many underscores
    inserted and nothing else changed; and it never returns more fixes
    than the linter's report has messages of the unused-name rule. *)
Theorem X11_fix_unused_vars_file
    (report : option (list Lint.file_result)) (lines : list pystr) :
  let result := FixEslintUnused.fix_unused_vars report lines in
  (fst result = None <-> snd result = 0)
  /\ (forall new_lines, fst result = Some new_lines ->
        length new_lines = length lines
        /\ map LocationFacts.without_underscores new_lines
           = map LocationFacts.without_underscores lines
        /\ Py.sum (map (@length ascii) new_lines)
           = Py.sum (map (@length ascii) lines) + snd result)
  /\ snd result <= ExtractFacts.flagged (Lint.get report []).
Proof.
  intros result. unfold result, FixEslintUnused.fix_unused_vars.
  destruct report as [[|fr report]|]; cbn [fst snd Lint.get];
    try (split; [tauto|split; [discriminate|lia]]).
  pose proof (ExtractFacts.extract_length (fr :: report) []) as Hlen.
  cbn [length Nat.add] in Hlen.
  fold (FixEslintUnused.extract_unused_vars (fr :: report)) in Hlen.
  destruct (FixEslintUnused.extract_unused_vars (fr :: report)) as [|e uv];
    cbn [fst snd]; [split; [tauto|split; [discriminate|lia]]|].
  pose proof (LocationFacts.fix_all_invariant (e :: uv) (lines, 0)) as H.
  cbn zeta in H. fold (FixEslintIssues.fix_unused_vars lines (e :: uv)) in H.
  destruct (FixEslintIssues.fix_unused_vars lines (e :: uv)) as [new fixes].
  cbn [fst snd] in H. destruct H as (H1 & H2 & H3 & H4).
  destruct (0 <? fixes) eqn:E; cbn [fst snd].
  - apply Nat.ltb_lt in E. split; [split; [discriminate|lia]|].
    split; [|lia]. intros new_lines Hn. injection Hn as <-.
    repeat split; try assumption; lia.
  - apply Nat.ltb_ge in E. split; [split; [lia|reflexivity]|].
    split; [discriminate|lia].
Qed.

Module IssueFacts.

Import SubFacts PyFacts FixAllUnusedIssues.

(** The text has no character [c]. *)
Definition free_of (c : ascii) (l : pystr) : bool :=
  forallb (fun x => negb (Ascii.eqb x c)) l.

Lemma split_free (c : ascii) (a : pystr) :
  free_of c a = true -> split c a = [a].
Proof.
  induction a as [|x a IH]; cbn [free_of forallb split]; [reflexivity|].
  intros H. apply andb_true_iff in H. destruct H as [Hx H].
  destruct (Ascii.eqb x c); [discriminate|]. fold (free_of c a) in H.
  rewrite (IH H). reflexivity.
Qed.

Lemma split_at (c : ascii) (a t : pystr) :
  free_of c a = true -> split c (a ++ c :: t) = a :: split c t.
Proof.
  induction a as [|x a IH]; cbn [free_of forallb split app].
  - intros _. rewrite Ascii.eqb_refl. reflexivity.
  - intros H. apply andb_true_iff in H. destruct H as [Hx H].
    destruct (Ascii.eqb x c); [discriminate|]. fold (free_of c a) in H.
    rewrite (IH H). reflexivity.
Qed.

Lemma split_nonempty (c : ascii) (t : pystr) : split c t <> [].
Proof.
  destruct t as [|x t]; cbn [split]; [discriminate|].
  destruct (Ascii.eqb x c); [discriminate|].
  destruct (split c t); discriminate.
Qed.

(** A text that holds [c] splits at its first [c]. *)
Lemma first_occurrence (c : ascii) (msg : pystr) :
  contains [c] msg = true ->
  exists a t, msg = a ++ c :: t /\ free_of c a = true.
Proof.
  induction msg as [|x msg IH]; cbn [contains].
  - cbn. discriminate.
  - destruct (Ascii.eqb x c) eqn:E.
    + intros _. apply Ascii.eqb_eq in E. subst x. exists [], msg. auto.
    + intros H. apply orb_true_iff in H. destruct H as [H|H].
      * unfold startswith in H. cbn [strip_prefix] in H.
        rewrite Ascii.eqb_sym, E in H. discriminate.
      * destruct (IH H) as (a & t & -> & Ha). exists (x :: a), t.
        split; [reflexivity|]. cbn [free_of forallb]. rewrite E. exact Ha.
Qed.

Lemma variable_of_quoted (a t : pystr) :
  free_of "'" a = true ->
  variable_of (a ++ "'"%char :: t)
  = Some (match split "'" t with piece :: _ => piece | [] => [] end).
Proof.
  intros Ha. unfold variable_of.
  assert (Hc : contains (s "'") (a ++ "'"%char :: t) = true).
  { apply contains_iff. exists a, t. reflexivity. }
  rewrite Hc, (@split_at _ _ t Ha). unfold item. cbn [nth_error].
  pose proof (split_nonempty "'" t). destruct (split "'" t); [contradiction|].
  reflexivity.
Qed.

Lemma variable_of_total (msg : pystr) : variable_of msg <> None.
Proof.
  destruct (contains (s "'") msg) eqn:E.
  - destruct (first_occurrence "'" msg E) as (a & t & -> & Ha).
    rewrite (@variable_of_quoted _ _ Ha). discriminate.
  - unfold variable_of. rewrite E. discriminate.
Qed.

Definition named (i : issue) : Prop := variable i <> [].

Lemma add_message_total (file_path : pystr) (l : list issue)
    (m : Lint.lint_message) :
  Forall named l ->
  exists l', add_message file_path (Some l) m = Some l' /\ Forall named l'.
Proof.
  intros H. unfold add_message.
  destruct (Lint.rule_is Lint.no_unused_vars m); [|eauto].
  pose proof (variable_of_total (Lint.get (Lint.message m) [])) as Ht.
  destruct (variable_of (Lint.get (Lint.message m) [])) as [[|x v]|];
    [eauto| |contradiction].
  eexists. split; [reflexivity|]. apply Forall_app. split; [exact H|].
  constructor; [|constructor]. unfold named. cbn. discriminate.
Qed.

Lemma add_messages_total (file_path : pystr) (msgs : list Lint.lint_message) :
  forall l, Forall named l ->
  exists l', fold_left (add_message file_path) msgs (Some l) = Some l'
             /\ Forall named l'.
Proof.
  induction msgs as [|m msgs IH]; intros l H; cbn [fold_left]; [eauto|].
  destruct (add_message_total file_path m H) as (l1 & -> & H1). eauto.
Qed.

Lemma add_results_total (results : list Lint.file_result) :
  forall l, Forall named l ->
  exists l', fold_left add_result results (Some l) = Some l' /\ Forall named l'.
Proof.
  induction results as [|fr results IH]; intros l H; cbn [fold_left]; [eauto|].
  unfold add_result at 2.
  destruct (add_messages_total (Lint.get (Lint.filePath fr) [])
              (Lint.messages fr) H) as (l1 & -> & H1). eauto.
Qed.

(** *** Grouping by file *)

Definition of_file (f : pystr) (i : issue) : bool := pystr_eqb (file i) f.

Lemma group_get (issues : list issue) (f : pystr) :
  forall d : Py.dict pystr (list pystr),
  Py.get pystr_eqb f (fold_left group_issue issues d)
  = match filter (of_file f) issues with
    | [] => Py.get pystr_eqb f d
    | l => Some (getd pystr_eqb [] f d ++ map variable l)
    end.
Proof.
  induction issues as [|i issues IH]; intros d; cbn [fold_left filter];
    [reflexivity|].
  rewrite IH. unfold group_issue.
  replace (of_file f i) with (pystr_eqb (file i) f) by reflexivity.
  destruct (pystr_eqb (file i) f) eqn:E.
  - apply pystr_eqb_eq in E. rewrite E.
    unfold getd at 1. rewrite (get_upd_same pystr_eqb pystr_eqb_eq).
    destruct (filter (of_file f) issues); cbn [map].
    + reflexivity.
    + rewrite <- app_assoc. reflexivity.
  - assert (Hne : file i <> f).
    { intros H. rewrite H, (proj2 (pystr_eqb_eq f f) eq_refl) in E. discriminate. }
    unfold getd. rewrite (get_upd_other pystr_eqb pystr_eqb_eq) by exact Hne.
    reflexivity.
Qed.

Lemma group_nodup (issues : list issue) :
  forall d : Py.dict pystr (list pystr),
  NoDup (Py.keys d) -> NoDup (Py.keys (fold_left group_issue issues d)).
Proof.
  induction issues as [|i issues IH]; intros d H; cbn [fold_left]; [exact H|].
  apply IH. unfold group_issue.
  apply (nodup_keys_upd pystr_eqb pystr_eqb_eq). exact H.
Qed.

End IssueFacts.

(** X12: [get_eslint_issues] of [fix_all_unused_vars.py] takes as the
    name the text between the first quote of a message and the next one
    (or the end of the message); a message without a quote gives the
    empty name.  The index [1] after the split is always in range, so
    the function returns for every report, and every issue it returns
    has a non-empty name. *)
Theorem X12_quoted_name_of_message (msg : pystr) :
  (contains (s "'") msg = false ->
   FixAllUnusedIssues.variable_of msg = Some [])
  /\ (forall a v b,
        IssueFacts.free_of "'" a = true -> IssueFacts.free_of "'" v = true ->
        msg = a ++ s "'" ++ v ++ s "'" ++ b \/ msg = a ++ s "'" ++ v ->
        FixAllUnusedIssues.variable_of msg = Some v)
  /\ FixAllUnusedIssues.variable_of msg <> None
  /\ (forall eslint_output,
        exists issues,
          FixAllUnusedIssues.get_eslint_issues eslint_output = Some issues
          /\ Forall IssueFacts.named issues).
Proof.
  split; [|split; [|split]].
  - intros H. unfold FixAllUnusedIssues.variable_of. rewrite H. reflexivity.
  - intros a v b Ha Hv [->| ->]; cbn [s list_ascii_of_string app];
      rewrite (@IssueFacts.variable_of_quoted _ _ Ha).
    + rewrite (@IssueFacts.split_at _ _ _ Hv). reflexivity.
    + rewrite (@IssueFacts.split_free _ _ Hv). reflexivity.
  - apply IssueFacts.variable_of_total.
  - intros [results|]; cbn [FixAllUnusedIssues.get_eslint_issues].
    + apply IssueFacts.add_results_total. constructor.
    + exists []. split; [reflexivity|constructor].
Qed.

Lemma X12_quoted_name_witness :
  FixAllUnusedIssues.variable_of (s "'foo' is assigned a value but never used.")
  = Some (s "foo").
Proof.
  apply (proj1 (proj2 (X12_quoted_name_of_message
                         (s "'foo' is assigned a value but never used.")))
           [] (s "foo") (s " is assigned a value but never used.")).
  - reflexivity.
  - reflexivity.
  - left. reflexivity.
Defined.

(** X13: grouping the issues by file keeps, for every file, the names of
    its issues in the order of the report, and makes one entry per file:
    a file without issue has none. *)
Theorem X13_issues_grouped_by_file
    (issues : list FixAllUnusedIssues.issue) (f : pystr) :
  Py.get pystr_eqb f (FixAllUnusedIssues.group_by_file issues)
  = match filter (IssueFacts.of_file f) issues with
    | [] => None
    | l => Some (map FixAllUnusedIssues.variable l)
    end
  /\ NoDup (Py.keys (FixAllUnusedIssues.group_by_file issues)).
Proof.
  unfold FixAllUnusedIssues.group_by_file. split.
  - rewrite IssueFacts.group_get. reflexivity.
  - apply IssueFacts.group_nodup. constructor.
Qed.

Module CountFacts.

Import ReFacts SubFacts MeasureFacts.

(** The number of underscores of a text. *)
Definition underscores (l : pystr) : nat := mu "_" l.

(** Each replacement of the declaration patterns adds one underscore. *)
Lemma patterns_add (variable : pystr) :
  Forall (fun p => adds_one "_" (fst p) (snd p))
         (FixAllUnusedVars.patterns variable).
Proof.
  apply Forall_forall. intros p Hp. apply adds_check_sound.
  revert p Hp. apply forallb_forall. vm_compute. reflexivity.
Qed.

Lemma sub_adds (r : re) (tpl : list titem) (text : pystr) :
  adds_one "_" r tpl ->
  underscores text <= underscores (sub r tpl text)
  /\ (underscores (sub r tpl text) = underscores text -> sub r tpl text = text).
Proof.
  intros Hk. unfold sub, underscores.
  pose proof (subn_adds text Hk) as H.
  split; [lia|]. intros E. apply subn_zero. lia.
Qed.

Lemma apply_patterns_adds (ps : list (re * list titem)) :
  Forall (fun p => adds_one "_" (fst p) (snd p)) ps ->
  forall c,
  underscores c <= underscores (FixAllUnusedVars.apply_patterns ps c)
  /\ (underscores (FixAllUnusedVars.apply_patterns ps c) = underscores c ->
      FixAllUnusedVars.apply_patterns ps c = c).
Proof.
  unfold FixAllUnusedVars.apply_patterns.
  induction 1 as [|p ps Hp _ IH]; intros c; cbn [fold_left]; [auto|].
  destruct (sub_adds c Hp) as [H1 H2].
  destruct (IH (sub (fst p) (snd p) c)) as [H3 H4].
  split; [lia|]. intros E.
  assert (E1 : underscores (sub (fst p) (snd p) c) = underscores c) by lia.
  rewrite H4 by lia. exact (H2 E1).
Qed.

Lemma fix_variable_adds (c v : pystr) :
  underscores c <= underscores (FixAllUnusedVars.fix_variable c v)
  /\ (underscores (FixAllUnusedVars.fix_variable c v) = underscores c ->
      FixAllUnusedVars.fix_variable c v = c).
Proof.
  unfold FixAllUnusedVars.fix_variable.
  destruct (contains (s "_" ++ v) c); [auto|].
  apply apply_patterns_adds. apply patterns_add.
Qed.

Lemma fix_unused_vars_adds (vs : list pystr) : forall c,
  underscores c <= underscores (FixAllUnusedVars.fix_unused_vars c vs)
  /\ (underscores (FixAllUnusedVars.fix_unused_vars c vs) = underscores c ->
      FixAllUnusedVars.fix_unused_vars c vs = c).
Proof.
  unfold FixAllUnusedVars.fix_unused_vars.
  induction vs as [|v vs IH]; intros c; cbn [fold_left]; [auto|].
  destruct (fix_variable_adds c v) as [H1 H2].
  destruct (IH (FixAllUnusedVars.fix_variable c v)) as [H3 H4].
  split; [lia|]. intros E.
  assert (E1 : underscores (FixAllUnusedVars.fix_variable c v) = underscores c)
    by lia.
  rewrite H4 by lia. exact (H2 E1).
Qed.

End CountFacts.

Module RunFacts.

Import PyFacts CountFacts FixAllUnusedRun.

Definition content_of (st : pystr * bool * list line) : pystr := fst (fst st).
Definition flag_of (st : pystr * bool * list line) : bool := snd (fst st).

Lemma var_step_content (file_path content : pystr)
    (st : pystr * bool * list line) (v : pystr) :
  content_of (var_step file_path content st v)
  = FixAllUnusedVars.fix_variable (content_of st) v.
Proof.
  destruct st as [[mc fm] out]. unfold var_step, FixAllUnusedVars.fix_variable.
  cbn [content_of fst].
  destruct (contains (s "_" ++ v) mc); [reflexivity|].
  destruct (pystr_eqb _ content); reflexivity.
Qed.

Lemma var_loop_content (file_path content : pystr) (vs : list pystr) :
  forall st,
  content_of (fold_left (var_step file_path content) vs st)
  = FixAllUnusedVars.fix_unused_vars (content_of st) vs.
Proof.
  unfold FixAllUnusedVars.fix_unused_vars.
  induction vs as [|v vs IH]; intros st; cbn [fold_left]; [reflexivity|].
  rewrite IH, var_step_content. reflexivity.
Qed.

(** The flag is set exactly when the content has changed. *)
Definition flag_inv (content : pystr) (st : pystr * bool * list line) : Prop :=
  underscores content <= underscores (content_of st)
  /\ (underscores (content_of st) = underscores content -> content_of st = content)
  /\ (flag_of st = true -> content_of st <> content)
  /\ (flag_of st = false -> content_of st = content).

Lemma var_step_inv (file_path content : pystr)
    (st : pystr * bool * list line) (v : pystr) :
  flag_inv content st -> flag_inv content (var_step file_path content st v).
Proof.
  intros (H1 & H2 & H3 & H4).
  pose proof (var_step_content file_path content st v) as Hc.
  destruct (fix_variable_adds (content_of st) v) as [A1 A2].
  rewrite <- Hc in A1, A2.
  assert (I1 : underscores content
               <= underscores (content_of (var_step file_path content st v)))
    by lia.
  assert (I2 : underscores (content_of (var_step file_path content st v))
               = underscores content ->
               content_of (var_step file_path content st v) = content).
  { intros E. rewrite A2 by lia. apply H2. lia. }
  split; [exact I1|]. split; [exact I2|].
  destruct st as [[mc fm] out]. unfold var_step in *.
  cbn [content_of flag_of fst snd] in *.
  destruct (contains (s "_" ++ v) mc); cbn [content_of flag_of fst snd] in *;
    [split; assumption|].
  destruct (pystr_eqb _ content) eqn:E; cbn [content_of flag_of fst snd] in *.
  - apply pystr_eqb_eq in E. split.
    + intros Hf. exfalso. apply (H3 Hf). apply H2.
      rewrite E in A1. lia.
    + intros _. exact E.
  - split; [|discriminate]. intros _ Heq.
    rewrite Heq, (proj2 (pystr_eqb_eq content content) eq_refl) in E.
    discriminate.
Qed.

Lemma var_loop_inv (file_path content : pystr) (vs : list pystr) : forall st,
  flag_inv content st ->
  flag_inv content (fold_left (var_step file_path content) vs st).
Proof.
  induction vs as [|v vs IH]; intros st H; cbn [fold_left]; [exact H|].
  apply IH. apply var_step_inv. exact H.
Qed.

Lemma var_loop (file_path content : pystr) (vs : list pystr) :
  let st := fold_left (var_step file_path content) vs (content, false, []) in
  content_of st = FixAllUnusedVars.fix_unused_vars content vs
  /\ (flag_of st = true <-> FixAllUnusedVars.fix_unused_vars content vs <> content).
Proof.
  intros st.
  pose proof (var_loop_content file_path content vs (content, false, [])) as Hc.
  cbn [content_of fst] in Hc. fold st in Hc. split; [exact Hc|].
  assert (H0 : flag_inv content (content, false, [])).
  { unfold flag_inv. cbn. repeat split; auto. discriminate. }
  destruct (var_loop_inv file_path vs H0) as (_ & _ & H3 & H4).
  fold st in H3, H4. cbn [content_of] in Hc. unfold content_of in H3, H4.
  rewrite <- Hc. split; [exact H3|].
  intros Hne. destruct (flag_of st) eqn:E; [reflexivity|].
  exfalso. apply Hne. apply H4. reflexivity.
Qed.

(** *** The files after the run *)

(** Reading in text mode changes line ends only. *)
Lemma read_text_filter (keep : ascii -> bool) :
  keep "013"%char = false -> keep "010"%char = false ->
  forall stored, filter keep (read_text stored) = filter keep stored.
Proof.
  intros Hcr Hlf stored.
  assert (H : forall n l, length l <= n ->
                filter keep (read_text l) = filter keep l).
  { induction n as [|n IH]; intros l Hl.
    - destruct l; [reflexivity|cbn in Hl; lia].
    - destruct l as [|c rest]; [reflexivity|]. cbn [length] in Hl.
      cbn [read_text]. destruct (Ascii.eqb c "013") eqn:Ec.
      + apply Ascii.eqb_eq in Ec. subst c. cbn [filter]. rewrite Hcr.
        destruct rest as [|d rest']; [cbn; rewrite Hlf; reflexivity|].
        cbn [length] in Hl.
        destruct (Ascii.eqb d "010") eqn:Ed.
        * apply Ascii.eqb_eq in Ed. subst d. cbn [filter]. rewrite Hlf.
          apply IH. lia.
        * cbn [filter]. rewrite Hlf.
          apply (IH (d :: rest')). cbn [length]. lia.
      + cbn [filter]. rewrite IH by lia. reflexivity. }
  apply (H (length stored)). lia.
Qed.

Lemma read_text_code_chars (stored : pystr) :
  KeepFacts.code_chars (read_text stored) = KeepFacts.code_chars stored.
Proof. apply read_text_filter; reflexivity. Qed.

(** What the loop leaves in a file that holds [stored], for the names
    flagged for it: the file is written when the text read changes. *)
Definition rewrite_file (vars : list pystr) (stored : pystr) : pystr :=
  let content := read_text stored in
  let fixed := FixAllUnusedVars.fix_unused_vars content vars in
  if pystr_eqb fixed content then stored else write_text fixed.

Definition rewritten (f : pystr) (vars : list pystr) (files : disk)
    : option pystr :=
  option_map (rewrite_file vars) (Py.get pystr_eqb f files).

Definition changed (vars : list pystr) (stored : pystr) : Prop :=
  FixAllUnusedVars.fix_unused_vars (read_text stored) vars <> read_text stored.

Lemma rewrite_file_nil (stored : pystr) : rewrite_file [] stored = stored.
Proof.
  unfold rewrite_file, FixAllUnusedVars.fix_unused_vars. cbn [fold_left].
  rewrite (proj2 (pystr_eqb_eq _ _) eq_refl). reflexivity.
Qed.

Definition disk_of (st : disk * list pystr * list line) : disk := fst (fst st).
Definition modified_of (st : disk * list pystr * list line) : list pystr :=
  snd (fst st).

Lemma set_add_in (x y : pystr) (l : list pystr) :
  In y (set_add x l) <-> In y l \/ y = x.
Proof.
  unfold set_add. destruct (existsb (pystr_eqb x) l) eqn:E.
  - split; [auto|]. intros [H| ->]; [exact H|].
    apply existsb_exists in E. destruct E as (z & Hz & Ez).
    apply pystr_eqb_eq in Ez. subst z. exact Hz.
  - rewrite in_app_iff. cbn. intuition congruence.
Qed.

Lemma file_step_spec (st : disk * list pystr * list line) (f : pystr)
    (vars : list pystr) :
  let st' := file_step st (f, vars) in
  (forall path,
     Py.get pystr_eqb path (disk_of st')
     = if pystr_eqb f path then rewritten f vars (disk_of st)
       else Py.get pystr_eqb path (disk_of st))
  /\ Py.keys (disk_of st') = Py.keys (disk_of st)
  /\ (forall path,
        In path (modified_of st')
        <-> In path (modified_of st)
            \/ (path = f /\ exists stored,
                  Py.get pystr_eqb f (disk_of st) = Some stored
                  /\ changed vars stored)).
Proof.
  destruct st as [[files fmods] out]. cbn [disk_of modified_of fst snd].
  unfold file_step, rewritten, changed.
  destruct (Py.get pystr_eqb f files) as [stored|] eqn:G;
    cbn [disk_of modified_of fst snd option_map].
  - cbv zeta. set (content := read_text stored).
    destruct (var_loop f content vars) as [Hc Hf]. cbn zeta in Hc, Hf.
    destruct (fold_left (var_step f content) vars (content, false, []))
      as [[mc fm] printed].
    cbn [content_of flag_of fst snd] in Hc, Hf. subst mc.
    unfold rewrite_file. fold content.
    destruct fm; cbn [disk_of modified_of fst snd].
    + assert (Hne : FixAllUnusedVars.fix_unused_vars content vars <> content)
        by (apply Hf; reflexivity).
      assert (Hneb : pystr_eqb (FixAllUnusedVars.fix_unused_vars content vars)
                       content = false).
      { destruct (pystr_eqb _ content) eqn:E; [|reflexivity].
        apply pystr_eqb_eq in E. contradiction. }
      rewrite Hneb.
      split; [|split].
      * intros path. unfold Py.set. destruct (pystr_eqb f path) eqn:E.
        -- apply pystr_eqb_eq in E. subst path.
           rewrite (get_upd_same pystr_eqb pystr_eqb_eq). reflexivity.
        -- apply (get_upd_other pystr_eqb pystr_eqb_eq).
           intros ->. rewrite (proj2 (pystr_eqb_eq path path) eq_refl) in E.
           discriminate.
      * unfold Py.set. rewrite keys_upd, G. reflexivity.
      * intros path. rewrite set_add_in. split.
        -- intros [H| ->]; [left; exact H|right].
           split; [reflexivity|]. exists stored. split; [reflexivity|].
           exact Hne.
        -- intros [H|[-> _]]; auto.
    + assert (Hsame : FixAllUnusedVars.fix_unused_vars content vars = content).
      { destruct (list_eq_dec ascii_dec
                    (FixAllUnusedVars.fix_unused_vars content vars) content)
          as [E|E]; [exact E|].
        apply Hf in E. discriminate. }
      rewrite Hsame, (proj2 (pystr_eqb_eq content content) eq_refl).
      split; [|split].
      * intros path. destruct (pystr_eqb f path) eqn:E; [|reflexivity].
        apply pystr_eqb_eq in E. subst path. exact G.
      * reflexivity.
      * intros path. split; [auto|].
        intros [H|[-> (c & Hcg & Hne)]]; [exact H|].
        injection Hcg as <-. contradiction.
  - split; [|split].
    + intros path. destruct (pystr_eqb f path) eqn:E; [|reflexivity].
      apply pystr_eqb_eq in E. subst path. exact G.
    + reflexivity.
    + intros path. split; [auto|].
      intros [H|[-> (c & Hcg & _)]]; [exact H|discriminate].
Qed.

(** The names flagged for a file in a grouping. *)
Definition names_of (f : pystr) (items : Py.dict pystr (list pystr))
    : list pystr :=
  getd pystr_eqb [] f items.

Lemma run_spec (items : Py.dict pystr (list pystr)) :
  NoDup (Py.keys items) ->
  forall st : disk * list pystr * list line,
  let st' := fold_left file_step items st in
  (forall path,
     Py.get pystr_eqb path (disk_of st')
     = rewritten path (names_of path items) (disk_of st))
  /\ Py.keys (disk_of st') = Py.keys (disk_of st)
  /\ (forall path,
        In path (modified_of st')
        <-> In path (modified_of st)
            \/ exists stored,
                 Py.get pystr_eqb path (disk_of st) = Some stored
                 /\ changed (names_of path items) stored).
Proof.
  induction items as [|[f vars] items IH]; intros Hnd st; cbn [fold_left].
  - split; [|split].
    + intros path. unfold rewritten, names_of, getd. cbn [Py.get].
      destruct (Py.get pystr_eqb path (disk_of st)); cbn [option_map];
        [rewrite rewrite_file_nil|]; reflexivity.
    + reflexivity.
    + intros path. split; [auto|].
      intros [H|(c & _ & Hne)]; [exact H|].
      exfalso. apply Hne. reflexivity.
  - cbn [Py.keys map fst] in Hnd. inversion Hnd as [|? ? Hni Hnd']. subst.
    destruct (file_step_spec st f vars) as (S1 & S2 & S3). cbn zeta in S1, S2, S3.
    destruct (IH Hnd' (file_step st (f, vars))) as (I1 & I2 & I3).
    cbn zeta in I1, I2, I3.
    assert (Hfresh : names_of f items = []).
    { unfold names_of, getd.
      destruct (Py.get pystr_eqb f items) as [v|] eqn:G; [|reflexivity].
      exfalso. apply Hni. clear - G.
      induction items as [|[k v'] items IH]; cbn in *; [discriminate|].
      destruct (pystr_eqb f k) eqn:E.
      - left. symmetry. apply pystr_eqb_eq. exact E.
      - right. apply IH. exact G. }
    assert (Hnames : forall path,
              names_of path ((f, vars) :: items)
              = if pystr_eqb f path then vars else names_of path items).
    { intros path. unfold names_of, getd. cbn [Py.get].
      destruct (pystr_eqb path f) eqn:E.
      - apply pystr_eqb_eq in E. subst path.
        rewrite (proj2 (pystr_eqb_eq f f) eq_refl). reflexivity.
      - destruct (pystr_eqb f path) eqn:E'; [|reflexivity].
        apply pystr_eqb_eq in E'. subst path.
        rewrite (proj2 (pystr_eqb_eq f f) eq_refl) in E. discriminate. }
    split; [|split].
    + intros path. rewrite I1, Hnames. unfold rewritten at 1. rewrite S1.
      destruct (pystr_eqb f path) eqn:E.
      * apply pystr_eqb_eq in E. subst path. rewrite Hfresh.
        unfold rewritten.
        destruct (Py.get pystr_eqb f (disk_of st)); cbn [option_map];
          [rewrite rewrite_file_nil|]; reflexivity.
      * reflexivity.
    + rewrite I2. exact S2.
    + intros path. rewrite I3, S3, S1, Hnames.
      destruct (pystr_eqb f path) eqn:E.
      * apply pystr_eqb_eq in E. subst path. rewrite Hfresh. split.
        -- intros [[H|[_ H]]|(c & _ & Hne)]; auto.
           exfalso. apply Hne. reflexivity.
        -- intros [H|H]; auto.
      * split.
        -- intros [[H|[-> _]]|H]; auto.
           rewrite (proj2 (pystr_eqb_eq f f) eq_refl) in E. discriminate.
        -- intros [H|H]; auto.
Qed.

End RunFacts.

(** X14: the run of [fix_unused_vars] of [fix_all_unused_vars.py] over
    the files.  A file that exists is read in text mode, so that its
    line ends are read as "\n"; when the declaration patterns change the
    text read, for the names flagged for the file in the order of the
    report, the file is written and holds the rewritten text afterwards;
    otherwise it is not written and keeps the characters it held (a file
    without issue is untouched).  No file is created or removed; the
    characters of every file other than whitespace and underscores are
    kept; and [files_modified] holds exactly the files that were
    written. *)
Theorem X14_run_rewrites_each_flagged_file
    (issues : list FixAllUnusedIssues.issue) (files : FixAllUnusedRun.disk)
    (path : pystr) :
  let result := FixAllUnusedRun.fix_unused_vars issues files in
  let names := map FixAllUnusedIssues.variable
                 (filter (IssueFacts.of_file path) issues) in
  let before := Py.get pystr_eqb path files in
  let after := Py.get pystr_eqb path (RunFacts.disk_of result) in
  after
  = match before with
    | Some stored =>
        let content := FixAllUnusedRun.read_text stored in
        let fixed := FixAllUnusedVars.fix_unused_vars content names in
        Some (if pystr_eqb fixed content then stored else fixed)
    | None => None
    end
  /\ Py.keys (RunFacts.disk_of result) = Py.keys files
  /\ option_map KeepFacts.code_chars after
     = option_map KeepFacts.code_chars before
  /\ (In path (RunFacts.modified_of result)
      <-> exists stored,
            before = Some stored
            /\ FixAllUnusedVars.fix_unused_vars
                 (FixAllUnusedRun.read_text stored) names
               <> FixAllUnusedRun.read_text stored).
Proof.
  intros result names before after.
  destruct (@RunFacts.run_spec _
              (@IssueFacts.group_nodup issues [] (NoDup_nil _))
              (files, [], [])) as (H1 & H2 & H3).
  cbn zeta in H1, H2, H3.
  fold (FixAllUnusedIssues.group_by_file issues) in H1, H2, H3.
  fold (FixAllUnusedRun.fix_unused_vars issues files) in H1, H2, H3.
  fold result in H1, H2, H3. cbn [RunFacts.disk_of RunFacts.modified_of fst snd] in *.
  assert (Hn : RunFacts.names_of path (FixAllUnusedIssues.group_by_file issues)
               = names).
  { unfold RunFacts.names_of, PyFacts.getd.
    unfold FixAllUnusedIssues.group_by_file. rewrite IssueFacts.group_get.
    unfold names. destruct (filter (IssueFacts.of_file path) issues); reflexivity. }
  assert (Ha : after = option_map (RunFacts.rewrite_file names) before).
  { unfold after. rewrite H1, Hn. reflexivity. }
  split; [|split; [exact H2|split]].
  - rewrite Ha. unfold before. destruct (Py.get pystr_eqb path files);
      reflexivity.
  - rewrite Ha. unfold before.
    destruct (Py.get pystr_eqb path files) as [stored|]; [|reflexivity].
    cbn [option_map]. f_equal. unfold RunFacts.rewrite_file.
    destruct (pystr_eqb _ _); [reflexivity|].
    unfold FixAllUnusedRun.write_text.
    rewrite KeepFacts.fix_unused_vars_keeps.
    apply RunFacts.read_text_code_chars.
  - rewrite H3, Hn. unfold RunFacts.changed, before. split.
    + intros [[]|H]. exact H.
    + intros H. right. exact H.
Qed.

Lemma X14_run_witness :
  let issues := [FixAllUnusedIssues.Issue (s "src/a.ts") 1 7 (s "unused")] in
  let stored := ["c"; "o"; "n"; "s"; "t"; " "; "u"; "n"; "u"; "s"; "e"; "d"; " ";
                 "="; " "; "5"; ";"; "013"; "010"]%char in
  let files := [(s "src/a.ts", stored); (s "src/b.ts", stored)] in
  let result := FixAllUnusedRun.fix_unused_vars issues files in
  Py.get pystr_eqb (s "src/a.ts") (RunFacts.disk_of result)
  = Some (s "const _unused = 5;" ++ ["010"%char])
  /\ Py.get pystr_eqb (s "src/b.ts") (RunFacts.disk_of result) = Some stored.
Proof.
  intros issues stored files result. split.
  - exact (proj1 (X14_run_rewrites_each_flagged_file issues files (s "src/a.ts"))).
  - exact (proj1 (X14_run_rewrites_each_flagged_file issues files (s "src/b.ts"))).
Defined.

(** X15: the line "Fixed unused variable" is printed for a name whenever
    the content differs from the content read, not when the name's own
    patterns changed something: once an earlier name of the file has been
    rewritten, a later name that does not even occur in the file is
    reported as fixed, though its iteration leaves the content as it
    was. *)
Theorem X15_fixed_line_printed_for_untouched_name
    (file_path content v1 v2 : pystr) :
  FixAllUnusedVars.fix_variable content v1 <> content ->
  contains v2 (FixAllUnusedVars.fix_variable content v1) = false ->
  fold_left (FixAllUnusedRun.var_step file_path content) [v1; v2]
    (content, false, [])
  = (FixAllUnusedVars.fix_variable content v1, true,
     [FixAllUnusedRun.U_fixed v1 file_path; FixAllUnusedRun.U_fixed v2 file_path])
  /\ FixAllUnusedVars.fix_variable
       (FixAllUnusedVars.fix_variable content v1) v2
     = FixAllUnusedVars.fix_variable content v1.
Proof.
  intros Hne Hv2.
  set (c1 := FixAllUnusedVars.fix_variable content v1) in *.
  assert (Hneb : pystr_eqb c1 content = false).
  { destruct (pystr_eqb c1 content) eqn:E; [|reflexivity].
    apply pystr_eqb_eq in E. contradiction. }
  assert (Hskip2 : contains (s "_" ++ v2) c1 = false).
  { destruct (contains (s "_" ++ v2) c1) eqn:E; [|reflexivity].
    rewrite <- Hv2. symmetry. eapply MarkFacts.contains_trans; [|exact E].
    apply SubFacts.contains_iff. exists (s "_"), [].
    rewrite app_nil_r. reflexivity. }
  assert (Hsame : FixAllUnusedVars.apply_patterns
                    (FixAllUnusedVars.patterns v2) c1 = c1).
  { apply AnyFacts.apply_patterns_no_match.
    eapply Forall_impl; [|apply AnyFacts.patterns_need_variable].
    intros p Hp. cbv beta in Hp. eapply SubFacts.needs_no_match; eauto. }
  split.
  - cbn [fold_left]. unfold FixAllUnusedRun.var_step at 2.
    unfold c1 in *. unfold FixAllUnusedVars.fix_variable in *.
    destruct (contains (s "_" ++ v1) content); [contradiction Hne; reflexivity|].
    rewrite Hneb. unfold FixAllUnusedRun.var_step.
    rewrite Hskip2, Hsame, Hneb. reflexivity.
  - unfold FixAllUnusedVars.fix_variable at 1. rewrite Hskip2. exact Hsame.
Qed.

Lemma X15_fixed_line_witness :
  fold_left (FixAllUnusedRun.var_step (s "a.ts") (s "const a = 1;"))
    [s "a"; s "zz"] (s "const a = 1;", false, [])
  = (FixAllUnusedVars.fix_variable (s "const a = 1;") (s "a"), true,
     [FixAllUnusedRun.U_fixed (s "a") (s "a.ts");
      FixAllUnusedRun.U_fixed (s "zz") (s "a.ts")]).
Proof.
  apply (fun H1 H2 =>
           proj1 (@X15_fixed_line_printed_for_untouched_name
                    (s "a.ts") (s "const a = 1;") (s "a") (s "zz") H1 H2)).
  - vm_compute. discriminate.
  - vm_compute. reflexivity.
Defined.

Module AnyRunFacts.

Import PyFacts FixAnyTypesRun.

Definition state : Type := FixAllUnusedRun.disk * list pystr * list line.

(** What the loops do with one path of a [.ts] file. *)
Definition process (st : option state) (file_path : pystr) : option state :=
  match st with
  | None => None
  | Some (files, files_modified, out) =>
      match Py.get pystr_eqb file_path files with
      | None => None
      | Some stored =>
          let content := FixAllUnusedRun.read_text stored in
          let (modified_content, file_modified) :=
            FixAnyTypes.fix_content content in
          if file_modified
          then Some (Py.set pystr_eqb file_path
                       (FixAllUnusedRun.write_text modified_content) files,
                     FixAllUnusedRun.set_add file_path files_modified,
                     out ++ [A_fixed file_path])
          else st
      end
  end.

(** The paths of the [.ts] files of a walk, in its order. *)
Definition ts_paths (walk : list (pystr * list pystr)) : list pystr :=
  flat_map (fun e => map (join (fst e)) (filter (endswith (s ".ts")) (snd e)))
           walk.

Lemma files_fold (root : pystr) (files : list pystr) : forall st,
  fold_left (file_step root) files st
  = fold_left process (map (join root) (filter (endswith (s ".ts")) files)) st.
Proof.
  induction files as [|f files IH]; intros st; cbn [fold_left filter map];
    [reflexivity|].
  rewrite IH. destruct (endswith (s ".ts") f) eqn:E; cbn [map fold_left].
  - f_equal. unfold file_step, process. destruct st as [[[d m] o]|]; [|reflexivity].
    rewrite E. reflexivity.
  - f_equal. unfold file_step. destruct st as [[[d m] o]|]; [|reflexivity].
    rewrite E. reflexivity.
Qed.

Lemma walk_fold (walk : list (pystr * list pystr)) : forall st,
  fold_left dir_step walk st = fold_left process (ts_paths walk) st.
Proof.
  induction walk as [|e walk IH]; intros st; cbn [fold_left ts_paths flat_map];
    [reflexivity|].
  rewrite fold_left_app, IH. unfold dir_step. rewrite files_fold.
  reflexivity.
Qed.

(** What the loop leaves in a file that holds [stored]: the file is
    written when the substitutions change the text read. *)
Definition rewrite_file (stored : pystr) : pystr :=
  let content := FixAllUnusedRun.read_text stored in
  let fixed := fst (FixAnyTypes.fix_content content) in
  if pystr_eqb fixed content then stored else fixed.

(** The text read from the file changes under [fix_content]. *)
Definition changes (files : FixAllUnusedRun.disk) (path : pystr) : bool :=
  match Py.get pystr_eqb path files with
  | Some stored =>
      let content := FixAllUnusedRun.read_text stored in
      negb (pystr_eqb (fst (FixAnyTypes.fix_content content)) content)
  | None => false
  end.

Definition fixed (files : FixAllUnusedRun.disk) (path : pystr) : option pystr :=
  option_map rewrite_file (Py.get pystr_eqb path files).

Lemma pystr_eqb_refl (a : pystr) : pystr_eqb a a = true.
Proof. apply pystr_eqb_eq. reflexivity. Qed.

Lemma pystr_eqb_neq (a b : pystr) : a <> b -> pystr_eqb a b = false.
Proof.
  intros H. destruct (pystr_eqb a b) eqn:E; [|reflexivity].
  apply pystr_eqb_eq in E. contradiction.
Qed.

Lemma process_spec (paths : list pystr) :
  forall (files : FixAllUnusedRun.disk) (mods : list pystr) (out : list line),
  NoDup paths ->
  Forall (fun p => Py.get pystr_eqb p files <> None) paths ->
  exists files' mods',
    fold_left process paths (Some (files, mods, out))
    = Some (files', mods', out ++ map A_fixed (filter (changes files) paths))
    /\ (forall path,
          Py.get pystr_eqb path files'
          = if existsb (pystr_eqb path) paths then fixed files path
            else Py.get pystr_eqb path files)
    /\ Py.keys files' = Py.keys files
    /\ (forall path,
          In path mods'
          <-> In path mods \/ (In path paths /\ changes files path = true)).
Proof.
  induction paths as [|p paths IH]; intros files mods out Hnd Hex;
    cbn [fold_left filter map existsb].
  - exists files, mods. rewrite app_nil_r. repeat split; auto.
    + intros [H|[[] _]]. exact H.
  - inversion Hnd as [|? ? Hni Hnd']. subst.
    inversion Hex as [|? ? Hp Hex']. subst.
    destruct (Py.get pystr_eqb p files) as [c|] eqn:G; [|contradiction].
    set (content := FixAllUnusedRun.read_text c).
    assert (Hch : changes files p
                  = snd (FixAnyTypes.fix_content content)).
    { unfold changes. rewrite G. cbv zeta. fold content.
      pose proof (MeasureFacts.fix_content_flag content) as Hf.
      destruct (snd (FixAnyTypes.fix_content content)).
      - apply negb_true_iff. apply pystr_eqb_neq. apply Hf. reflexivity.
      - apply negb_false_iff. apply pystr_eqb_eq.
        destruct (list_eq_dec ascii_dec (fst (FixAnyTypes.fix_content content))
                    content)
          as [E|E]; [exact E|].
        apply Hf in E. discriminate. }
    unfold process at 2. rewrite G. cbv zeta. fold content.
    destruct (FixAnyTypes.fix_content content) as [mc fm] eqn:Efc.
    cbn [fst snd] in Hch. unfold FixAllUnusedRun.write_text.
    set (files1 := if fm then Py.set pystr_eqb p mc files else files).
    assert (Hfix : fixed files p = Some (if fm then mc else c)).
    { unfold fixed. rewrite G. cbn [option_map]. f_equal.
      unfold rewrite_file. fold content. rewrite Efc. cbn [fst].
      unfold changes in Hch. rewrite G in Hch. cbv zeta in Hch.
      fold content in Hch. rewrite Efc in Hch. cbn [fst] in Hch.
      destruct fm.
      - apply negb_true_iff in Hch. rewrite Hch. reflexivity.
      - apply negb_false_iff in Hch. rewrite Hch. reflexivity. }
    assert (Hget1 : forall path,
              Py.get pystr_eqb path files1
              = if pystr_eqb path p then Some (if fm then mc else c)
                else Py.get pystr_eqb path files).
    { intros path. unfold files1. destruct (pystr_eqb path p) eqn:E.
      - apply pystr_eqb_eq in E. subst path. destruct fm.
        + unfold Py.set. rewrite (get_upd_same pystr_eqb pystr_eqb_eq).
          reflexivity.
        + exact G.
      - destruct fm; [|reflexivity].
        unfold Py.set. apply (get_upd_other pystr_eqb pystr_eqb_eq).
        intros ->. rewrite pystr_eqb_refl in E. discriminate. }
    assert (Hkeys1 : Py.keys files1 = Py.keys files).
    { unfold files1. destruct fm; [|reflexivity].
      unfold Py.set. rewrite keys_upd, G. reflexivity. }
    assert (Hrest : forall q, In q paths ->
              Py.get pystr_eqb q files1 = Py.get pystr_eqb q files).
    { intros q Hq. rewrite Hget1. rewrite pystr_eqb_neq; [reflexivity|].
      intros ->. exact (Hni Hq). }
    assert (Hex1 : Forall (fun q => Py.get pystr_eqb q files1 <> None) paths).
    { rewrite Forall_forall in *. intros q Hq. rewrite (Hrest q Hq).
      apply Hex'. exact Hq. }
    assert (Hfilter : filter (changes files1) paths = filter (changes files) paths).
    { apply filter_ext_in. intros q Hq. unfold changes.
      rewrite (Hrest q Hq). reflexivity. }
    destruct (IH files1
                (if fm then FixAllUnusedRun.set_add p mods else mods)
                (if fm then out ++ [A_fixed p] else out) Hnd' Hex1)
      as (files' & mods' & Hrun & Hget & Hkeys & Hmods).
    exists files', mods'. split; [|split; [|split]].
    + rewrite Hch. rewrite Hfilter in Hrun. clear - Hrun.
      subst files1. destruct fm.
      * etransitivity; [exact Hrun|].
        cbn [map]. rewrite <- app_assoc. reflexivity.
      * exact Hrun.
    + intros path. rewrite Hget, Hget1.
      destruct (pystr_eqb path p) eqn:E; cbn [orb].
      * apply pystr_eqb_eq in E. subst path. rewrite Hfix.
        destruct (existsb (pystr_eqb p) paths) eqn:Ee; [|reflexivity].
        exfalso. apply existsb_exists in Ee. destruct Ee as (q & Hq & Eq).
        apply pystr_eqb_eq in Eq. subst q. exact (Hni Hq).
      * destruct (existsb (pystr_eqb path) paths) eqn:Ee; [|reflexivity].
        unfold fixed. rewrite Hget1, E. reflexivity.
    + rewrite Hkeys. exact Hkeys1.
    + intros path. rewrite Hmods. cbn [In].
      assert (Hc' : forall q, In q paths -> changes files1 q = changes files q).
      { intros q Hq. unfold changes. rewrite (Hrest q Hq). reflexivity. }
      assert (Hm1 : In path (if fm then FixAllUnusedRun.set_add p mods else mods)
                    <-> In path mods \/ (path = p /\ fm = true)).
      { destruct fm.
        - rewrite RunFacts.set_add_in. split.
          + intros [H| ->]; auto.
          + intros [H|[-> _]]; auto.
        - split; [auto|]. intros [H|[_ H]]; [exact H|discriminate]. }
      rewrite Hm1. split.
      * intros [[H|[-> Hf]]|[Hin Hc]].
        -- left. exact H.
        -- right. split; [left; reflexivity|]. rewrite Hch. exact Hf.
        -- right. split; [right; exact Hin|]. rewrite <- (Hc' _ Hin). exact Hc.
      * intros [H|[[<-|Hin] Hc]].
        -- left. left. exact H.
        -- left. right. split; [reflexivity|]. rewrite <- Hch. exact Hc.
        -- right. split; [exact Hin|]. rewrite (Hc' _ Hin). exact Hc.
Qed.

End AnyRunFacts.

(** X24: the run of [fix_any_types] over the files that [os.walk] yields,
    when it yields every file once and the files are there.  The run
    ends normally.  Every file whose name ends in [.ts] is read in text
    mode, so that its line ends are read as "\n"; when the eight
    substitutions change the text read, the file is written and holds
    the rewritten text afterwards; otherwise it is not written and keeps
    the characters it held, and so does every other file.  No file is
    created or removed; [files_modified] holds exactly the [.ts] files
    that were written, and one line is printed for each of them, in the
    order of the walk. *)
Theorem X24_any_types_run
    (walk : list (pystr * list pystr)) (files : FixAllUnusedRun.disk) :
  let paths := AnyRunFacts.ts_paths walk in
  let written := fun path =>
    match Py.get pystr_eqb path files with
    | Some stored =>
        let content := FixAllUnusedRun.read_text stored in
        negb (pystr_eqb (fst (FixAnyTypes.fix_content content)) content)
    | None => false
    end in
  NoDup paths ->
  Forall (fun p => Py.get pystr_eqb p files <> None) paths ->
  exists files' files_modified,
    FixAnyTypesRun.fix_any_types walk files
    = Some (files', files_modified,
            map FixAnyTypesRun.A_fixed (filter written paths))
    /\ (forall path,
          Py.get pystr_eqb path files'
          = if existsb (pystr_eqb path) paths && written path
            then option_map
                   (fun stored =>
                      fst (FixAnyTypes.fix_content
                             (FixAllUnusedRun.read_text stored)))
                   (Py.get pystr_eqb path files)
            else Py.get pystr_eqb path files)
    /\ Py.keys files' = Py.keys files
    /\ (forall path,
          In path files_modified
          <-> In path paths /\ written path = true).
Proof.
  intros paths written Hnd Hex.
  destruct (@AnyRunFacts.process_spec paths files [] [] Hnd Hex)
    as (files' & mods' & Hrun & Hget & Hkeys & Hmods).
  exists files', mods'.
  split; [|split; [|split; [exact Hkeys|]]].
  - unfold FixAnyTypesRun.fix_any_types. rewrite AnyRunFacts.walk_fold.
    exact Hrun.
  - intros path. rewrite Hget.
    destruct (existsb (pystr_eqb path) paths); cbn [andb]; [|reflexivity].
    unfold AnyRunFacts.fixed, written, AnyRunFacts.rewrite_file.
    destruct (Py.get pystr_eqb path files) as [stored|]; cbn [option_map];
      [|reflexivity].
    cbv zeta. destruct (pystr_eqb _ _); reflexivity.
  - intros path. rewrite Hmods. cbn [In]. split.
    + intros [[]|H]. exact H.
    + intros H. right. exact H.
Qed.

Lemma X24_any_types_run_witness :
  let walk := [(s "src", [s "a.ts"; s "notes.md"; s "b.ts"])] in
  let crlf := ["013"; "010"]%char in
  let files := [(s "src/a.ts", s "let x: any;" ++ crlf);
                (s "src/notes.md", s "x: any");
                (s "src/b.ts", s "let y = 1;" ++ crlf)] in
  exists files' files_modified,
    FixAnyTypesRun.fix_any_types walk files
    = Some (files', files_modified, [FixAnyTypesRun.A_fixed (s "src/a.ts")])
    /\ Py.get pystr_eqb (s "src/a.ts") files'
       = Some (s "let x: unknown;" ++ ["010"%char])
    /\ Py.get pystr_eqb (s "src/notes.md") files' = Some (s "x: any")
    /\ Py.get pystr_eqb (s "src/b.ts") files' = Some (s "let y = 1;" ++ crlf)
    /\ In (s "src/a.ts") files_modified
    /\ ~ In (s "src/b.ts") files_modified.
Proof.
  intros walk crlf files.
  destruct (@X24_any_types_run walk files)
    as (files' & mods & H1 & H2 & _ & H4).
  - vm_compute.
    constructor; [intros [H|[]]; discriminate H|].
    constructor; [intros []|constructor].
  - vm_compute. repeat (constructor; [discriminate|]). constructor.
  - exists files', mods. split; [exact H1|].
    split; [exact (H2 (s "src/a.ts"))|].
    split; [exact (H2 (s "src/notes.md"))|].
    split; [exact (H2 (s "src/b.ts"))|].
    split.
    + apply (H4 (s "src/a.ts")). split; [left|]; reflexivity.
    + intros H. apply (H4 (s "src/b.ts")) in H. destruct H as [_ H].
      discriminate H.
Defined.

Module RuleFacts.

Import AnalyzeJson PyFacts JsonFacts JsonInv.

(** The number of messages that carry the rule. *)
Definition occurrences (x : rule_id) (msgs : list message) : nat :=
  length (filter (fun m => rule_eqb (rule_of m) x) msgs).

Lemma getd_bump (r x : rule_id) (d : rules) :
  getd rule_eqb 0 x (bump r d)
  = getd rule_eqb 0 x d + (if rule_eqb r x then 1 else 0).
Proof.
  unfold bump. destruct (rule_eqb r x) eqn:E.
  - apply rule_eqb_eq in E. subst x. unfold getd at 1.
    rewrite (get_upd_same rule_eqb rule_eqb_eq). lia.
  - unfold getd. rewrite (get_upd_other rule_eqb rule_eqb_eq).
    + lia.
    + intros ->. rewrite (proj2 (rule_eqb_eq x x) eq_refl) in E. discriminate.
Qed.

Lemma tally_count (x : rule_id) (msgs : list message) : forall d : rules,
  getd rule_eqb 0 x (tally msgs d) = getd rule_eqb 0 x d + occurrences x msgs.
Proof.
  unfold tally, occurrences.
  induction msgs as [|m msgs IH]; intros d; cbn [fold_left filter length]; [lia|].
  rewrite IH, getd_bump.
  destruct (rule_eqb (rule_of m) x); cbn [length]; lia.
Qed.

Lemma get_pos (x : rule_id) (d : rules) (v : nat) :
  Forall (fun e => 1 <= snd e) d -> Py.get rule_eqb x d = Some v -> 1 <= v.
Proof.
  induction 1 as [|[r c] d Hc _ IH]; cbn; [discriminate|].
  destruct (rule_eqb x r); [|exact IH].
  intros E. injection E as <-. exact Hc.
Qed.

(** A dictionary of positive counts holds a rule exactly when its count
    is not zero. *)
Lemma get_of_getd (x : rule_id) (d : rules) :
  Forall (fun e => 1 <= snd e) d ->
  Py.get rule_eqb x d
  = match getd rule_eqb 0 x d with 0 => None | S n => Some (S n) end.
Proof.
  intros Hpos. unfold getd.
  destruct (Py.get rule_eqb x d) as [v|] eqn:E; [|reflexivity].
  pose proof (get_pos x Hpos E). destruct v; [lia|reflexivity].
Qed.

Lemma occurrences_app (x : rule_id) (a b : list message) :
  occurrences x (a ++ b) = occurrences x a + occurrences x b.
Proof. unfold occurrences. rewrite filter_app, length_app. reflexivity. Qed.

Section Agg.

Variable relpath : pystr -> pystr.

Lemma aggregate_rule_counts (x : rule_id) (r : report) : forall a : analysis,
  getd rule_eqb 0 x (rule_counts (fold_left (JsonLoop.step relpath) r a))
  = getd rule_eqb 0 x (rule_counts a) + occurrences x (flat_map messages r).
Proof.
  induction r as [|fr r IH]; intros a; cbn [fold_left flat_map].
  - unfold occurrences. cbn. lia.
  - rewrite IH, occurrences_app. destruct (has_messages fr) eqn:Hm.
    + rewrite add_file_messages by exact Hm. cbn [rule_counts].
      rewrite tally_count. lia.
    + rewrite add_file_skip by exact Hm.
      unfold has_messages in Hm. destruct (messages fr); [|discriminate].
      unfold occurrences. cbn. lia.
Qed.

Lemma aggregate_counts_total (r : report) : forall a : analysis,
  rules_total (rule_counts (fold_left (JsonLoop.step relpath) r a))
  = rules_total (rule_counts a) + length (flat_map messages r)
  /\ total_issues (fold_left (JsonLoop.step relpath) r a)
     = total_issues a + length (flat_map messages r).
Proof.
  induction r as [|fr r IH]; intros a; cbn [fold_left flat_map length]; [lia|].
  destruct (IH (JsonLoop.step relpath a fr)) as [IH1 IH2].
  rewrite IH1, IH2, length_app. destruct (has_messages fr) eqn:Hm.
  - rewrite add_file_messages by exact Hm. cbn [rule_counts total_issues].
    rewrite tally_total. lia.
  - rewrite add_file_skip by exact Hm.
    unfold has_messages in Hm. destruct (messages fr); [|discriminate].
    cbn. lia.
Qed.

Lemma aggregate_counts_pos (r : report) : forall a : analysis,
  Forall (fun e => 1 <= snd e) (rule_counts a) ->
  Forall (fun e => 1 <= snd e) (rule_counts (fold_left (JsonLoop.step relpath) r a)).
Proof.
  induction r as [|fr r IH]; intros a H; cbn [fold_left]; [exact H|].
  apply IH. destruct (has_messages fr) eqn:Hm.
  - rewrite add_file_messages by exact Hm. cbn [rule_counts].
    apply tally_pos. exact H.
  - rewrite add_file_skip by exact Hm. exact H.
Qed.

Lemma aggregate_counts_nodup (r : report) : forall a : analysis,
  NoDup (Py.keys (rule_counts a)) ->
  NoDup (Py.keys (rule_counts (fold_left (JsonLoop.step relpath) r a))).
Proof.
  induction r as [|fr r IH]; intros a H; cbn [fold_left]; [exact H|].
  apply IH. destruct (has_messages fr) eqn:Hm.
  - rewrite add_file_messages by exact Hm. cbn [rule_counts].
    apply tally_nodup. exact H.
  - rewrite add_file_skip by exact Hm. exact H.
Qed.

(** *** What is stored for a file *)

Lemma store_all_count d f (x : rule_id) (fi : rules) : forall i : issues,
  NoDup (Py.keys fi) ->
  count_at d f x (fold_left (store d f) fi i)
  = match Py.get rule_eqb x fi with
    | Some c => c
    | None => count_at d f x i
    end.
Proof.
  induction fi as [|[r c] fi IH]; intros i Hnd; cbn [fold_left Py.get];
    [reflexivity|].
  inversion Hnd as [|? ? Hni Hnd']. subst.
  rewrite IH by exact Hnd'.
  destruct (rule_eqb x r) eqn:E.
  - apply rule_eqb_eq in E. subst r.
    destruct (Py.get rule_eqb x fi) as [c'|] eqn:G.
    + exfalso. apply Hni. clear - G.
      induction fi as [|[r' c''] fi IH]; cbn in *; [discriminate|].
      destruct (rule_eqb x r') eqn:E.
      * left. symmetry. apply rule_eqb_eq. exact E.
      * right. apply IH. exact G.
    + apply count_store_same.
  - destruct (Py.get rule_eqb x fi); [reflexivity|].
    apply count_store_other. intros H. injection H as ->.
    rewrite (proj2 (rule_eqb_eq x x) eq_refl) in E. discriminate.
Qed.

Lemma add_file_count_other (a : analysis) (fr : file_report) d f x :
  (file_key relpath fr = (d, f) -> occurrences x (messages fr) = 0) ->
  count_at d f x (issues_by_dir (JsonLoop.step relpath a fr))
  = count_at d f x (issues_by_dir a).
Proof.
  intros H. destruct (has_messages fr) eqn:Hm.
  - rewrite add_file_messages by exact Hm. cbn [issues_by_dir].
    destruct (file_key relpath fr) as [d0 f0] eqn:Ek. cbn [fst snd].
    destruct (list_eq_dec ascii_dec d0 d) as [->|Hd].
    + destruct (list_eq_dec ascii_dec f0 f) as [->|Hf].
      * rewrite store_all_count by (apply tally_nodup; constructor).
        rewrite get_of_getd by (apply tally_pos; constructor).
        rewrite tally_count, (H eq_refl). reflexivity.
      * apply count_store_all_other. congruence.
    + apply count_store_all_other. congruence.
  - rewrite add_file_skip by exact Hm. reflexivity.
Qed.

Lemma aggregate_count_other (r : report) d f x : forall a : analysis,
  Forall (fun fr => file_key relpath fr = (d, f) ->
                    occurrences x (messages fr) = 0) r ->
  count_at d f x (issues_by_dir (fold_left (JsonLoop.step relpath) r a))
  = count_at d f x (issues_by_dir a).
Proof.
  induction r as [|fr r IH]; intros a H; cbn [fold_left]; [reflexivity|].
  inversion H as [|? ? Hfr Hr]. subst.
  rewrite IH by exact Hr. apply add_file_count_other. exact Hfr.
Qed.

Lemma add_file_count_same (a : analysis) (fr : file_report) x n :
  occurrences x (messages fr) = S n ->
  count_at (fst (file_key relpath fr)) (snd (file_key relpath fr)) x
    (issues_by_dir (JsonLoop.step relpath a fr)) = S n.
Proof.
  intros H. assert (Hm : has_messages fr = true).
  { unfold has_messages. destruct (messages fr); [discriminate H|reflexivity]. }
  rewrite add_file_messages by exact Hm. cbn [issues_by_dir].
  rewrite store_all_count by (apply tally_nodup; constructor).
  rewrite get_of_getd by (apply tally_pos; constructor).
  rewrite tally_count, H. reflexivity.
Qed.

(** *** The directory totals never exceed the running total *)

Lemma store_all_total_le d f (fi : rules) : forall i : issues,
  issues_total (fold_left (store d f) fi i) <= issues_total i + rules_total fi.
Proof.
  unfold rules_total, Py.values.
  induction fi as [|[r c] fi IH]; intros i; cbn [fold_left map].
  - lia.
  - pose proof (IH (store d f i (r, c))) as H.
    pose proof (store_total d f r c i) as Ht.
    rewrite sum_cons. cbn [snd]. lia.
Qed.

Lemma aggregate_total_le (r : report) : forall a : analysis,
  issues_total (issues_by_dir a) <= total_issues a ->
  issues_total (issues_by_dir (fold_left (JsonLoop.step relpath) r a))
  <= total_issues (fold_left (JsonLoop.step relpath) r a).
Proof.
  induction r as [|fr r IH]; intros a H; cbn [fold_left]; [exact H|].
  apply IH. destruct (has_messages fr) eqn:Hm.
  - rewrite add_file_messages by exact Hm. cbn [issues_by_dir total_issues].
    pose proof (store_all_total_le (fst (file_key relpath fr))
                  (snd (file_key relpath fr)) (tally (messages fr) [])
                  (issues_by_dir a)) as H1.
    rewrite tally_total in H1. change (rules_total []) with 0 in H1. lia.
  - rewrite add_file_skip by exact Hm. exact H.
Qed.

End Agg.

End RuleFacts.

(** X16: when the entries with messages name their files, the loop of
    [parse_eslint_report] ends normally, the count kept for a rule is the
    number of messages of the report that carry it (a rule no message
    carries has no entry), and both the rule counts and [total_issues]
    add up to the number of messages. *)
Theorem X16_rule_counts_count_the_messages
    (relpath : pystr -> pystr) (r : AnalyzeJson.report) (x : AnalyzeJson.rule_id) :
  AnalyzeJson.paths_given r ->
  let msgs := flat_map AnalyzeJson.messages r in
  exists a,
    AnalyzeJson.aggregate relpath r = ([], Py.Ok a)
    /\ Py.get AnalyzeJson.rule_eqb x (AnalyzeJson.rule_counts a)
       = match RuleFacts.occurrences x msgs with
         | 0 => None
         | S n => Some (S n)
         end
    /\ AnalyzeJson.rules_total (AnalyzeJson.rule_counts a) = length msgs
    /\ AnalyzeJson.total_issues a = length msgs.
Proof.
  intros Hpaths msgs. exists (JsonLoop.run relpath r).
  split; [apply JsonLoop.aggregate_run; exact Hpaths|].
  unfold JsonLoop.run.
  destruct (RuleFacts.aggregate_counts_total relpath r (AnalyzeJson.Analysis [] [] 0))
    as [H1 H2].
  split; [|split; [exact H1|exact H2]].
  rewrite RuleFacts.get_of_getd
    by (apply RuleFacts.aggregate_counts_pos; constructor).
  rewrite RuleFacts.aggregate_rule_counts. reflexivity.
Qed.

Lemma X16_rule_counts_witness :
  let semi := AnalyzeJson.Message (Some (AnalyzeJson.RStr (s "semi"))) in
  let r := [AnalyzeJson.FileReport (Some (s "src/a.ts"))
              [semi; AnalyzeJson.Message None];
            AnalyzeJson.FileReport None [];
            AnalyzeJson.FileReport (Some (s "src/a.ts")) [semi]] in
  exists a,
    AnalyzeJson.aggregate (fun p => p) r = ([], Py.Ok a)
    /\ Py.get AnalyzeJson.rule_eqb (AnalyzeJson.RStr (s "semi"))
         (AnalyzeJson.rule_counts a) = Some 2
    /\ AnalyzeJson.rules_total (AnalyzeJson.rule_counts a) = 3
    /\ AnalyzeJson.total_issues a = 3.
Proof.
  intros semi r.
  apply (@X16_rule_counts_count_the_messages (fun p => p) r
           (AnalyzeJson.RStr (s "semi"))).
  unfold AnalyzeJson.paths_given.
  repeat (apply Forall_cons;
          [vm_compute; intros H; first [reflexivity | discriminate H]|]).
  apply Forall_nil.
Defined.

(** X17: what is stored for a file and a rule is the count of the last
    entry of the report, among those of that file, that carries the rule:
    a later entry of the same file replaces the count instead of adding
    to it; and nothing is stored where no entry of the file carries the
    rule. *)
Theorem X17_stored_count_is_that_of_the_last_entry
    (relpath : pystr -> pystr) (r1 r2 : AnalyzeJson.report)
    (fr : AnalyzeJson.file_report) (x : AnalyzeJson.rule_id) (n : nat)
    (d f : pystr) :
  AnalyzeJson.paths_given (r1 ++ fr :: r2) ->
  Forall (fun fr' => AnalyzeJson.file_key relpath fr' = (d, f) ->
                     RuleFacts.occurrences x (AnalyzeJson.messages fr') = 0) r2 ->
  (AnalyzeJson.file_key relpath fr = (d, f) ->
   RuleFacts.occurrences x (AnalyzeJson.messages fr) = S n ->
   exists a,
     AnalyzeJson.aggregate relpath (r1 ++ fr :: r2) = ([], Py.Ok a)
     /\ JsonFacts.count_at d f x (AnalyzeJson.issues_by_dir a) = S n)
  /\ (exists a,
        AnalyzeJson.aggregate relpath r2 = ([], Py.Ok a)
        /\ JsonFacts.count_at d f x (AnalyzeJson.issues_by_dir a) = 0).
Proof.
  intros Hpaths H2. split.
  - intros Hk Hx. exists (JsonLoop.run relpath (r1 ++ fr :: r2)).
    split; [apply JsonLoop.aggregate_run; exact Hpaths|].
    unfold JsonLoop.run.
    rewrite fold_left_app. cbn [fold_left].
    rewrite RuleFacts.aggregate_count_other by exact H2.
    pose proof (RuleFacts.add_file_count_same relpath
                  (fold_left (JsonLoop.step relpath) r1
                     (AnalyzeJson.Analysis [] [] 0)) fr x Hx) as H.
    rewrite Hk in H. exact H.
  - exists (JsonLoop.run relpath r2). split.
    + apply JsonLoop.aggregate_run. unfold AnalyzeJson.paths_given in *.
      apply Forall_app in Hpaths. destruct Hpaths as [_ Hp].
      inversion Hp. assumption.
    + unfold JsonLoop.run.
      rewrite RuleFacts.aggregate_count_other by exact H2. reflexivity.
Qed.

Lemma X17_stored_count_witness :
  let semi := AnalyzeJson.Message (Some (AnalyzeJson.RStr (s "semi"))) in
  let fr1 := AnalyzeJson.FileReport (Some (s "src/a.ts")) [semi; semi] in
  let fr2 := AnalyzeJson.FileReport (Some (s "src/a.ts")) [semi] in
  let fr3 := AnalyzeJson.FileReport (Some (s "src/b.ts")) [semi; semi; semi] in
  exists a,
    AnalyzeJson.aggregate (fun p => p) ([fr1] ++ fr2 :: [fr3]) = ([], Py.Ok a)
    /\ JsonFacts.count_at (s "src") (s "a.ts") (AnalyzeJson.RStr (s "semi"))
         (AnalyzeJson.issues_by_dir a) = 1.
Proof.
  intros semi fr1 fr2 fr3.
  apply (fun H0 H => proj1 (@X17_stored_count_is_that_of_the_last_entry
                              (fun p => p) [fr1] [fr3] fr2
                              (AnalyzeJson.RStr (s "semi")) 0
                              (s "src") (s "a.ts") H0 H)).
  - unfold AnalyzeJson.paths_given. repeat constructor.
  - constructor; [|constructor]. intros H. vm_compute in H. discriminate H.
  - reflexivity.
  - reflexivity.
Defined.

Module DupFacts.

Import AnalyzeJson PyFacts JsonFacts JsonInv RuleFacts.

Lemma get_in (x : rule_id) (c : nat) (d : rules) :
  Py.get rule_eqb x d = Some c -> In (x, c) d.
Proof.
  induction d as [|[r c'] d IH]; cbn; [discriminate|].
  destruct (rule_eqb x r) eqn:E.
  - intros H. injection H as ->. apply rule_eqb_eq in E. subst r. left. reflexivity.
  - intros H. right. exact (IH H).
Qed.

Lemma store_all_total_lt d f x (fi : rules) : forall i : issues,
  NoDup (Py.keys fi) -> In x (Py.keys fi) -> 1 <= count_at d f x i ->
  issues_total (fold_left (store d f) fi i) < issues_total i + rules_total fi.
Proof.
  unfold rules_total, Py.values.
  induction fi as [|[r c] fi IH]; intros i Hnd Hin Hx; cbn [fold_left map];
    [destruct Hin|].
  inversion Hnd as [|? ? Hni Hnd']. subst.
  pose proof (store_total d f r c i) as Ht.
  rewrite sum_cons. cbn [snd].
  destruct Hin as [E|Hin]; cbn [fst] in *.
  - subst r.
    pose proof (store_all_total_le d f fi (store d f i (x, c))) as Hle.
    unfold rules_total, Py.values in Hle. lia.
  - assert (Hne : r <> x) by (intros ->; exact (Hni Hin)).
    pose proof (IH (store d f i (r, c)) Hnd' Hin) as Hlt.
    rewrite count_store_other in Hlt by congruence.
    specialize (Hlt Hx). lia.
Qed.

Section Agg.

Variable relpath : pystr -> pystr.

Lemma add_file_count_pos (a : analysis) (fr : file_report) d f x :
  1 <= count_at d f x (issues_by_dir a) ->
  1 <= count_at d f x (issues_by_dir (JsonLoop.step relpath a fr)).
Proof.
  intros H. destruct (has_messages fr) eqn:Hm.
  - rewrite add_file_messages by exact Hm. cbn [issues_by_dir].
    destruct (file_key relpath fr) as [d0 f0] eqn:Ek. cbn [fst snd].
    destruct (list_eq_dec (list_eq_dec ascii_dec) [d0; f0] [d; f]) as [E|E].
    + injection E as -> ->.
      rewrite store_all_count by (apply tally_nodup; constructor).
      destruct (Py.get rule_eqb x (tally (messages fr) [])) eqn:G; [|exact H].
      eapply get_pos; [|exact G]. apply tally_pos. constructor.
    + rewrite count_store_all_other; [exact H|]. congruence.
  - rewrite add_file_skip by exact Hm. exact H.
Qed.

Lemma aggregate_count_pos (r : report) d f x : forall a : analysis,
  1 <= count_at d f x (issues_by_dir a) ->
  1 <= count_at d f x (issues_by_dir (fold_left (JsonLoop.step relpath) r a)).
Proof.
  induction r as [|fr r IH]; intros a H; cbn [fold_left]; [exact H|].
  apply IH. apply add_file_count_pos. exact H.
Qed.

Lemma add_file_total_step (a : analysis) (fr : file_report) :
  issues_total (issues_by_dir (JsonLoop.step relpath a fr)) + total_issues a
  <= issues_total (issues_by_dir a) + total_issues (JsonLoop.step relpath a fr).
Proof.
  destruct (has_messages fr) eqn:Hm.
  - rewrite add_file_messages by exact Hm. cbn [issues_by_dir total_issues].
    pose proof (store_all_total_le (fst (file_key relpath fr))
                  (snd (file_key relpath fr)) (tally (messages fr) [])
                  (issues_by_dir a)) as H1.
    rewrite tally_total in H1. change (rules_total []) with 0 in H1. lia.
  - rewrite add_file_skip by exact Hm. lia.
Qed.

Lemma aggregate_total_lt (r : report) : forall a : analysis,
  issues_total (issues_by_dir a) < total_issues a ->
  issues_total (issues_by_dir (fold_left (JsonLoop.step relpath) r a))
  < total_issues (fold_left (JsonLoop.step relpath) r a).
Proof.
  induction r as [|fr r IH]; intros a H; cbn [fold_left]; [exact H|].
  apply IH. pose proof (add_file_total_step a fr). lia.
Qed.

Lemma add_file_again_lt (a : analysis) (fr : file_report) x :
  issues_total (issues_by_dir a) <= total_issues a ->
  1 <= occurrences x (messages fr) ->
  1 <= count_at (fst (file_key relpath fr)) (snd (file_key relpath fr)) x
         (issues_by_dir a) ->
  issues_total (issues_by_dir (JsonLoop.step relpath a fr))
  < total_issues (JsonLoop.step relpath a fr).
Proof.
  intros Hle Hocc Hold.
  assert (Hm : has_messages fr = true).
  { unfold has_messages. destruct (messages fr); [|reflexivity].
    unfold occurrences in Hocc. cbn in Hocc. lia. }
  rewrite add_file_messages by exact Hm. cbn [issues_by_dir total_issues].
  assert (Hin : In x (Py.keys (tally (messages fr) []))).
  { assert (G : Py.get rule_eqb x (tally (messages fr) [])
                = Some (occurrences x (messages fr))).
    { rewrite get_of_getd by (apply tally_pos; constructor).
      rewrite tally_count. cbn.
      destruct (occurrences x (messages fr)); [lia|reflexivity]. }
    apply get_in in G. unfold Py.keys.
    change x with (fst (x, occurrences x (messages fr))).
    apply in_map. exact G. }
  pose proof (@store_all_total_lt (fst (file_key relpath fr))
                (snd (file_key relpath fr)) x (tally (messages fr) [])
                (issues_by_dir a)
                (@tally_nodup (messages fr) [] (NoDup_nil _))
                Hin Hold) as Hlt.
  rewrite tally_total in Hlt. change (rules_total []) with 0 in Hlt. lia.
Qed.

End Agg.

End DupFacts.

(** X18: when the entries with messages name their files, the directory
    totals of the aggregation add up to at most [total_issues]; they add
    up to less as soon as two entries of the report name the same file
    and carry a common rule. *)
Theorem X18_directory_totals_at_most_total
    (relpath : pystr -> pystr) (r : AnalyzeJson.report) :
  AnalyzeJson.paths_given r ->
  exists a,
    AnalyzeJson.aggregate relpath r = ([], Py.Ok a)
    /\ Py.sum (map snd (AnalyzeJson.dir_totals (AnalyzeJson.issues_by_dir a)))
       <= AnalyzeJson.total_issues a
    /\ (forall r1 r2 r3 fr fr' x,
          r = r1 ++ fr :: r2 ++ fr' :: r3 ->
          AnalyzeJson.file_key relpath fr = AnalyzeJson.file_key relpath fr' ->
          1 <= RuleFacts.occurrences x (AnalyzeJson.messages fr) ->
          1 <= RuleFacts.occurrences x (AnalyzeJson.messages fr') ->
          Py.sum (map snd (AnalyzeJson.dir_totals (AnalyzeJson.issues_by_dir a)))
          < AnalyzeJson.total_issues a).
Proof.
  intros Hpaths. exists (JsonLoop.run relpath r).
  split; [apply JsonLoop.aggregate_run; exact Hpaths|].
  assert (H0 : JsonFacts.issues_total
                 (AnalyzeJson.issues_by_dir (AnalyzeJson.Analysis [] [] 0))
               <= AnalyzeJson.total_issues (AnalyzeJson.Analysis [] [] 0)).
  { cbn. unfold JsonFacts.issues_total, Py.sum. cbn. lia. }
  split.
  - apply (RuleFacts.aggregate_total_le relpath r). exact H0.
  - intros r1 r2 r3 fr fr' x -> Hk Hx Hx'. unfold JsonLoop.run.
    rewrite fold_left_app. cbn [fold_left].
    rewrite fold_left_app. cbn [fold_left].
    apply DupFacts.aggregate_total_lt.
    set (a1 := fold_left (JsonLoop.step relpath) r1
                 (AnalyzeJson.Analysis [] [] 0)).
    apply DupFacts.add_file_again_lt with (x := x).
    + apply RuleFacts.aggregate_total_le.
      pose proof (DupFacts.add_file_total_step relpath a1 fr) as Hs.
      pose proof (RuleFacts.aggregate_total_le relpath r1 _ H0) as H1.
      fold a1 in H1. lia.
    + exact Hx'.
    + rewrite <- Hk. apply DupFacts.aggregate_count_pos.
      destruct (RuleFacts.occurrences x (AnalyzeJson.messages fr)) as [|n] eqn:E;
        [lia|].
      rewrite (RuleFacts.add_file_count_same relpath a1 fr x E). lia.
Qed.

Lemma X18_directory_totals_witness :
  let fr := AnalyzeJson.FileReport (Some (s "src/a.ts"))
              [AnalyzeJson.Message (Some (AnalyzeJson.RStr (s "semi")))] in
  exists a,
    AnalyzeJson.aggregate (fun p => p) [fr; fr] = ([], Py.Ok a)
    /\ Py.sum (map snd (AnalyzeJson.dir_totals (AnalyzeJson.issues_by_dir a)))
       < AnalyzeJson.total_issues a.
Proof.
  intros fr.
  destruct (@X18_directory_totals_at_most_total (fun p => p) [fr; fr])
    as (a & Ha & _ & Hlt).
  - unfold AnalyzeJson.paths_given. repeat constructor.
  - exists a. split; [exact Ha|].
    apply (Hlt [] [] [] fr fr (AnalyzeJson.RStr (s "semi"))).
    + reflexivity.
    + reflexivity.
    + vm_compute. lia.
    + vm_compute. lia.
Defined.

Module MainFacts.

Import AnalyzeJson PyFacts JsonFacts JsonInv JsonDisplay RuleFacts DupFacts.

(** The "Top ESLint Rules" lines of an output. *)
Definition top_rules (out : list line) : list (rule_id * nat) :=
  flat_map (fun l => match l with
                     | J_top_rule r c _ => [(r, c)]
                     | _ => []
                     end) out.

Lemma top_rules_app (a b : list line) :
  top_rules (a ++ b) = top_rules a ++ top_rules b.
Proof. apply flat_map_app. Qed.

Lemma keys_store_hd d f e (i : issues) :
  hd_error (Py.keys (store d f i e))
  = match Py.keys i with k :: _ => Some k | [] => Some d end.
Proof.
  unfold store. destruct i as [|[k v] i]; cbn; [reflexivity|].
  destruct (pystr_eqb d k); reflexivity.
Qed.

Lemma keys_store_all_hd d f (fi : rules) : forall i : issues,
  fi <> [] ->
  hd_error (Py.keys (fold_left (store d f) fi i))
  = match Py.keys i with k :: _ => Some k | [] => Some d end.
Proof.
  induction fi as [|e fi IH]; intros i Hne; [contradiction|].
  cbn [fold_left]. destruct fi as [|e' fi].
  - cbn [fold_left]. apply keys_store_hd.
  - rewrite IH by discriminate.
    pose proof (keys_store_hd d f e i) as H.
    destruct (Py.keys (store d f i e)) as [|k ks]; cbn in H.
    + destruct (Py.keys i); discriminate.
    + destruct (Py.keys i); congruence.
Qed.

Lemma tally_nonempty (msgs : list message) : forall d : rules,
  msgs <> [] \/ d <> [] -> tally msgs d <> [].
Proof.
  unfold tally.
  induction msgs as [|m msgs IH]; intros d H; cbn [fold_left].
  - destruct H as [H|H]; [contradiction|exact H].
  - apply IH. right. unfold bump. apply upd_nonempty.
Qed.

Section Agg.

Variable relpath : pystr -> pystr.
Variable json_load : pystr -> option report.

(** The first key of the aggregation is the directory of the first
    entry of the report that has messages. *)
Lemma aggregate_first_key (r : report) : forall a : analysis,
  hd_error (Py.keys (issues_by_dir (fold_left (JsonLoop.step relpath) r a)))
  = match Py.keys (issues_by_dir a) with
    | k :: _ => Some k
    | [] => option_map (fun fr => Py.dirname (relpath (path_of fr)))
              (find has_messages r)
    end.
Proof.
  induction r as [|fr r IH]; intros a; cbn [fold_left find option_map].
  - destruct (Py.keys (issues_by_dir a)); reflexivity.
  - rewrite IH. destruct (has_messages fr) eqn:Hm.
    + rewrite add_file_messages by exact Hm. cbn [issues_by_dir option_map].
      pose proof (@keys_store_all_hd (fst (file_key relpath fr))
                    (snd (file_key relpath fr)) (tally (messages fr) [])
                    (issues_by_dir a)) as H.
      assert (Hne : tally (messages fr) [] <> []).
      { apply tally_nonempty. left. unfold has_messages in Hm.
        destruct (messages fr); [discriminate Hm|discriminate]. }
      specialize (H Hne).
      destruct (Py.keys (fold_left _ (tally (messages fr) []) (issues_by_dir a)))
        as [|k ks]; cbn [hd_error] in H.
      * destruct (Py.keys (issues_by_dir a)); discriminate H.
      * destruct (Py.keys (issues_by_dir a)); injection H as ->; reflexivity.
    + rewrite add_file_skip by exact Hm. reflexivity.
Qed.

End Agg.

(** *** The output of the display, line by line *)

Lemma bind_ok (L A B : Type) (m : Py.io L A) (f : A -> Py.io L B) out b :
  Py.bind m f = (out, Py.Ok b) ->
  exists o1 a o2, m = (o1, Py.Ok a) /\ f a = (o2, Py.Ok b) /\ out = o1 ++ o2.
Proof.
  destruct m as [o1 [a|e]]; cbn [Py.bind].
  - destruct (f a) as [o2 r] eqn:E. intros H. injection H as <- ->.
    exists o1, a, o2. auto.
  - discriminate.
Qed.

Lemma fst_bind (L A B : Type) (m : Py.io L A) (f : A -> Py.io L B) :
  fst (Py.bind m f)
  = fst m ++ match snd m with Py.Ok a => fst (f a) | Py.Raise _ => [] end.
Proof.
  destruct m as [o1 [a|e]]; cbn [Py.bind fst snd].
  - destruct (f a); reflexivity.
  - rewrite app_nil_r. reflexivity.
Qed.

Lemma for_each_no_top (X : Type) (body : X -> io unit) (l : list X) :
  (forall x, top_rules (fst (body x)) = []) ->
  top_rules (fst (Py.for_each l body)) = [].
Proof.
  intros H. induction l as [|x l IH]; cbn [Py.for_each]; [reflexivity|].
  rewrite fst_bind, top_rules_app, H. cbn [app].
  destruct (snd (body x)); [exact IH|reflexivity].
Qed.

Lemma percent_out (a b : nat) : fst (percent a b) = [].
Proof. destruct b; reflexivity. Qed.

Lemma show_file_no_top (fs : files) (dir_total : nat) (e : pystr * nat) :
  top_rules (fst (show_file fs dir_total e)) = [].
Proof.
  unfold show_file. rewrite fst_bind, percent_out. cbn [app].
  destruct (snd (percent (snd e) dir_total)); [|reflexivity].
  rewrite fst_bind. cbn [Py.print fst snd].
  rewrite fst_bind, print_rules_ok. cbn [fst snd].
  unfold top_rules. rewrite !flat_map_app. cbn [flat_map app].
  assert (H : forall l : list (rule_id * nat),
            flat_map (fun l0 : line => match l0 with
                                       | J_top_rule r c _ => [(r, c)]
                                       | _ => []
                                       end)
              (map (fun rc => J_rule (fst rc) (snd rc)) l) = []).
  { induction l as [|x l IH]; [reflexivity|exact IH]. }
  rewrite H. cbn [app]. destruct (5 <? _); reflexivity.
Qed.

Lemma show_dir_no_top (a : analysis) (e : pystr * nat) :
  top_rules (fst (show_dir a e)) = [].
Proof.
  unfold show_dir. rewrite fst_bind, percent_out. cbn [app].
  destruct (snd (percent (snd e) (total_issues a))); [|reflexivity].
  rewrite fst_bind. cbn [Py.print fst snd].
  rewrite fst_bind.
  pose proof (@for_each_no_top _
                (show_file (lookup (fst e) (issues_by_dir a) []) (snd e))
                (Py.sorted_desc (file_totals (lookup (fst e) (issues_by_dir a) [])))
                (show_file_no_top _ _)) as H.
  rewrite !top_rules_app, H. cbn [app].
  destruct (snd (Py.for_each _ _)); reflexivity.
Qed.

Lemma show_top_rules_lines (a : analysis) (l : list (rule_id * nat)) out :
  Py.for_each l (show_top_rule a) = (out, Py.Ok tt) -> top_rules out = l.
Proof.
  revert out. induction l as [|[x c] l IH]; intros out H; cbn [Py.for_each] in H.
  - injection H as <-. reflexivity.
  - apply bind_ok in H. destruct H as (o1 & u & o2 & H1 & H2 & ->).
    unfold show_top_rule, percent in H1. cbn [fst snd] in H1.
    destruct (total_issues a); [discriminate H1|].
    cbn [Py.bind Py.ret Py.print app] in H1. injection H1 as <- _.
    rewrite top_rules_app, (IH _ H2). reflexivity.
Qed.

Lemma display_top_rules (a : analysis) out :
  display_analysis a = (out, Py.Ok tt) ->
  top_rules out = firstn 10 (Py.sorted_desc (rule_counts a)).
Proof.
  unfold display_analysis. cbn [Py.bind Py.print app]. intros H.
  pose proof (@for_each_no_top _ (show_dir a)
                (Py.sorted_desc (dir_totals (issues_by_dir a)))
                (show_dir_no_top a)) as Hd.
  destruct (Py.for_each (Py.sorted_desc (dir_totals (issues_by_dir a)))
              (show_dir a)) as [o1 [u|ex]]; [|discriminate H].
  cbn [fst] in Hd. cbn [app] in H.
  destruct (Py.for_each (firstn 10 (Py.sorted_desc (rule_counts a)))
              (show_top_rule a)) as [o2 [u2|ex]] eqn:E2; [|discriminate H].
  injection H as <-. destruct u2.
  apply show_top_rules_lines in E2.
  cbn [top_rules flat_map app]. fold (top_rules (o1 ++ J_top_title :: o2)).
  rewrite top_rules_app, Hd. cbn [app top_rules flat_map]. exact E2.
Qed.

Lemma nodup_firstn (A : Type) (n : nat) (l : list A) :
  NoDup l -> NoDup (firstn n l).
Proof.
  intros H. rewrite <- (firstn_skipn n l) in H.
  apply NoDup_app_remove_r in H. exact H.
Qed.

End MainFacts.

(** X19: the JSON aggregator's [main] on a report that has an entry
    with messages.  When every entry with messages names its file, the
    run ends normally, with exit status 0, and its last line recommends
    the directory of the first entry with messages (whatever the totals
    of the directories are).  When an entry with messages has no path or
    an empty one, nothing is printed and the run ends with the uncaught
    [KeyError] or [ValueError] of the loop, exit status 1. *)
Theorem X19_main_recommends_first_directory
    (relpath : pystr -> pystr)
    (json_load : pystr -> option AnalyzeJson.report)
    (text : pystr) (shell : option pystr)
    (r : AnalyzeJson.report) (fr : AnalyzeJson.file_report) :
  json_load text = Some r ->
  find AnalyzeJson.has_messages r = Some fr ->
  (AnalyzeJson.paths_given r ->
   exists a out filepath,
     AnalyzeJson.filePath fr = Some filepath
     /\ AnalyzeJson.aggregate relpath r = ([], Py.Ok a)
     /\ AnalyzeJson.display_analysis a = (out, Py.Ok tt)
     /\ AnalyzeJson.main relpath json_load (Some text) shell
        = (out ++ [AnalyzeJson.J_complete;
                   AnalyzeJson.J_next (Py.dirname (relpath filepath))],
           Py.Ok tt)
     /\ Py.exit_status (AnalyzeJson.main relpath json_load (Some text) shell)
        = 0)
  /\ (~ AnalyzeJson.paths_given r ->
      exists e,
        AnalyzeJson.main relpath json_load (Some text) shell
        = ([], Py.Raise e)
        /\ (e = Py.KeyError \/ e = Py.ValueError)
        /\ Py.exit_status (AnalyzeJson.main relpath json_load (Some text) shell)
           = 1).
Proof.
  intros Hload Hfind. split.
  - intros Hpaths.
    destruct (JsonInv.display_aggregate relpath r) as (out & E & _ & _).
    pose proof (JsonLoop.aggregate_run relpath Hpaths) as Hagg.
    assert (Hfr : exists filepath, AnalyzeJson.filePath fr = Some filepath).
    { apply find_some in Hfind. destruct Hfind as [Hin Hm].
      unfold AnalyzeJson.paths_given in Hpaths. rewrite Forall_forall in Hpaths.
      specialize (Hpaths fr Hin Hm). unfold AnalyzeJson.has_path in Hpaths.
      destruct (AnalyzeJson.filePath fr) as [p|]; [|discriminate Hpaths].
      exists p. reflexivity. }
    destruct Hfr as (filepath & Hfp).
    exists (JsonLoop.run relpath r), out, filepath.
    split; [exact Hfp|]. split; [exact Hagg|]. split; [exact E|].
    assert (Hmain : AnalyzeJson.main relpath json_load (Some text) shell
         = (out ++ [AnalyzeJson.J_complete;
                    AnalyzeJson.J_next (Py.dirname (relpath filepath))],
            Py.Ok tt)).
    { unfold AnalyzeJson.main, AnalyzeJson.generate_eslint_report,
        AnalyzeJson.parse_eslint_report.
      cbn [Py.bind Py.ret]. rewrite Hload, Hagg. cbn [Py.bind Py.ret app].
      rewrite E. cbn [Py.bind Py.print app].
      pose proof (MainFacts.aggregate_first_key relpath r
                    (AnalyzeJson.Analysis [] [] 0)) as Hk.
      fold (JsonLoop.run relpath r) in Hk.
      cbn [AnalyzeJson.issues_by_dir Py.keys map] in Hk.
      rewrite Hfind in Hk. cbn [option_map] in Hk.
      unfold AnalyzeJson.path_of in Hk. rewrite Hfp in Hk.
      unfold AnalyzeJson.first_key.
      destruct (Py.keys (AnalyzeJson.issues_by_dir (JsonLoop.run relpath r)))
        as [|k ks]; [discriminate Hk|].
      injection Hk as ->. cbn [Py.bind Py.ret Py.print app].
      reflexivity. }
    split; [exact Hmain|]. rewrite Hmain. reflexivity.
  - intros Hbad.
    destruct (find JsonLoop.unreadable r) as [bad|] eqn:Eb.
    + pose proof (JsonLoop.aggregate_raises relpath r Eb) as Hagg.
      assert (Hmain : AnalyzeJson.main relpath json_load (Some text) shell
                      = ([], Py.Raise (JsonLoop.path_error bad))).
      { unfold AnalyzeJson.main, AnalyzeJson.generate_eslint_report,
          AnalyzeJson.parse_eslint_report.
        cbn [Py.bind Py.ret]. rewrite Hload, Hagg. reflexivity. }
      exists (JsonLoop.path_error bad). split; [exact Hmain|]. split.
      * unfold JsonLoop.path_error.
        destruct (AnalyzeJson.filePath bad); [right|left]; reflexivity.
      * rewrite Hmain. unfold JsonLoop.path_error.
        destruct (AnalyzeJson.filePath bad); reflexivity.
    + exfalso. apply Hbad. apply JsonLoop.paths_given_iff. exact Eb.
Qed.

Lemma X19_main_witness :
  let semi := AnalyzeJson.Message (Some (AnalyzeJson.RStr (s "semi"))) in
  let r := [AnalyzeJson.FileReport (Some (s "src/a.ts")) [];
            AnalyzeJson.FileReport (Some (s "lib/b.ts")) [semi];
            AnalyzeJson.FileReport (Some (s "src/c.ts"))
              [AnalyzeJson.Message None; AnalyzeJson.Message None]] in
  let r' := [AnalyzeJson.FileReport (Some []) [semi]] in
  (exists a out,
     AnalyzeJson.aggregate (fun p => p) r = ([], Py.Ok a)
     /\ AnalyzeJson.display_analysis a = (out, Py.Ok tt)
     /\ AnalyzeJson.main (fun p => p) (fun _ => Some r) (Some (s "[...]")) None
        = (out ++ [AnalyzeJson.J_complete;
                   AnalyzeJson.J_next (Py.dirname (s "lib/b.ts"))],
           Py.Ok tt)
     /\ Py.exit_status
          (AnalyzeJson.main (fun p => p) (fun _ => Some r) (Some (s "[...]")) None)
        = 0)
  /\ Py.exit_status
       (AnalyzeJson.main (fun p => p) (fun _ => Some r') (Some (s "[...]")) None)
     = 1.
Proof.
  intros semi r r'. split.
  - destruct (@X19_main_recommends_first_directory (fun p => p) (fun _ => Some r)
                (s "[...]") None r
                (AnalyzeJson.FileReport (Some (s "lib/b.ts")) [semi])
                eq_refl eq_refl) as [H _].
    destruct H as (a & out & filepath & Hfp & H1 & H2 & H3 & H4).
    + unfold AnalyzeJson.paths_given. repeat constructor.
    + injection Hfp as <-. exists a, out. auto.
  - destruct (@X19_main_recommends_first_directory (fun p => p) (fun _ => Some r')
                (s "[...]") None r'
                (AnalyzeJson.FileReport (Some []) [semi])
                eq_refl eq_refl) as [_ H].
    destruct H as (e & _ & _ & H).
    + intros Hp. inversion Hp as [|? ? Hfr _]. subst.
      specialize (Hfr eq_refl). discriminate Hfr.
    + exact H.
Defined.

(** X20: when the entries with messages name their files, the "Top
    ESLint Rules" section of the display of the aggregated report lists
    at most ten rules, each once, in non-increasing order of their
    counts; the count shown for a rule is the number of messages of the
    report that carry it; and a rule of the report is left out only when
    ten rules with at least its count are shown. *)
Theorem X20_top_rules_section
    (relpath : pystr -> pystr) (r : AnalyzeJson.report) :
  AnalyzeJson.paths_given r ->
  let msgs := flat_map AnalyzeJson.messages r in
  exists a out,
    AnalyzeJson.aggregate relpath r = ([], Py.Ok a)
    /\ AnalyzeJson.display_analysis a = (out, Py.Ok tt)
    /\ MainFacts.top_rules out
       = firstn 10 (Py.sorted_desc (AnalyzeJson.rule_counts a))
    /\ StronglySorted (fun p q => snd q <= snd p) (MainFacts.top_rules out)
    /\ length (MainFacts.top_rules out) <= 10
    /\ NoDup (map fst (MainFacts.top_rules out))
    /\ (forall x c, In (x, c) (MainFacts.top_rules out) ->
                    c = RuleFacts.occurrences x msgs /\ 1 <= c)
    /\ (forall x, 1 <= RuleFacts.occurrences x msgs ->
          In (x, RuleFacts.occurrences x msgs) (MainFacts.top_rules out)
          \/ (length (MainFacts.top_rules out) = 10
              /\ forall y, In y (MainFacts.top_rules out) ->
                           RuleFacts.occurrences x msgs <= snd y)).
Proof.
  intros Hpaths msgs.
  destruct (JsonInv.display_aggregate relpath r) as (out & E & _ & _).
  exists (JsonLoop.run relpath r), out.
  split; [apply JsonLoop.aggregate_run; exact Hpaths|].
  split; [exact E|].
  rewrite (MainFacts.display_top_rules _ E).
  split; [reflexivity|].
  set (rc := AnalyzeJson.rule_counts (JsonLoop.run relpath r)).
  pose proof (PyFacts.sorted_desc_sorted rc) as Hs.
  pose proof (PyFacts.sorted_desc_perm rc) as Hp.
  assert (Hnd : NoDup (Py.keys rc)).
  { apply RuleFacts.aggregate_counts_nodup. constructor. }
  assert (Hget : forall x, Py.get AnalyzeJson.rule_eqb x rc
                 = match RuleFacts.occurrences x msgs with
                   | 0 => None
                   | S n => Some (S n)
                   end).
  { intros x. unfold rc, JsonLoop.run.
    rewrite RuleFacts.get_of_getd
      by (apply RuleFacts.aggregate_counts_pos; constructor).
    rewrite RuleFacts.aggregate_rule_counts. reflexivity. }
  set (sr := Py.sorted_desc rc) in *.
  split; [apply PyFacts.sorted_firstn; exact Hs|].
  split; [apply firstn_le_length|].
  split.
  { rewrite <- firstn_map. apply MainFacts.nodup_firstn.
    apply (Permutation_NoDup (l := Py.keys rc)); [|exact Hnd].
    symmetry. apply Permutation_map. exact Hp. }
  split.
  - intros x c Hin.
    assert (Hrc : In (x, c) rc).
    { apply (Permutation_in _ Hp).
      rewrite <- (firstn_skipn 10 sr). apply in_or_app. left. exact Hin. }
    apply (PyFacts.in_get AnalyzeJson.rule_eqb JsonFacts.rule_eqb_eq _ _ _ Hnd) in Hrc.
    rewrite Hget in Hrc.
    destruct (RuleFacts.occurrences x msgs); [discriminate|].
    injection Hrc as <-. split; [reflexivity|lia].
  - intros x Hx.
    assert (Hrc : In (x, RuleFacts.occurrences x msgs) sr).
    { apply (Permutation_in _ (Permutation_sym Hp)).
      apply DupFacts.get_in. rewrite Hget.
      destruct (RuleFacts.occurrences x msgs); [lia|reflexivity]. }
    rewrite <- (firstn_skipn 10 sr) in Hrc. apply in_app_or in Hrc.
    destruct Hrc as [Hin|Hin]; [left; exact Hin|right].
    split.
    + rewrite length_firstn.
      destruct (Nat.le_gt_cases (length sr) 10) as [Hle|Hgt]; [|lia].
      rewrite skipn_all2 in Hin by exact Hle. destruct Hin.
    + intros y Hy.
      exact (PyFacts.sorted_split 10 Hs _ _ Hy Hin).
Qed.

Lemma X20_top_rules_witness :
  let semi := AnalyzeJson.Message (Some (AnalyzeJson.RStr (s "semi"))) in
  let quotes := AnalyzeJson.Message (Some (AnalyzeJson.RStr (s "quotes"))) in
  let r := [AnalyzeJson.FileReport (Some (s "src/a.ts")) [quotes; semi];
            AnalyzeJson.FileReport (Some (s "lib/b.ts")) [semi]] in
  exists a out,
    AnalyzeJson.aggregate (fun p => p) r = ([], Py.Ok a)
    /\ AnalyzeJson.display_analysis a = (out, Py.Ok tt)
    /\ MainFacts.top_rules out
       = firstn 10 (Py.sorted_desc (AnalyzeJson.rule_counts a)).
Proof.
  intros semi quotes r.
  destruct (@X20_top_rules_section (fun p => p) r) as (a & out & H1 & H2 & H3 & _).
  - unfold AnalyzeJson.paths_given. repeat constructor.
  - exists a, out. auto.
Defined.

Module TextDisplay.

Import AnalyzeText PyFacts TextFacts.

(** The path a counted line reports: the first group of the match. *)
Definition path_of (l : pystr) : option pystr :=
  match re_match file_pattern (strip l) with
  | Some m => Some (group 1 m)
  | None => None
  end.

(** The number of lines that report the path. *)
Definition reported (p : pystr) (lines : list pystr) : nat :=
  length (filter (fun l => match path_of l with
                           | Some q => pystr_eqb q p
                           | None => false
                           end) lines).

Definition file_count (d : counts) (folder p : pystr) : nat :=
  getd pystr_eqb 0 p (getd pystr_eqb [] folder d).

Lemma count_line_path (d : counts) (l : pystr) :
  count_line d l
  = match path_of l with
    | Some p => incr (Py.dirname p) p d
    | None => d
    end.
Proof.
  unfold count_line, path_of. destruct (re_match file_pattern (strip l)); reflexivity.
Qed.

Lemma file_count_incr (fo fi : pystr) (d : counts) (folder p : pystr) :
  file_count (incr fo fi d) folder p
  = file_count d folder p
    + (if pystr_eqb fo folder && pystr_eqb fi p then 1 else 0).
Proof.
  unfold file_count, incr.
  destruct (pystr_eqb fo folder) eqn:E1.
  - apply pystr_eqb_eq in E1. subst folder. unfold getd at 2.
    rewrite (get_upd_same pystr_eqb pystr_eqb_eq).
    destruct (pystr_eqb fi p) eqn:E2; cbn [andb].
    + apply pystr_eqb_eq in E2. subst p. unfold getd at 1.
      rewrite (get_upd_same pystr_eqb pystr_eqb_eq). lia.
    + unfold getd at 1. rewrite (get_upd_other pystr_eqb pystr_eqb_eq).
      * fold (getd pystr_eqb 0 p (getd pystr_eqb [] fo d)). lia.
      * intros ->. rewrite (proj2 (pystr_eqb_eq p p) eq_refl) in E2. discriminate.
  - cbn [andb]. unfold getd at 2.
    rewrite (get_upd_other pystr_eqb pystr_eqb_eq).
    + fold (getd pystr_eqb [] folder d). lia.
    + intros ->. rewrite (proj2 (pystr_eqb_eq folder folder) eq_refl) in E1.
      discriminate.
Qed.

Lemma file_count_lines (lines : list pystr) (folder p : pystr) :
  forall d : counts,
  file_count (fold_left count_line lines d) folder p
  = file_count d folder p
    + (if pystr_eqb (Py.dirname p) folder then reported p lines else 0).
Proof.
  unfold reported.
  induction lines as [|l lines IH]; intros d; cbn [fold_left filter length].
  - destruct (pystr_eqb (Py.dirname p) folder); lia.
  - rewrite IH, count_line_path. destruct (path_of l) as [q|].
    + rewrite file_count_incr. destruct (pystr_eqb q p) eqn:E.
      * apply pystr_eqb_eq in E. subst q. rewrite andb_true_r.
        destruct (pystr_eqb (Py.dirname p) folder); cbn [length]; lia.
      * rewrite andb_false_r. lia.
    + lia.
Qed.

(** Every stored count is positive. *)
Definition counts_pos (d : counts) : Prop :=
  Forall (fun e : pystr * Py.dict pystr nat =>
            Forall (fun fe => 1 <= snd fe) (snd e)) d.

Lemma forall_upd_dict (K V : Type) (eqb : K -> K -> bool) (P : V -> Prop)
    k f dflt (d : Py.dict K V) :
  Forall (fun e => P (snd e)) d -> (forall v, P v -> P (f v)) -> P (f dflt) ->
  Forall (fun e => P (snd e)) (Py.upd eqb k f dflt d).
Proof.
  intros Hd Hf H0. induction Hd as [|[k' v] d Hx Hd IH]; cbn.
  - constructor; [exact H0|constructor].
  - destruct (eqb k k').
    + constructor; [apply Hf; exact Hx|exact Hd].
    + constructor; assumption.
Qed.

Lemma count_lines_pos (lines : list pystr) : forall d : counts,
  counts_pos d -> counts_pos (fold_left count_line lines d).
Proof.
  induction lines as [|l lines IH]; intros d H; cbn [fold_left]; [exact H|].
  apply IH. rewrite count_line_path. destruct (path_of l) as [q|]; [|exact H].
  unfold incr, counts_pos.
  apply (@forall_upd_dict _ _ pystr_eqb
           (fun fs : Py.dict pystr nat => Forall (fun fe => 1 <= snd fe) fs)).
  - exact H.
  - intros v Hv.
    apply (@forall_upd_dict _ _ pystr_eqb (fun n : nat => 1 <= n)).
    + exact Hv.
    + intros n _. lia.
    + lia.
  - cbn. constructor; [cbn; lia|constructor].
Qed.

Lemma get_pos_files (p : pystr) (fs : Py.dict pystr nat) (v : nat) :
  Forall (fun fe => 1 <= snd fe) fs -> Py.get pystr_eqb p fs = Some v -> 1 <= v.
Proof.
  induction 1 as [|[q c] fs Hc _ IH]; cbn; [discriminate|].
  destruct (pystr_eqb p q); [|exact IH].
  intros E. injection E as <-. exact Hc.
Qed.

Lemma files_of_pos (d : counts) (folder : pystr) :
  counts_pos d -> Forall (fun fe => 1 <= snd fe) (files_of d folder).
Proof.
  unfold files_of. induction 1 as [|[k fs] d Hfs _ IH]; cbn; [constructor|].
  destruct (pystr_eqb folder k); [exact Hfs|exact IH].
Qed.

(** *** The folder and file lines of the display *)

Definition blocks_of (d : counts) : list (nat * list nat) :=
  map (fun e => (snd e, map snd (Py.sorted_desc (files_of d (fst e)))))
      (Py.sorted_desc (folder_errors d)).

Lemma display_blocks (d : counts) :
  exists out,
    display_sorted_results d = (out, Py.Ok tt)
    /\ folder_blocks out = blocks_of d.
Proof.
  unfold display_sorted_results, blocks_of.
  destruct d as [|x d'] eqn:Ed.
  - eexists. split; reflexivity.
  - rewrite <- Ed. clear Ed x d'.
    destruct (show_folders_view d (Py.sorted_desc (folder_errors d)))
      as (o & E & V).
    cbn [Py.bind Py.print app]. rewrite E.
    eexists. split; [reflexivity|].
    unfold folder_blocks. cbn [fold_right tview_step].
    rewrite V by reflexivity. cbn [fst]. apply app_nil_r.
Qed.

Lemma count_lines_empty (lines : list pystr) :
  filter counted lines = [] -> fold_left count_line lines [] = [].
Proof.
  induction lines as [|l lines IH]; cbn [fold_left filter]; [reflexivity|].
  unfold count_line at 2. unfold counted at 1.
  destruct (re_match file_pattern (strip l)); [discriminate|exact IH].
Qed.

Lemma count_lines_nonempty (lines : list pystr) : forall d : counts,
  d <> [] -> fold_left count_line lines d <> [].
Proof.
  induction lines as [|l lines IH]; intros d H; cbn [fold_left]; [exact H|].
  apply IH. unfold count_line.
  destruct (re_match file_pattern (strip l)); [|exact H].
  unfold incr. apply upd_nonempty.
Qed.

Lemma count_lines_some (lines : list pystr) :
  filter counted lines <> [] -> fold_left count_line lines [] <> [].
Proof.
  induction lines as [|l lines IH]; cbn [fold_left filter]; [congruence|].
  unfold count_line at 2. unfold counted at 1.
  destruct (re_match file_pattern (strip l)); [|exact IH].
  intros _. apply count_lines_nonempty. unfold incr. apply upd_nonempty.
Qed.

End TextDisplay.

(** X21: the text aggregator's display ends normally for every
    aggregation; its folder headings come in non-increasing order of
    their totals, and the file lines under a heading in non-increasing
    order of their counts. *)
Theorem X21_text_display_sorted (d : AnalyzeText.counts) :
  exists out,
    AnalyzeText.display_sorted_results d = (out, Py.Ok tt)
    /\ StronglySorted (fun a b => fst b <= fst a) (AnalyzeText.folder_blocks out)
    /\ Forall (fun b => StronglySorted (fun x y => y <= x) (snd b))
         (AnalyzeText.folder_blocks out).
Proof.
  destruct (TextDisplay.display_blocks d) as (out & E & Hb).
  exists out. split; [exact E|]. rewrite Hb. unfold TextDisplay.blocks_of. split.
  - apply strongly_sorted_map. cbn [fst].
    apply PyFacts.sorted_desc_sorted.
  - rewrite Forall_map, Forall_forall. intros e _. cbn [snd].
    apply strongly_sorted_map. apply PyFacts.sorted_desc_sorted.
Qed.

(** X22: the text aggregator's [main] never raises: whatever the report
    file is, it prints its first and last lines and ends with exit status
    0; an unreadable report is handled like an empty one; and the "no
    issues" output is produced exactly when no line of the report is
    counted. *)
Theorem X22_text_main_always_completes :
  (forall f : AnalyzeText.report_file,
     exists mid,
       AnalyzeText.main f
       = (AnalyzeText.T_analyzing :: mid ++ [AnalyzeText.T_complete], Py.Ok tt)
       /\ Py.exit_status (AnalyzeText.main f) = 0)
  /\ AnalyzeText.main AnalyzeText.Unreadable
     = ([AnalyzeText.T_analyzing; AnalyzeText.T_read_error;
         AnalyzeText.T_no_issues; AnalyzeText.T_complete], Py.Ok tt)
  /\ (forall lines : list pystr,
        AnalyzeText.main (AnalyzeText.Lines lines)
        = ([AnalyzeText.T_analyzing; AnalyzeText.T_no_issues;
            AnalyzeText.T_complete], Py.Ok tt)
        <-> filter AnalyzeText.counted lines = []).
Proof.
  split; [|split].
  - intros f. unfold AnalyzeText.main.
    destruct f as [| |lines]; cbn [AnalyzeText.parse_eslint_report Py.bind
                                     Py.print Py.ret app].
    + exists [AnalyzeText.T_not_found; AnalyzeText.T_no_issues].
      split; reflexivity.
    + exists [AnalyzeText.T_read_error; AnalyzeText.T_no_issues].
      split; reflexivity.
    + destruct (TextDisplay.display_blocks
                  (fold_left AnalyzeText.count_line lines [])) as (out & E & _).
      rewrite E. cbn [Py.bind Py.print app].
      exists out. split; reflexivity.
  - reflexivity.
  - intros lines. unfold AnalyzeText.main.
    cbn [AnalyzeText.parse_eslint_report Py.bind Py.print Py.ret app].
    split.
    + intros H.
      destruct (filter AnalyzeText.counted lines) as [|l ls] eqn:Ef; [reflexivity|].
      exfalso.
      assert (Hne : fold_left AnalyzeText.count_line lines [] <> []).
      { apply TextDisplay.count_lines_some. rewrite Ef. discriminate. }
      unfold AnalyzeText.display_sorted_results in H.
      destruct (fold_left AnalyzeText.count_line lines []) as [|x d'];
        [contradiction|].
      cbn [Py.bind Py.print app] in H.
      destruct (Py.for_each _ _) as [o [u|e]]; cbn [Py.bind Py.print app] in H;
        discriminate H.
    + intros H. rewrite (TextDisplay.count_lines_empty _ H). reflexivity.
Qed.

(** X23: after the lines of a text report are counted, a path is stored
    under the folder that is its directory, and nowhere else, with the
    number of lines that report it; a path that no line reports is not
    stored. *)
Theorem X23_text_file_counts (lines : list pystr) (folder p : pystr) :
  let d := fold_left AnalyzeText.count_line lines [] in
  Py.get pystr_eqb p (AnalyzeText.files_of d folder)
  = if pystr_eqb (Py.dirname p) folder
    then match TextDisplay.reported p lines with
         | 0 => None
         | S n => Some (S n)
         end
    else None.
Proof.
  intros d.
  pose proof (TextDisplay.file_count_lines lines folder p []) as H.
  fold d in H. unfold TextDisplay.file_count in H.
  change (PyFacts.getd pystr_eqb 0 p (PyFacts.getd pystr_eqb [] folder []))
    with 0 in H. cbn [Nat.add] in H.
  assert (Hpos : Forall (fun fe => 1 <= snd fe) (AnalyzeText.files_of d folder)).
  { apply TextDisplay.files_of_pos. apply TextDisplay.count_lines_pos. constructor. }
  change (PyFacts.getd pystr_eqb [] folder d)
    with (AnalyzeText.files_of d folder) in H.
  unfold PyFacts.getd in H.
  destruct (Py.get pystr_eqb p (AnalyzeText.files_of d folder)) as [v|] eqn:G.
  - pose proof (TextDisplay.get_pos_files _ Hpos G) as Hv.
    destruct (pystr_eqb (Py.dirname p) folder); [|lia].
    rewrite <- H. destruct v; [lia|reflexivity].
  - destruct (pystr_eqb (Py.dirname p) folder); [|reflexivity].
    rewrite <- H. reflexivity.
Qed.

(** ** Single replacements of the rewriters *)

(** *** What one replacement of the declaration patterns does *)

Module InsertFacts.

Import ReFacts SubFacts KeepFacts.








End InsertFacts.




(** *** Property declarations of type [any] *)

Module PropertyFacts.

Import ReFacts SubFacts SearchFacts.

Open Scope re_scope.

(** **** Where a text occurs in a concatenation *)




Lemma contains_false_left (l x y : pystr) :
  contains l (x ++ y) = false -> contains l x = false.
Proof.
  intros H. destruct (contains l x) eqn:E; [|reflexivity].
  rewrite <- H. symmetry.
  pose proof (contains_inside l [] x y E) as G. exact G.
Qed.










(** **** Patterns that need another character after [any] *)









(** **** The replacement for properties *)







(** **** The scan of [re.subn] *)




(** **** A file of declarations *)


(** A declaration with the text before it. *)
Record item : Type := Item {
  before : pystr;
  name : pystr;
  space : pystr
}.
















End PropertyFacts.


